(** * resource-gather.py: quantity conversion and `oc describe node` scanning

    A shallow embedding of the unit-conversion helpers
    ([convert_memory_to_bytes], [convert_memory_to_gib],
    [convert_memory_to_mib], [format_cpu_cores], [format_cpu_m]) and of the
    text-scanning part of [get_node_details] of [src/resource-gather.py],
    followed by the properties of the specification that concern them;
    then of the functions that walk a fetched document
    ([get_workload_resources], [get_resource_quota_details],
    [get_limit_range_details], the capacity part of [get_node_details]) and
    of the headers that [main] writes, with further properties of the code.

    Conventions of the embedding.
    - A Python [str] is a [string]; each character is a code point below 256.
    - A Python [float] is an IEEE-754 binary64 value, [float] below, with
      correctly rounded (round-half-to-even) operations written over [Z].
    - A Python [int] is a [Z].
    - A Python call that may raise returns a [result].
    - [convert_memory_to_bytes] first hands a [numfmt] command line to a
      shell.  What that command line prints is a parameter of
      [Host.convert_memory_to_bytes], the whole function; the top-level
      [convert_memory_to_bytes] is its manual parsing (lines 42-43 and
      53-70), which the function reaches whenever the command yields no
      value, and which the scanner and the document walkers are embedded
      with. *)

From Stdlib Require Import ZArith List Bool Ascii String Lia.
Import ListNotations.

#[local] Open Scope string_scope.
#[local] Open Scope Z_scope.

(* ===================================================================== *)
(** * Exceptions *)
(* ===================================================================== *)

Inductive exn : Type :=
| ValueError
| OverflowError
| ZeroDivisionError.

Inductive result (A : Type) : Type :=
| Ok (a : A)
| Raise (e : exn).

Arguments Ok {A} a.
Arguments Raise {A} e.

Definition bind {A B : Type} (r : result A) (k : A -> result B) : result B :=
  match r with
  | Ok a => k a
  | Raise e => Raise e
  end.

Notation "x <- r ;; k" := (bind r (fun x => k))
  (at level 61, r at next level, right associativity).

(** [try: ... except ValueError: h] *)
Definition except_ValueError {A : Type} (r : result A) (h : result A) : result A :=
  match r with
  | Raise ValueError => h
  | _ => r
  end.

(* ===================================================================== *)
(** * Characters and strings *)
(* ===================================================================== *)

Module Str.

Definition code (c : ascii) : Z := Z.of_N (N_of_ascii c).

Definition chr (z : Z) : ascii := ascii_of_N (Z.to_N z).

(** [0-9] *)
Definition is_digit (c : ascii) : bool := (48 <=? code c) && (code c <=? 57).

(** [str.isspace] per character, which is also [\s] of the [re] module on
    [str] patterns: code points 9-13, 28-32, 133 and 160 below 256. *)
Definition isspace (c : ascii) : bool :=
  let n := code c in
  ((9 <=? n) && (n <=? 13)) || ((28 <=? n) && (n <=? 32))
  || (n =? 133) || (n =? 160).

(** Line boundaries of [str.splitlines]: \n \r \v \f \x1c \x1d \x1e \x85. *)
Definition is_linebreak (c : ascii) : bool :=
  let n := code c in
  ((10 <=? n) && (n <=? 13)) || ((28 <=? n) && (n <=? 30)) || (n =? 133).

Definition digit_val (c : ascii) : Z := code c - 48.

Definition digit_char (d : Z) : ascii := chr (48 + d).

(** [str.lower] per character. *)
Definition lower_char (c : ascii) : ascii :=
  let n := code c in
  if ((65 <=? n) && (n <=? 90))
     || ((192 <=? n) && (n <=? 222) && negb (n =? 215))
  then chr (n + 32) else c.

Fixpoint lower (s : string) : string :=
  match s with
  | EmptyString => EmptyString
  | String c r => String (lower_char c) (lower r)
  end.

Fixpoint all_chars (p : ascii -> bool) (s : string) : bool :=
  match s with
  | EmptyString => true
  | String c r => p c && all_chars p r
  end.

(** Longest prefix of characters satisfying [p], and the rest. *)
Fixpoint span (p : ascii -> bool) (s : string) : string * string :=
  match s with
  | EmptyString => (EmptyString, EmptyString)
  | String c r =>
      if p c then let (a, b) := span p r in (String c a, b)
      else (EmptyString, s)
  end.

Fixpoint drop_while (p : ascii -> bool) (s : string) : string :=
  match s with
  | EmptyString => EmptyString
  | String c r => if p c then drop_while p r else s
  end.

(** Removes the trailing characters satisfying [p]. *)
Fixpoint rstrip_with (p : ascii -> bool) (s : string) : string :=
  match s with
  | EmptyString => EmptyString
  | String c r =>
      match rstrip_with p r with
      | EmptyString => if p c then EmptyString else String c EmptyString
      | r' => String c r'
      end
  end.

(** [s.strip()] *)
Definition strip (s : string) : string :=
  rstrip_with isspace (drop_while isspace s).

(** [s.startswith(p)], returning the rest of [s] after [p]. *)
Fixpoint strip_prefix (p s : string) : option string :=
  match p with
  | EmptyString => Some s
  | String a p' =>
      match s with
      | EmptyString => None
      | String b s' => if Ascii.eqb a b then strip_prefix p' s' else None
      end
  end.

Definition startswith (p s : string) : bool :=
  match strip_prefix p s with Some _ => true | None => false end.

(** [p in s] for strings. *)
Fixpoint contains (p s : string) : bool :=
  startswith p s
  || match s with
     | EmptyString => false
     | String _ r => contains p r
     end.

(** [s.endswith(c)] for a one-character suffix. *)
Fixpoint endswith_char (c : ascii) (s : string) : bool :=
  match s with
  | EmptyString => false
  | String a EmptyString => Ascii.eqb a c
  | String _ r => endswith_char c r
  end.

(** [s[:-1]] *)
Fixpoint drop_last (s : string) : string :=
  match s with
  | EmptyString => EmptyString
  | String _ EmptyString => EmptyString
  | String a r => String a (drop_last r)
  end.

(** [s.splitlines()] *)
Fixpoint splitlines (s : string) : list string :=
  match s with
  | EmptyString => []
  | String c r =>
      if is_linebreak c then
        EmptyString ::
          (if Ascii.eqb c "013"
           then match r with
                | String "010" r' => splitlines r'
                | _ => splitlines r
                end
           else splitlines r)
      else
        match splitlines r with
        | [] => [String c EmptyString]
        | l :: ls => String c l :: ls
        end
  end.

(** [s.split()]: the maximal runs of non-whitespace characters. *)
Fixpoint split_ws_aux (cur : option string) (s : string) : list string :=
  match s with
  | EmptyString => match cur with Some w => [w] | None => [] end
  | String c r =>
      if isspace c then
        match cur with
        | Some w => w :: split_ws_aux None r
        | None => split_ws_aux None r
        end
      else
        split_ws_aux (Some (match cur with Some w => w ++ String c EmptyString
                                      | None => String c EmptyString end)) r
  end.

Definition split (s : string) : list string := split_ws_aux None s.

(** [x in parts] for a list of strings. *)
Definition mem (x : string) (l : list string) : bool :=
  existsb (String.eqb x) l.

(** [parts[i] if len(parts) > i else ""] *)
Definition get_or_empty (l : list string) (i : nat) : string :=
  nth i l EmptyString.

(** Decimal digits of a non-negative integer, most significant first. *)
Fixpoint digits_fuel (fuel : nat) (n : Z) (acc : string) : string :=
  match fuel with
  | O => acc
  | S f =>
      let acc' := String (digit_char (n mod 10)) acc in
      if n <? 10 then acc' else digits_fuel f (n / 10) acc'
  end.

Definition digits_of (n : Z) : string :=
  digits_fuel (S (Z.to_nat (Z.log2 n))) n EmptyString.

(** [str(n)] for an [int]. *)
Definition of_int (n : Z) : string :=
  if n <? 0 then String "-" (digits_of (- n)) else digits_of n.

(** Value of a string of decimal digits, continuing from [acc]. *)
Fixpoint digits_val (acc : Z) (s : string) : Z :=
  match s with
  | EmptyString => acc
  | String c r => digits_val (10 * acc + digit_val c) r
  end.

Fixpoint repeat_char (c : ascii) (n : nat) : string :=
  match n with
  | O => EmptyString
  | S k => String c (repeat_char c k)
  end.

(** Left zero-padding to [w] characters. *)
Definition zero_pad (w : nat) (s : string) : string :=
  repeat_char "0" (w - String.length s) ++ s.

End Str.

(* ===================================================================== *)
(** * Python floats (IEEE-754 binary64) *)
(* ===================================================================== *)

Module Float.

(** A finite binary64 value is a whole multiple of 2^-1074, the least
    positive value of the format: [Fin neg k] is (-1)^neg * k * 2^-1074,
    with [0 <= k < 2^2098]. *)
Inductive float : Type :=
| NaN
| Inf (neg : bool)
| Fin (neg : bool) (k : Z).

(** 2^1074: the number 1 in multiples of 2^-1074. *)
Definition one : Z := 2 ^ 1074.

(** 2^2098 * 2^-1074 = 2^1024, the least magnitude that overflows. *)
Definition overflow_threshold : Z := 2 ^ 2098.

(** Nearest integer to [a / b], ties to even ([0 <= a], [0 < b]). *)
Definition div_rne (a b : Z) : Z :=
  let (q, r) := Z.div_eucl a b in
  if 2 * r <? b then q
  else if b <? 2 * r then q + 1
  else if Z.even q then q else q + 1.

(** The spacing 2^t (in multiples of 2^-1074) of the binary64 values around
    the positive rational [x / d]: the significand x / (d * 2^t) has 53 bits,
    or fewer when [t = 0] (subnormal range).  The difference of the two
    logarithms is the exponent of [x / d] or one more. *)
Definition spacing_exponent (x d : Z) : Z :=
  let t1 := Z.max 0 (Z.log2 x - Z.log2 d - 52) in
  if x <? 2 ^ 52 * (d * 2 ^ t1) then Z.max 0 (t1 - 1) else t1.

(** Correct rounding of (-1)^neg * n / d to binary64 ([0 <= n], [0 < d]);
    a rounded magnitude of 2^1024 or more is an infinity. *)
Definition round_ratio (neg : bool) (n d : Z) : float :=
  if n =? 0 then Fin neg 0
  else
    let x := n * one in
    let t := spacing_exponent x d in
    let k := div_rne x (d * 2 ^ t) * 2 ^ t in
    if overflow_threshold <=? k then Inf neg else Fin neg k.

(** Conversion of an [int] that is used as a float operand. *)
Definition of_Z (z : Z) : float := round_ratio (z <? 0) (Z.abs z) 1.

(** n * 10^k *)
Definition of_decimal (neg : bool) (n k : Z) : float :=
  if 0 <=? k then round_ratio neg (n * 10 ^ k) 1
  else round_ratio neg n (10 ^ (- k)).

(** [x * y] *)
Definition mul (x y : float) : float :=
  match x, y with
  | NaN, _ | _, NaN => NaN
  | Inf s, Inf t => Inf (xorb s t)
  | Inf s, Fin t k | Fin t k, Inf s =>
      if k =? 0 then NaN else Inf (xorb s t)
  | Fin s k, Fin t k' => round_ratio (xorb s t) (k * k') (one * one)
  end.

Definition is_zero (x : float) : bool :=
  match x with
  | Fin _ k => k =? 0
  | _ => false
  end.

(** [x / y] on floats. *)
Definition div (x y : float) : result float :=
  if is_zero y then Raise ZeroDivisionError
  else
    Ok match x, y with
       | NaN, _ | _, NaN => NaN
       | Inf _, Inf _ => NaN
       | Inf s, Fin t _ => Inf (xorb s t)
       | Fin s _, Inf t => Fin (xorb s t) 0
       | Fin s k, Fin t k' => round_ratio (xorb s t) k k'
       end.

(** [a / b] on ints (true division, correctly rounded). *)
Definition int_truediv (a b : Z) : result float :=
  if b =? 0 then Raise ZeroDivisionError
  else
    match round_ratio (xorb (a <? 0) (b <? 0)) (Z.abs a) (Z.abs b) with
    | Inf _ => Raise OverflowError
    | x => Ok x
    end.

Definition apply_sign (neg : bool) (z : Z) : Z := if neg then - z else z.

(** [int(x)]: truncation toward zero. *)
Definition to_int (x : float) : result Z :=
  match x with
  | NaN => Raise ValueError
  | Inf _ => Raise OverflowError
  | Fin neg k => Ok (apply_sign neg (k / one))
  end.

(** [round(x)]: nearest integer, ties to even. *)
Definition round (x : float) : result Z :=
  match x with
  | NaN => Raise ValueError
  | Inf _ => Raise OverflowError
  | Fin neg k => Ok (apply_sign neg (div_rne k one))
  end.

(** [f"{x:.<prec>f}"] *)
Definition format_fixed (prec : nat) (x : float) : string :=
  match x with
  | NaN => "nan"
  | Inf neg => if neg then "-inf" else "inf"
  | Fin neg k =>
      let p := 10 ^ Z.of_nat prec in
      let r := div_rne (k * p) one in
      (if neg then "-" else "")
      ++ Str.digits_of (r / p)
      ++ match prec with
         | O => ""
         | _ => "." ++ Str.zero_pad prec (Str.digits_of (r mod p))
         end
  end.

(** ** [float(s)] for a string *)

(** Non-ASCII whitespace becomes a space and the first other non-ASCII
    character becomes "?" and ends the text; an ASCII string is unchanged. *)
Fixpoint to_ascii_spaces (s : string) : string :=
  match s with
  | EmptyString => EmptyString
  | String c r =>
      if Str.code c <? 127 then String c (to_ascii_spaces r)
      else if Str.isspace c then String " " (to_ascii_spaces r)
      else "?"
  end.

Definition transform (s : string) : string :=
  if Str.all_chars (fun c => Str.code c <? 128) s then s
  else to_ascii_spaces s.

(** [prev] is a character that satisfies [p]. *)
Definition prev_is (p : ascii -> bool) (prev : option ascii) : bool :=
  match prev with
  | Some c => p c
  | None => false
  end.

(** An underscore is accepted only between two digits, and is dropped. *)
Fixpoint remove_underscores (prev : option ascii) (s : string) : option string :=
  match s with
  | EmptyString =>
      if prev_is (Ascii.eqb "_") prev then None else Some EmptyString
  | String c r =>
      if Ascii.eqb c "_" then
        if prev_is Str.is_digit prev then remove_underscores (Some c) r
        else None
      else if prev_is (Ascii.eqb "_") prev && negb (Str.is_digit c) then None
      else option_map (String c) (remove_underscores (Some c) r)
  end.

(** The C-locale [isspace]: 9-13 and 32. *)
Definition is_c_space (c : ascii) : bool :=
  let n := Str.code c in ((9 <=? n) && (n <=? 13)) || (n =? 32).

Definition parse_sign (s : string) : bool * string :=
  match s with
  | String c r =>
      if Ascii.eqb c "-" then (true, r)
      else if Ascii.eqb c "+" then (false, r)
      else (false, s)
  | EmptyString => (false, s)
  end.

(** [e] or [E], an optional sign and at least one digit; otherwise nothing
    is consumed. *)
Definition parse_exponent (s : string) : Z * string :=
  match s with
  | String c r =>
      if Ascii.eqb c "e" || Ascii.eqb c "E" then
        let (neg, r1) := parse_sign r in
        let (ds, r2) := Str.span Str.is_digit r1 in
        match ds with
        | EmptyString => (0, s)
        | _ => (apply_sign neg (Str.digits_val 0 ds), r2)
        end
      else (0, s)
  | EmptyString => (0, s)
  end.

(** A decimal point and the digits after it, if [s] starts with one. *)
Definition parse_fraction (s : string) : string * string :=
  match s with
  | String c r =>
      if Ascii.eqb c "." then Str.span Str.is_digit r else (EmptyString, s)
  | EmptyString => (EmptyString, s)
  end.

(** A decimal literal that takes the whole of [s]. *)
Definition parse_decimal (s : string) : option float :=
  let (neg, s1) := parse_sign s in
  let (ip, s2) := Str.span Str.is_digit s1 in
  let (fp, s3) := parse_fraction s2 in
  match (ip ++ fp)%string with
  | EmptyString => None
  | ds =>
      let (ex, s4) := parse_exponent s3 in
      match s4 with
      | EmptyString =>
          Some (of_decimal neg (Str.digits_val 0 ds)
                  (ex - Z.of_nat (String.length fp)))
      | _ => None
      end
  end.

(** [inf], [infinity] or [nan] in any letter case, with an optional sign. *)
Definition parse_inf_or_nan (s : string) : option float :=
  let (neg, r) := parse_sign s in
  let w := Str.lower r in
  if String.eqb w "inf" || String.eqb w "infinity" then Some (Inf neg)
  else if String.eqb w "nan" then Some NaN
  else None.

Definition parse_stripped (s : string) : option float :=
  match parse_decimal s with
  | Some x => Some x
  | None => parse_inf_or_nan s
  end.

(** [float(s)]; every failure is a [ValueError]. *)
Definition of_string (s : string) : result float :=
  match remove_underscores None (transform s) with
  | None => Raise ValueError
  | Some t =>
      match parse_stripped (Str.rstrip_with is_c_space (Str.drop_while is_c_space t)) with
      | Some x => Ok x
      | None => Raise ValueError
      end
  end.

End Float.

(* ===================================================================== *)
(** * Unit conversion and formatting functions *)
(* ===================================================================== *)

Import Str.

(** [[0-9.]] *)
Definition is_num_char (c : ascii) : bool := is_digit c || Ascii.eqb c ".".

(** [[KMGTPEZY]] *)
Definition is_unit_letter (c : ascii) : bool :=
  existsb (Ascii.eqb c)
    ["K"; "M"; "G"; "T"; "P"; "E"; "Z"; "Y"]%char.

Definition optional_char (c : ascii) (s : string) : string * string :=
  match s with
  | String a r => if Ascii.eqb a c then (String c EmptyString, r) else (EmptyString, s)
  | EmptyString => (EmptyString, s)
  end.

(** [([KMGTPEZY]i?B?)?] at the start of [s]: the unit and the rest. *)
Definition match_unit (s : string) : string * string :=
  match s with
  | String c r =>
      if is_unit_letter c then
        let (i, r1) := optional_char "i" r in
        let (b, r2) := optional_char "B" r1 in
        (String c (i ++ b), r2)
      else (EmptyString, s)
  | EmptyString => (EmptyString, s)
  end.

(** [$]: the end of the text, or the position before a final newline. *)
Definition at_end (s : string) : bool :=
  match s with
  | EmptyString => true
  | String "010" EmptyString => true
  | _ => false
  end.

(** [re.match(r"^([0-9.]+)([KMGTPEZY]i?B?)?$", s)]: groups 1 and 2, an
    absent group 2 being the empty string.  The character classes of the
    two groups and of what may follow them are disjoint, so the greedy
    match is the only candidate. *)
Definition match_quantity (s : string) : option (string * string) :=
  let (num, r) := span is_num_char s in
  match num with
  | EmptyString => None
  | _ =>
      let (u, r') := match_unit r in
      if at_end r' then Some (num, u) else None
  end.

(** The [int] 1024 as a float operand. *)
Definition f1024 : Float.float := Float.of_Z 1024.

(** The manual parsing of [convert_memory_to_bytes] (lines 42-43 and
    53-70): what the function returns when the [numfmt] command of lines
    45-51 yields no value.  The whole function is
    [Host.convert_memory_to_bytes] below. *)
Definition convert_memory_to_bytes (value_with_unit : string) : result Z :=
  match value_with_unit with
  | EmptyString => Ok 0
  | _ =>
      match match_quantity value_with_unit with
      | None => Ok 0
      | Some (g1, g2) =>
          num <- Float.of_string g1 ;;
          let unit := lower g2 in
          if mem unit ["ki"; "k"; "kib"] then
            Float.to_int (Float.mul num f1024)
          else if mem unit ["mi"; "m"; "mib"] then
            Float.to_int (Float.mul (Float.mul num f1024) f1024)
          else if mem unit ["gi"; "g"; "gib"] then
            Float.to_int (Float.mul (Float.mul (Float.mul num f1024) f1024) f1024)
          else if mem unit ["ti"; "t"; "tib"] then
            Float.to_int
              (Float.mul (Float.mul (Float.mul (Float.mul num f1024) f1024) f1024) f1024)
          else Float.to_int num
      end
  end.

Definition convert_memory_to_gib (value_with_unit : string) : result string :=
  mem_bytes <- convert_memory_to_bytes value_with_unit ;;
  if mem_bytes <=? 0 then Ok ""
  else
    gib <- Float.int_truediv mem_bytes (1024 * 1024 * 1024) ;;
    Ok (Float.format_fixed 2 gib ++ "Gi").

Definition convert_memory_to_mib (value_with_unit : string) : result string :=
  mem_bytes <- convert_memory_to_bytes value_with_unit ;;
  if mem_bytes <=? 0 then Ok ""
  else
    mib <- Float.int_truediv mem_bytes (1024 * 1024) ;;
    Ok (Float.format_fixed 0 mib ++ "Mi").

Definition format_cpu_cores (value : string) : result string :=
  match value with
  | EmptyString => Ok ""
  | _ =>
      if endswith_char "m" value then
        millicores <- Float.of_string (drop_last value) ;;
        cores <- Float.div millicores (Float.of_Z 1000) ;;
        Ok (Float.format_fixed 2 cores ++ "cores")
      else
        except_ValueError
          (_ <- Float.of_string value ;;
           v <- Float.of_string value ;;
           Ok (Float.format_fixed 2 v ++ "cores"))
          (Ok value)
  end.

Definition format_cpu_m (value : string) : result string :=
  match value with
  | EmptyString => Ok ""
  | _ =>
      if endswith_char "m" value then Ok value
      else
        except_ValueError
          (cores <- Float.of_string value ;;
           millicores <- Float.round (Float.mul cores (Float.of_Z 1000)) ;;
           Ok (of_int millicores ++ "m"))
          (Ok value)
  end.

(* ===================================================================== *)
(** * The whole of [convert_memory_to_bytes]: the [numfmt] command first *)
(* ===================================================================== *)

Module Host.

Section Command.

(** [run_command(command, ignore_errors=True)] as [convert_memory_to_bytes]
    sees it: the stripped standard output of the command, or [None] when the
    command exits with an error or is not found ([run_command] returns
    [None]) and when anything else is raised (the [except Exception: pass]
    around the call).  The command line is handed to a shell, so what it
    prints depends on the host and on the whole text of the line. *)
Variable run_command : string -> option string.

Definition numfmt_command (value_with_unit : string) : string :=
  "numfmt --from=iec " ++ value_with_unit.

(** Lines 45-51: the value that the [try] block returns, if it returns one.
    An empty output, an output that [float] rejects and one that [int]
    rejects (an infinity or a NaN) all lead to the manual parsing. *)
Definition numfmt_bytes (value_with_unit : string) : option Z :=
  match run_command (numfmt_command value_with_unit) with
  | None => None
  | Some bytes_val =>
      match bytes_val with
      | EmptyString => None
      | _ =>
          match (x <- Float.of_string bytes_val ;; Float.to_int x) with
          | Ok n => Some n
          | Raise _ => None
          end
      end
  end.

(** Lines 53-70, defined above. *)
Definition manual_parsing (value_with_unit : string) : result Z :=
  convert_memory_to_bytes value_with_unit.

(** Lines 41-70. *)
Definition convert_memory_to_bytes (value_with_unit : string) : result Z :=
  match value_with_unit with
  | EmptyString => Ok 0
  | _ =>
      match numfmt_bytes value_with_unit with
      | Some n => Ok n
      | None => manual_parsing value_with_unit
      end
  end.

Definition convert_memory_to_gib (value_with_unit : string) : result string :=
  mem_bytes <- convert_memory_to_bytes value_with_unit ;;
  if mem_bytes <=? 0 then Ok ""
  else
    gib <- Float.int_truediv mem_bytes (1024 * 1024 * 1024) ;;
    Ok (Float.format_fixed 2 gib ++ "Gi").

Definition convert_memory_to_mib (value_with_unit : string) : result string :=
  mem_bytes <- convert_memory_to_bytes value_with_unit ;;
  if mem_bytes <=? 0 then Ok ""
  else
    mib <- Float.int_truediv mem_bytes (1024 * 1024) ;;
    Ok (Float.format_fixed 0 mib ++ "Mi").

End Command.

End Host.

(* ===================================================================== *)
(** * The scanning part of [get_node_details] *)
(* ===================================================================== *)

Module Node.

Definition hdr_allocated : string := "Allocated resources:".
Definition hdr_pods : string := "Non-terminated Pods:".
Definition hdr_events : string := "Events:".
Definition notice_limits : string :=
  "Total limits may exceed allocatable resources".
Definition notice_columns : string :=
  "Resource           Requests         Limits".

(** The first loop over the lines: the stripped lines that lie inside an
    "Allocated resources:" block. *)
Fixpoint allocated_resources_block (in_block : bool) (lines : list string)
  : list string :=
  match lines with
  | [] => []
  | line :: rest =>
      if contains hdr_allocated line then allocated_resources_block true rest
      else
        let in_block := if contains hdr_events line then false else in_block in
        if in_block && negb (contains notice_limits line)
           && negb (contains notice_columns line)
        then strip line :: allocated_resources_block in_block rest
        else allocated_resources_block in_block rest
  end.

Record allocated : Type := {
  cpu_req : string;
  cpu_limit : string;
  mem_req_raw : string;
  mem_limit_raw : string
}.

Definition allocated_init : allocated :=
  {| cpu_req := ""; cpu_limit := ""; mem_req_raw := ""; mem_limit_raw := "" |}.

(** One iteration of the loop over [allocated_resources_block]. *)
Definition allocated_step (st : allocated) (line : string) : allocated :=
  let parts := split line in
  if mem "cpu" parts then
    {| cpu_req := get_or_empty parts 1;
       cpu_limit := get_or_empty parts 3;
       mem_req_raw := mem_req_raw st;
       mem_limit_raw := mem_limit_raw st |}
  else if mem "memory" parts then
    {| cpu_req := cpu_req st;
       cpu_limit := cpu_limit st;
       mem_req_raw := get_or_empty parts 1;
       mem_limit_raw := get_or_empty parts 3 |}
  else st.

Definition parse_allocated (st : allocated) (block : list string) : allocated :=
  fold_left allocated_step block st.

(** [\(([0-9]+)\s*in\s*total\)] at the start of [s]: the matched text and
    group 1. *)
Definition match_in_total (s : string) : option (string * string) :=
  match strip_prefix "(" s with
  | None => None
  | Some r1 =>
      let (ds, r2) := span is_digit r1 in
      match ds with
      | EmptyString => None
      | _ =>
          let (w1, r3) := span isspace r2 in
          match strip_prefix "in" r3 with
          | None => None
          | Some r4 =>
              let (w2, r5) := span isspace r4 in
              match strip_prefix "total)" r5 with
              | None => None
              | Some _ => Some ("(" ++ ds ++ w1 ++ "in" ++ w2 ++ "total)", ds)
              end
          end
      end
  end.

(** [Non-terminated Pods:\s*\([0-9]+\s*in\s*total\)] at the start of [s]:
    the matched text. *)
Definition match_pods_total (s : string) : option string :=
  match strip_prefix hdr_pods s with
  | None => None
  | Some r1 =>
      let (w, r2) := span isspace r1 in
      match match_in_total r2 with
      | None => None
      | Some (t, _) => Some (hdr_pods ++ w ++ t)
      end
  end.

(** [re.search]: the match at the leftmost position that has one. *)
Fixpoint re_search {A : Type} (m : string -> option A) (s : string) : option A :=
  match m s with
  | Some x => Some x
  | None =>
      match s with
      | EmptyString => None
      | String _ r => re_search m r
      end
  end.

Definition find_num_pods (num_pods : string) (text : string) : string :=
  match re_search match_pods_total text with
  | None => num_pods
  | Some num_pods_line =>
      match re_search match_in_total num_pods_line with
      | None => num_pods
      | Some (_, g1) => g1
      end
  end.

(** The second loop over the lines: the stripped lines inside a
    "Non-terminated Pods:" block, after the two lines that follow its
    header. *)
Fixpoint non_terminated_pods_block
  (in_pods_block : bool) (lines_skipped : Z) (lines : list string)
  : list string :=
  match lines with
  | [] => []
  | line :: rest =>
      if contains hdr_pods line then non_terminated_pods_block true 0 rest
      else
        let in_pods_block :=
          if contains hdr_allocated line then false else in_pods_block in
        if in_pods_block then
          if lines_skipped <? 2
          then non_terminated_pods_block in_pods_block (lines_skipped + 1) rest
          else strip line
                 :: non_terminated_pods_block in_pods_block lines_skipped rest
        else non_terminated_pods_block in_pods_block lines_skipped rest
  end.

(** The row appended for a line of at least nine tokens. *)
Definition pod_row (parts : list string) : result (list string) :=
  let ns_name := nth 0 parts "" in
  let p_name := nth 1 parts "" in
  let p_cpu_req_raw := nth 2 parts "" in
  let p_cpu_limit_raw := nth 4 parts "" in
  let p_mem_req_raw := nth 6 parts "" in
  let p_mem_limit_raw := nth 8 parts "" in
  p_cpu_req_formatted <- format_cpu_m p_cpu_req_raw ;;
  p_cpu_limit_formatted <- format_cpu_m p_cpu_limit_raw ;;
  p_mem_req_formatted <- convert_memory_to_mib p_mem_req_raw ;;
  p_mem_limit_formatted <- convert_memory_to_mib p_mem_limit_raw ;;
  Ok [ns_name; p_name; p_cpu_req_formatted; p_cpu_limit_formatted;
      p_mem_req_formatted; p_mem_limit_formatted].

(** The loop over [non_terminated_pods_block]. *)
Fixpoint pod_details (block : list string) : result (list (list string)) :=
  match block with
  | [] => Ok []
  | pod_line :: rest =>
      match pod_line with
      | EmptyString => pod_details rest
      | _ =>
          let parts := split pod_line in
          if (9 <=? List.length parts)%nat then
            row <- pod_row parts ;;
            rows <- pod_details rest ;;
            Ok (row :: rows)
          else pod_details rest
      end
  end.

Record describe_scan : Type := {
  raw : allocated;
  num_pods : string;
  pod_details_data : list (list string)
}.

(** Lines 248-317: what the function extracts from the text of
    [oc describe node]; the empty text also stands for an absent one. *)
Definition scan_describe (node_describe_output : string) : result describe_scan :=
  match node_describe_output with
  | EmptyString =>
      Ok {| raw := allocated_init; num_pods := "0"; pod_details_data := [] |}
  | _ =>
      let lines := splitlines node_describe_output in
      let a := parse_allocated allocated_init
                 (allocated_resources_block false lines) in
      let n := find_num_pods "0" node_describe_output in
      pods <- pod_details (non_terminated_pods_block false 0 lines) ;;
      Ok {| raw := a; num_pods := n; pod_details_data := pods |}
  end.

(** [get_node_details] after the node document has been fetched: the two
    capacity strings of the document and the text of [oc describe node]. *)
Definition get_node_details
  (cpu_capacity_raw mem_capacity_raw node_describe_output : string)
  : result (list string * list (list string)) :=
  mem_capacity_formatted <- convert_memory_to_gib mem_capacity_raw ;;
  cpu_capacity_formatted <- format_cpu_cores cpu_capacity_raw ;;
  sc <- scan_describe node_describe_output ;;
  mem_req_formatted <- convert_memory_to_gib (mem_req_raw (raw sc)) ;;
  mem_limit_formatted <- convert_memory_to_gib (mem_limit_raw (raw sc)) ;;
  cpu_req_formatted <- format_cpu_cores (cpu_req (raw sc)) ;;
  cpu_limit_formatted <- format_cpu_cores (cpu_limit (raw sc)) ;;
  Ok ([cpu_req_formatted; cpu_limit_formatted;
       mem_req_formatted; mem_limit_formatted;
       cpu_capacity_formatted; mem_capacity_formatted;
       num_pods sc],
      pod_details_data sc).

End Node.

(* ===================================================================== *)
(** * Documents: the values of [json.loads] *)
(* ===================================================================== *)

Module Json.

(** A loaded document.  The entries of a [JDict] are in insertion order and
    have distinct keys. *)
#[warnings="-register-all"]
Inductive json : Type :=
| JNull
| JBool (b : bool)
| JInt (z : Z)
| JFloat (x : Float.float)
| JStr (s : string)
| JList (l : list json)
| JDict (d : list (string * json)).

(** What a function of this layer can raise: an exception of a converter,
    or one of the two that the dynamic typing of a document brings. *)
Inductive error : Type :=
| Conv (e : exn)
| AttributeError
| TypeError.

Inductive outcome (A : Type) : Type :=
| Done (a : A)
| Fail (e : error).

Arguments Done {A} a.
Arguments Fail {A} e.

Definition and_then {A B : Type} (r : outcome A) (k : A -> outcome B)
  : outcome B :=
  match r with
  | Done a => k a
  | Fail e => Fail e
  end.

Notation "x <~ r ;; k" := (and_then r (fun x => k))
  (at level 61, r at next level, right associativity).

Definition lift {A : Type} (r : result A) : outcome A :=
  match r with
  | Ok a => Done a
  | Raise e => Fail (Conv e)
  end.

Fixpoint lookup (key : string) (d : list (string * json)) : option json :=
  match d with
  | [] => None
  | (k, v) :: rest => if String.eqb k key then Some v else lookup key rest
  end.

(** [v.get(key, default)]: only a dict has the method. *)
Definition get (v : json) (key : string) (default : json) : outcome json :=
  match v with
  | JDict d =>
      Done match lookup key d with
           | Some x => x
           | None => default
           end
  | _ => Fail AttributeError
  end.

(** [not v] *)
Definition falsy (v : json) : bool :=
  match v with
  | JNull => true
  | JBool b => negb b
  | JInt z => z =? 0
  | JFloat x => Float.is_zero x
  | JStr s => match s with EmptyString => true | _ => false end
  | JList l => match l with [] => true | _ => false end
  | JDict d => match d with [] => true | _ => false end
  end.

Fixpoint chars (s : string) : list json :=
  match s with
  | EmptyString => []
  | String c r => JStr (String c EmptyString) :: chars r
  end.

(** [for x in v]: the elements of a list, the keys of a dict, the
    characters of a string; nothing else is iterable. *)
Definition iterate (v : json) : outcome (list json) :=
  match v with
  | JList l => Done l
  | JDict d => Done (map (fun kv => JStr (fst kv)) d)
  | JStr s => Done (chars s)
  | _ => Fail TypeError
  end.

(** ** The formatters on a value of a document

    Each formatter starts with [if not value: return ""] (for the memory
    ones, [convert_memory_to_bytes] returns 0 and the caller ""); on
    another value that is not a string, [value.endswith] raises
    [AttributeError] and [re.match] raises [TypeError].  The memory
    formatters are taken with their manual parsing, that is, when the
    [numfmt] command yields no value. *)

Definition format_cpu_cores_value (v : json) : outcome string :=
  if falsy v then Done ""
  else match v with
       | JStr s => lift (format_cpu_cores s)
       | _ => Fail AttributeError
       end.

Definition format_cpu_m_value (v : json) : outcome string :=
  if falsy v then Done ""
  else match v with
       | JStr s => lift (format_cpu_m s)
       | _ => Fail AttributeError
       end.

Definition convert_memory_to_gib_value (v : json) : outcome string :=
  if falsy v then Done ""
  else match v with
       | JStr s => lift (convert_memory_to_gib s)
       | _ => Fail TypeError
       end.

Definition convert_memory_to_mib_value (v : json) : outcome string :=
  if falsy v then Done ""
  else match v with
       | JStr s => lift (convert_memory_to_mib s)
       | _ => Fail TypeError
       end.

Definition empty_dict : json := JDict [].
Definition empty_str : json := JStr "".

(** [format(d.get(key, ''))] for a formatter [format]. *)
Definition formatted (format : json -> outcome string) (d : json) (key : string)
  : outcome json :=
  v <~ get d key empty_str ;;
  s <~ format v ;;
  Done (JStr s).

(** [format(d.get(k1, {}).get(k2, ''))] *)
Definition formatted2 (format : json -> outcome string) (d : json)
  (k1 k2 : string) : outcome json :=
  inner <~ get d k1 empty_dict ;;
  formatted format inner k2.

(** Evaluation of the elements of a list display, left to right. *)
Fixpoint sequence {A : Type} (l : list (outcome A)) : outcome (list A) :=
  match l with
  | [] => Done []
  | r :: rest => a <~ r ;; rs <~ sequence rest ;; Done (a :: rs)
  end.

(** ** [get_workload_resources] *)

(** The body of the loop over the containers. *)
Definition workload_row (namespace workload_type workload_name : string)
  (container : json) : outcome (list json) :=
  container_name <~ get container "name" empty_str ;;
  resources <~ get container "resources" empty_dict ;;
  requests <~ get resources "requests" empty_dict ;;
  limits <~ get resources "limits" empty_dict ;;
  cpu_request <~ formatted format_cpu_m_value requests "cpu" ;;
  memory_request <~ formatted convert_memory_to_mib_value requests "memory" ;;
  cpu_limit <~ formatted format_cpu_m_value limits "cpu" ;;
  memory_limit <~ formatted convert_memory_to_mib_value limits "memory" ;;
  Done [JStr namespace; JStr workload_type; JStr workload_name;
        container_name; cpu_request; memory_request; cpu_limit; memory_limit].

Fixpoint workload_rows (namespace workload_type workload_name : string)
  (containers : list json) : outcome (list (list json)) :=
  match containers with
  | [] => Done []
  | container :: rest =>
      row <~ workload_row namespace workload_type workload_name container ;;
      rows <~ workload_rows namespace workload_type workload_name rest ;;
      Done (row :: rows)
  end.

(** [fetched] is the loaded document, or [None] when the command or
    [json.loads] raised (the [except Exception] branch). *)
Definition get_workload_resources
  (namespace workload_type workload_name : string) (fetched : option json)
  : outcome (list (list json)) :=
  match fetched with
  | None => Done []
  | Some data =>
      spec <~ get data "spec" empty_dict ;;
      template <~ get spec "template" empty_dict ;;
      pod_spec <~ get template "spec" empty_dict ;;
      containers <~ get pod_spec "containers" (JList []) ;;
      items <~ iterate containers ;;
      workload_rows namespace workload_type workload_name items
  end.

(** ** [get_resource_quota_details] *)

Definition get_resource_quota_details (namespace quota_name : string)
  (fetched : option json) : outcome (option (list json)) :=
  match fetched with
  | None => Done None
  | Some data =>
      spec <~ get data "spec" empty_dict ;;
      spec_hard <~ get spec "hard" empty_dict ;;
      status <~ get data "status" empty_dict ;;
      status_used <~ get status "used" empty_dict ;;
      row <~ sequence
        [Done (JStr namespace);
         Done (JStr quota_name);
         get spec_hard "pods" empty_str;
         get status_used "pods" empty_str;
         formatted format_cpu_cores_value spec_hard "requests.cpu";
         formatted format_cpu_cores_value status_used "requests.cpu";
         formatted convert_memory_to_gib_value spec_hard "requests.memory";
         formatted convert_memory_to_gib_value status_used "requests.memory";
         formatted format_cpu_cores_value spec_hard "limits.cpu";
         formatted format_cpu_cores_value status_used "limits.cpu";
         formatted convert_memory_to_gib_value spec_hard "limits.memory";
         formatted convert_memory_to_gib_value status_used "limits.memory";
         get spec_hard "persistentvolumeclaims" empty_str;
         get status_used "persistentvolumeclaims" empty_str;
         formatted convert_memory_to_gib_value spec_hard "requests.storage";
         formatted convert_memory_to_gib_value status_used "requests.storage";
         get spec_hard "configmaps" empty_str;
         get status_used "configmaps" empty_str;
         get spec_hard "secrets" empty_str;
         get status_used "secrets" empty_str;
         get spec_hard "services" empty_str;
         get status_used "services" empty_str] ;;
      Done (Some row)
  end.

(** ** [get_limit_range_details] *)

(** A list or a dict cannot be the key of a dict. *)
Definition hashable (k : json) : bool :=
  match k with
  | JList _ | JDict _ => false
  | _ => true
  end.

(** [limits_map], as the assignments [limits_map[key] = item] in the order
    they were made.  The function only looks up string keys, and no other
    value of a document is equal to a string: a lookup gives the item of
    the latest assignment whose key is that string. *)
Fixpoint build_limits_map (items : list json) : outcome (list (json * json)) :=
  match items with
  | [] => Done []
  | item :: rest =>
      key <~ get item "type" JNull ;;
      if hashable key then
        m <~ build_limits_map rest ;;
        Done ((key, item) :: m)
      else Fail TypeError
  end.

(** The item of the latest assignment whose key is the string [key]. *)
Fixpoint limits_map_find (key : string) (m : list (json * json)) : option json :=
  match m with
  | [] => None
  | (k, item) :: rest =>
      match limits_map_find key rest with
      | Some later => Some later
      | None =>
          match k with
          | JStr s => if String.eqb s key then Some item else None
          | _ => None
          end
      end
  end.

(** [limits_map.get(key, {})] for a string [key]. *)
Definition limits_map_get (key : string) (m : list (json * json)) : json :=
  match limits_map_find key m with
  | Some item => item
  | None => empty_dict
  end.

Definition get_limit_range_details (namespace limitrange_name : string)
  (fetched : option json) : outcome (option (list json)) :=
  match fetched with
  | None => Done None
  | Some data =>
      spec <~ get data "spec" empty_dict ;;
      limits <~ get spec "limits" (JList []) ;;
      items <~ iterate limits ;;
      limits_map <~ build_limits_map items ;;
      let container_limits := limits_map_get "Container" limits_map in
      let pod_limits := limits_map_get "Pod" limits_map in
      let pvc_limits := limits_map_get "PersistentVolumeClaim" limits_map in
      row <~ sequence
        [Done (JStr namespace);
         Done (JStr limitrange_name);
         formatted2 format_cpu_m_value container_limits "defaultRequest" "cpu";
         formatted2 convert_memory_to_mib_value container_limits "defaultRequest" "memory";
         formatted2 format_cpu_m_value container_limits "default" "cpu";
         formatted2 convert_memory_to_mib_value container_limits "default" "memory";
         formatted2 format_cpu_m_value container_limits "max" "cpu";
         formatted2 convert_memory_to_mib_value container_limits "max" "memory";
         formatted2 format_cpu_m_value container_limits "min" "cpu";
         formatted2 convert_memory_to_mib_value container_limits "min" "memory";
         formatted2 format_cpu_m_value pod_limits "max" "cpu";
         formatted2 convert_memory_to_mib_value pod_limits "max" "memory";
         formatted2 format_cpu_m_value pod_limits "min" "cpu";
         formatted2 convert_memory_to_mib_value pod_limits "min" "memory";
         formatted2 format_cpu_m_value pod_limits "defaultRequest" "cpu";
         formatted2 convert_memory_to_mib_value pod_limits "defaultRequest" "memory";
         formatted2 format_cpu_m_value pod_limits "default" "cpu";
         formatted2 convert_memory_to_mib_value pod_limits "default" "memory";
         formatted2 convert_memory_to_mib_value pvc_limits "default" "storage";
         formatted2 convert_memory_to_mib_value pvc_limits "max" "storage"] ;;
      Done (Some row)
  end.

(** ** [get_node_details] from the node document

    The capacity is read from the document; the rest is the scan of the
    text of [oc describe node].  [None] stands for the pair
    [(None, None)] that the function returns when the document could not be
    fetched. *)
Definition get_node_details (fetched : option json)
  (node_describe_output : string)
  : outcome (option (list string * list (list string))) :=
  match fetched with
  | None => Done None
  | Some node_data =>
      status <~ get node_data "status" empty_dict ;;
      capacity <~ get status "capacity" empty_dict ;;
      cpu_capacity_raw <~ get capacity "cpu" empty_str ;;
      status' <~ get node_data "status" empty_dict ;;
      capacity' <~ get status' "capacity" empty_dict ;;
      mem_capacity_raw <~ get capacity' "memory" empty_str ;;
      mem_capacity_formatted <~ convert_memory_to_gib_value mem_capacity_raw ;;
      cpu_capacity_formatted <~ format_cpu_cores_value cpu_capacity_raw ;;
      sc <~ lift (Node.scan_describe node_describe_output) ;;
      mem_req_formatted <~
        lift (convert_memory_to_gib (Node.mem_req_raw (Node.raw sc))) ;;
      mem_limit_formatted <~
        lift (convert_memory_to_gib (Node.mem_limit_raw (Node.raw sc))) ;;
      cpu_req_formatted <~
        lift (format_cpu_cores (Node.cpu_req (Node.raw sc))) ;;
      cpu_limit_formatted <~
        lift (format_cpu_cores (Node.cpu_limit (Node.raw sc))) ;;
      Done (Some ([cpu_req_formatted; cpu_limit_formatted;
                   mem_req_formatted; mem_limit_formatted;
                   cpu_capacity_formatted; mem_capacity_formatted;
                   Node.num_pods sc],
                  Node.pod_details_data sc))
  end.

End Json.

(* ===================================================================== *)
(** * The headers that [main] writes above the rows *)
(* ===================================================================== *)

Module Main.

Definition workload_csv_header : list string :=
  ["Namespace"; "WorkloadType"; "WorkloadName"; "ContainerName";
   "CpuRequest (m)"; "MemoryRequest (Mi)"; "CpuLimit (m)"; "MemoryLimit (Mi)"].

Definition quota_csv_header : list string :=
  ["Namespace"; "QuotaName"; "PodsHard"; "PodsUsed";
   "RequestsCpuHard (cores)"; "RequestsCpuUsed (cores)";
   "RequestsMemoryHard (Gi)"; "RequestsMemoryUsed (Gi)";
   "LimitsCpuHard (cores)"; "LimitsCpuUsed (cores)";
   "LimitsMemoryHard (Gi)"; "LimitsMemoryUsed (Gi)";
   "PvcsHard"; "PvcsUsed"; "RequestsStorageHard (Gi)";
   "RequestsStorageUsed (Gi)"; "ConfigMapsHard"; "ConfigMapsUsed";
   "SecretsHard"; "SecretsUsed"; "ServicesHard"; "ServicesUsed"].

Definition limitrange_csv_header : list string :=
  ["Namespace"; "LimitRangeName"; "ContainerDefaultCpuRequest (m)";
   "ContainerDefaultMemoryRequest (Mi)";
   "ContainerDefaultCpuLimit (m)"; "ContainerDefaultMemoryLimit (Mi)";
   "ContainerMaxCpu (m)"; "ContainerMaxMemory (Mi)";
   "ContainerMinCpu (m)"; "ContainerMinMemory (Mi)";
   "PodMaxCpu (m)"; "PodMaxMemory (Mi)";
   "PodMinCpu (m)"; "PodMinMemory (Mi)";
   "PodDefaultCpuRequest (m)"; "PodDefaultMemoryRequest (Mi)";
   "PodDefaultCpuLimit (m)"; "PodDefaultMemoryLimit (Mi)";
   "PvcDefaultStorage (Mi)"; "PvcMaxStorage (Mi)"].

Definition node_summary_csv_header : list string :=
  ["CpuRequest (cores)"; "CpuLimit (cores)"; "MemoryRequest (Gi)";
   "MemoryLimit (Gi)"; "CpuCapacity (cores)"; "MemoryCapacity (Gi)";
   "PodsCount"].

Definition pod_details_csv_header : list string :=
  ["Namespace"; "PodName"; "CpuRequest (m)"; "CpuLimit (m)";
   "MemRequest (Mi)"; "MemLimit (Mi)"].

End Main.

(* ===================================================================== *)
(** * Sample inputs *)
(* ===================================================================== *)

Module Samples.

Definition nl : string := String "010" EmptyString.

Definition unlines (ls : list string) : string :=
  fold_right (fun l acc => l ++ nl ++ acc) EmptyString ls.

Definition pods_header_row : string :=
  "  Namespace  Name  CPU Requests  CPU Limits  Memory Requests  Memory Limits  Age".
Definition pods_dashes_row : string :=
  "  ---------  ----  ------------  ----------  ---------------  -------------  ---".

(** A pod row whose memory request has two decimal points. *)
Definition text_two_dots : string :=
  unlines
    ["Non-terminated Pods:          (1 in total)";
     pods_header_row;
     pods_dashes_row;
     "  default    web-1   100m (2%)   200m (5%)   1.2.3 (0%)   256Mi (1%)   3d"].

(** Two "Non-terminated Pods:" sections, one row each. *)
Definition pods_first : list string :=
  ["Non-terminated Pods:          (1 in total)";
   pods_header_row;
   pods_dashes_row;
   "  default    web-1   100m (2%)   200m (5%)   0 (0%)   0 (0%)   3d"].

Definition pods_second : list string :=
  ["Non-terminated Pods:          (1 in total)";
   pods_header_row;
   pods_dashes_row;
   "  kube-system dns-1   250m (6%)   500m (12%)   0 (0%)   0 (0%)   3d"].

(** A section with a six-token line and a blank line between two
    well-formed rows. *)
Definition pods_mixed : list string :=
  ["  default    web-1   100m (2%)   0.5 (12%)   128Mi (0%)   1Gi (6%)   3d";
   "  kube  short 1 2 3 4";
   "";
   "  kube-system dns-1   250m (6%)   500m (12%)   0 (0%)   0 (0%)   3d"].

Definition allocated_first : list string :=
  ["Allocated resources:";
   "  Resource           Requests         Limits";
   "  cpu                1895m (54%)      3 (85%)";
   "  memory             8380Mi (56%)     10Gi (70%)"].

(** A well-formed row followed by a row whose memory request has two
    decimal points. *)
Definition pods_good_then_bad : list string :=
  ["Non-terminated Pods:          (2 in total)";
   pods_header_row;
   pods_dashes_row;
   "  default    web-1   100m (2%)   200m (5%)   0 (0%)   0 (0%)   3d";
   "  default    web-2   100m (2%)   200m (5%)   1.2.3 (0%)   0 (0%)   3d"].

(** A second "Allocated resources:" section without a cpu line. *)
Definition allocated_second : list string :=
  ["Allocated resources:";
   "  memory             1Gi (6%)     2Gi (14%)";
   "Events:              <none>"].

End Samples.

(* ===================================================================== *)
(** * The specification's view of a pod-detail row *)
(* ===================================================================== *)

Module RowSpec.

(** A line is accepted when it has at least nine whitespace tokens; the row
    is built from tokens 0, 1, 2, 4, 6 and 8. *)
Definition accepted_tokens (line : string) : option (list string) :=
  let parts := split line in
  if (9 <=? List.length parts)%nat then
    Some [nth 0 parts ""; nth 1 parts ""; nth 2 parts "";
          nth 4 parts ""; nth 6 parts ""; nth 8 parts ""]
  else None.

(** Namespace and pod name as they are; CPU in millicores, memory in MiB. *)
Definition format_tokens (t : list string) : result (list string) :=
  match t with
  | [ns; p; cpu_r; cpu_l; mem_r; mem_l] =>
      a <- format_cpu_m cpu_r ;;
      b <- format_cpu_m cpu_l ;;
      c <- convert_memory_to_mib mem_r ;;
      d <- convert_memory_to_mib mem_l ;;
      Ok [ns; p; a; b; c; d]
  | _ => Ok t
  end.

Fixpoint filter_map {A B : Type} (f : A -> option B) (l : list A) : list B :=
  match l with
  | [] => []
  | x :: r =>
      match f x with
      | Some y => y :: filter_map f r
      | None => filter_map f r
      end
  end.

Definition has_cpu_line (block : list string) : bool :=
  existsb (fun l => mem "cpu" (split l)) block.

Definition has_memory_line (block : list string) : bool :=
  existsb (fun l => negb (mem "cpu" (split l)) && mem "memory" (split l)) block.

End RowSpec.

(* ===================================================================== *)
(** * Definitions used in the statements *)
(* ===================================================================== *)

Module Aux.

(** The first character of [s], if any, does not satisfy [p]. *)
Definition stops (p : ascii -> bool) (s : string) : Prop :=
  match s with
  | EmptyString => True
  | String c _ => p c = false
  end.

(** [k] has a significand of at most 53 bits: k = m * 2^t, m <= 2^53. *)
Definition representable (k : Z) : Prop :=
  exists m t : Z, 0 <= t /\ 0 <= m <= 2 ^ 53 /\ k = m * 2 ^ t.

(** [k * 2^-1074] is the magnitude of a finite binary64 value. *)
Definition finite_magnitude (k : Z) : Prop :=
  representable k /\ k < Float.overflow_threshold.

(** A float that is not negative and not a NaN. *)
Definition nonneg_float (x : Float.float) : Prop :=
  x = Float.Inf false
  \/ exists k, x = Float.Fin false k /\ finite_magnitude k.

(** The unit dispatch of [convert_memory_to_bytes], for the number [num] and
    the second group [g2] of the match. *)
Definition bytes_of_float (num : Float.float) (g2 : string) : result Z :=
  let suffix := lower g2 in
  if mem suffix ["ki"; "k"; "kib"] then
    Float.to_int (Float.mul num f1024)
  else if mem suffix ["mi"; "m"; "mib"] then
    Float.to_int (Float.mul (Float.mul num f1024) f1024)
  else if mem suffix ["gi"; "g"; "gib"] then
    Float.to_int (Float.mul (Float.mul (Float.mul num f1024) f1024) f1024)
  else if mem suffix ["ti"; "t"; "tib"] then
    Float.to_int
      (Float.mul (Float.mul (Float.mul (Float.mul num f1024) f1024) f1024) f1024)
  else Float.to_int num.

(** The twelve suffixes with a binary multiplier 1024^p, as the regular
    expression spells them. *)
Definition binary_suffixes : list (string * Z) :=
  [("Ki", 1); ("K", 1); ("KiB", 1);
   ("Mi", 2); ("M", 2); ("MiB", 2);
   ("Gi", 3); ("G", 3); ("GiB", 3);
   ("Ti", 4); ("T", 4); ("TiB", 4)].

(** The same suffixes in lower case. *)
Definition lower_case_suffixes : list string :=
  map (fun up => lower (fst up)) binary_suffixes.

(** The other suffixes that the regular expression accepts. *)
Definition unlisted_suffixes : list string :=
  ["KB"; "MB"; "GB"; "TB";
   "P"; "Pi"; "PB"; "PiB"; "E"; "Ei"; "EB"; "EiB";
   "Z"; "Zi"; "ZB"; "ZiB"; "Y"; "Yi"; "YB"; "YiB"].

(** The characters that can occur in a text that [float] accepts. *)
Definition float_char (c : ascii) : bool :=
  is_digit c
  || existsb (Ascii.eqb c) ["."; "e"; "E"; "+"; "-"; "_"]%char
  || Str.isspace c
  || existsb (Ascii.eqb (lower_char c)) ["i"; "n"; "f"; "t"; "y"; "a"]%char.

End Aux.

Import Str Float Aux.

(* ===================================================================== *)
(** * Rounding to the nearest integer and spacing of binary64 values *)
(* ===================================================================== *)

Lemma div_eucl_div_mod (a b : Z) : Z.div_eucl a b = (a / b, a mod b).
Proof. unfold Z.div, Z.modulo. destruct (Z.div_eucl a b). reflexivity. Qed.

Lemma div_rne_spec (a b : Z) :
  0 <= a -> 0 < b ->
  0 <= div_rne a b /\ 2 * Z.abs (div_rne a b * b - a) <= b.
Proof.
  intros Ha Hb. unfold div_rne. rewrite div_eucl_div_mod.
  pose proof (Z.div_mod a b ltac:(lia)) as Hdm.
  pose proof (Z.mod_pos_bound a b Hb) as Hm.
  pose proof (Z.div_pos a b Ha Hb) as Hq.
  destruct (2 * (a mod b) <? b) eqn:E1; [apply Z.ltb_lt in E1; nia|].
  apply Z.ltb_ge in E1.
  destruct (b <? 2 * (a mod b)) eqn:E2; [apply Z.ltb_lt in E2; nia|].
  apply Z.ltb_ge in E2.
  destruct (Z.even (a / b)); nia.
Qed.

Lemma div_rne_exact (c b : Z) : 0 < b -> div_rne (c * b) b = c.
Proof.
  intros Hb. unfold div_rne. rewrite div_eucl_div_mod.
  rewrite Z.div_mul, Z.mod_mul by lia.
  replace (2 * 0 <? b) with true by (symmetry; apply Z.ltb_lt; lia).
  reflexivity.
Qed.

Lemma spacing_exponent_spec (x d : Z) :
  0 < x -> 0 < d ->
  0 <= spacing_exponent x d
  /\ x < 2 ^ 53 * (d * 2 ^ spacing_exponent x d)
  /\ (spacing_exponent x d = 0 \/ 2 ^ 52 * (d * 2 ^ spacing_exponent x d) <= x).
Proof.
  intros Hx Hd. unfold spacing_exponent.
  pose proof (Z.log2_spec x Hx) as [Hx1 Hx2].
  pose proof (Z.log2_spec d Hd) as [Hd1 Hd2].
  pose proof (Z.log2_nonneg x) as Ha. pose proof (Z.log2_nonneg d) as Hb.
  set (a := Z.log2 x) in *. set (b := Z.log2 d) in *.
  unfold Z.succ in *.
  assert (E53 : 2 ^ 53 = 2 * 2 ^ 52) by reflexivity.
  assert (H52 : 0 < 2 ^ 52) by reflexivity.
  destruct (Z.max_spec 0 (a - b - 52)) as [[Hlt Hmax]|[Hge Hmax]]; rewrite Hmax.
  - (* t1 = a - b - 52 > 0 *)
    set (t1 := a - b - 52) in *.
    assert (Ea : 2 ^ a = 2 ^ 52 * (2 ^ b * 2 ^ t1)).
    { rewrite <- !Z.pow_add_r by lia. f_equal. lia. }
    assert (Ea1 : 2 ^ (a + 1) = 2 ^ 53 * (2 ^ b * 2 ^ t1)).
    { rewrite <- !Z.pow_add_r by lia. f_equal. lia. }
    assert (Eb1 : 2 ^ (b + 1) = 2 * 2 ^ b).
    { rewrite Z.pow_add_r by lia. lia. }
    assert (Et : 2 ^ t1 = 2 * 2 ^ (t1 - 1)).
    { replace t1 with ((t1 - 1) + 1) at 1 by lia.
      rewrite Z.pow_add_r by lia. lia. }
    assert (Hp : 0 < 2 ^ (t1 - 1)) by (apply Z.pow_pos_nonneg; lia).
    assert (Hpb : 0 < 2 ^ b) by (apply Z.pow_pos_nonneg; lia).
    destruct (x <? 2 ^ 52 * (d * 2 ^ t1)) eqn:E.
    + apply Z.ltb_lt in E. rewrite Z.max_r by lia.
      split; [lia|].
      set (Q := 2 ^ (t1 - 1)) in *. set (P := 2 ^ t1) in *.
      set (B := 2 ^ b) in *. set (A := 2 ^ 52) in *.
      split; [nia|]. right. nia.
    + apply Z.ltb_ge in E.
      split; [lia|].
      set (P := 2 ^ t1) in *. set (B := 2 ^ b) in *. set (A := 2 ^ 52) in *.
      split; [nia|]. right. exact E.
  - (* t1 = 0 *)
    assert (E0 : (if x <? 2 ^ 52 * (d * 2 ^ 0) then Z.max 0 (0 - 1) else 0) = 0).
    { destruct (x <? 2 ^ 52 * (d * 2 ^ 0)); reflexivity. }
    rewrite E0. split; [lia|]. split; [|left; reflexivity].
    assert (2 ^ (a + 1) <= 2 ^ (b + 53)) by (apply Z.pow_le_mono_r; lia).
    assert (2 ^ (b + 53) = 2 ^ 53 * 2 ^ b).
    { rewrite Z.pow_add_r by lia. lia. }
    change (2 ^ 0) with 1. set (A := 2 ^ 53) in *. nia.
Qed.

(* ===================================================================== *)
(** * Correct rounding: range, exactness and error *)
(* ===================================================================== *)

Lemma unit_pos : 0 < one.
Proof. reflexivity. Qed.

Lemma representable_nonneg (k : Z) : representable k -> 0 <= k.
Proof.
  intros (m & t & Ht & Hm & ->).
  assert (0 < 2 ^ t) by (apply Z.pow_pos_nonneg; lia). nia.
Qed.

Lemma round_ratio_zero (s : bool) (d : Z) : round_ratio s 0 d = Fin s 0.
Proof. reflexivity. Qed.

Lemma round_ratio_cases (s : bool) (n d : Z) :
  0 <= n -> 0 < d ->
  round_ratio s n d = Inf s
  \/ exists k, round_ratio s n d = Fin s k /\ finite_magnitude k.
Proof.
  intros Hn Hd. unfold round_ratio.
  destruct (n =? 0) eqn:En.
  - right. exists 0. split; [reflexivity|]. split; [|reflexivity].
    exists 0, 0. cbn. lia.
  - apply Z.eqb_neq in En.
    assert (Hx : 0 < n * one) by (pose proof unit_pos; nia).
    pose proof (spacing_exponent_spec (n * one) d Hx Hd) as (Ht & Hub & _).
    set (t := spacing_exponent (n * one) d) in *.
    assert (Hp : 0 < 2 ^ t) by (apply Z.pow_pos_nonneg; lia).
    assert (HB : 0 < d * 2 ^ t) by nia.
    pose proof (div_rne_spec (n * one) (d * 2 ^ t) ltac:(lia) HB) as [Hm0 Hm].
    set (m := div_rne (n * one) (d * 2 ^ t)) in *.
    destruct (overflow_threshold <=? m * 2 ^ t) eqn:Eo; [left; reflexivity|].
    apply Z.leb_gt in Eo. right. exists (m * 2 ^ t).
    split; [reflexivity|]. split; [|exact Eo].
    exists m, t. split; [exact Ht|]. split; [|reflexivity].
    split; [exact Hm0|].
    set (B := d * 2 ^ t) in *. set (x := n * one) in *.
    assert (2 * (m * B) <= 2 * x + B) by lia.
    assert (2 ^ 53 = 9007199254740992) by reflexivity.
    nia.
Qed.

Lemma representable_multiple (k t : Z) :
  representable k -> 0 <= t ->
  t = 0 \/ 2 ^ 52 * 2 ^ t <= k ->
  exists c, k = c * 2 ^ t.
Proof.
  intros (m & u & Hu & Hm & ->) Ht [->|Hk].
  - exists (m * 2 ^ u). change (2 ^ 0) with 1. lia.
  - destruct (Z_le_gt_dec t u) as [Htu|Htu].
    + exists (m * 2 ^ (u - t)). rewrite <- Z.mul_assoc, <- Z.pow_add_r by lia.
      do 2 f_equal. lia.
    + assert (Hpu : 0 < 2 ^ u) by (apply Z.pow_pos_nonneg; lia).
      assert (Et : 2 ^ t = 2 ^ u * 2 ^ (t - u)).
      { rewrite <- Z.pow_add_r by lia. f_equal. lia. }
      assert (Hge : 2 ^ 1 <= 2 ^ (t - u)) by (apply Z.pow_le_mono_r; lia).
      change (2 ^ 1) with 2 in Hge.
      assert (E53 : 2 ^ 53 = 2 * 2 ^ 52) by reflexivity.
      assert (H52 : 0 < 2 ^ 52) by reflexivity.
      set (P := 2 ^ u) in *. set (Q := 2 ^ (t - u)) in *.
      set (A := 2 ^ 52) in *.
      rewrite Et in Hk.
      assert (HQ : Q = 2) by nia.
      assert (Hm' : m = 2 * A) by nia.
      exists A. rewrite Et, HQ, Hm'. lia.
Qed.

Lemma round_ratio_exact (s : bool) (n d K : Z) :
  0 <= n -> 0 < d -> finite_magnitude K -> n * one = K * d ->
  round_ratio s n d = Fin s K.
Proof.
  intros Hn Hd [HK Hov] E. unfold round_ratio.
  pose proof unit_pos as Hu.
  destruct (n =? 0) eqn:En.
  - apply Z.eqb_eq in En. subst n. f_equal. nia.
  - apply Z.eqb_neq in En.
    assert (Hx : 0 < n * one) by nia.
    pose proof (spacing_exponent_spec (n * one) d Hx Hd) as (Ht & _ & Hlb).
    set (t := spacing_exponent (n * one) d) in *.
    assert (Hp : 0 < 2 ^ t) by (apply Z.pow_pos_nonneg; lia).
    destruct (representable_multiple K t HK Ht) as [c Hc].
    { destruct Hlb as [H0|Hlb]; [left; exact H0|right].
      rewrite E in Hlb. nia. }
    replace (n * one) with (c * (d * 2 ^ t)) by (rewrite E, Hc; ring).
    rewrite div_rne_exact by nia. rewrite <- Hc.
    destruct (overflow_threshold <=? K) eqn:Eo; [apply Z.leb_le in Eo; lia|].
    reflexivity.
Qed.

Lemma round_ratio_error (s : bool) (n d k : Z) :
  0 < n -> 0 < d -> 2 ^ 52 * d <= n * one ->
  round_ratio s n d = Fin s k ->
  2 ^ 53 * Z.abs (k * d - n * one) <= n * one.
Proof.
  intros Hn Hd Hnorm. unfold round_ratio.
  destruct (n =? 0) eqn:En; [apply Z.eqb_eq in En; lia|].
  pose proof unit_pos as Hu.
  assert (Hx : 0 < n * one) by nia.
  pose proof (spacing_exponent_spec (n * one) d Hx Hd) as (Ht & _ & Hlb).
  set (t := spacing_exponent (n * one) d) in *.
  assert (Hp : 0 < 2 ^ t) by (apply Z.pow_pos_nonneg; lia).
  assert (HB : 0 < d * 2 ^ t) by nia.
  pose proof (div_rne_spec (n * one) (d * 2 ^ t) ltac:(lia) HB) as [Hm0 Hm].
  set (m := div_rne (n * one) (d * 2 ^ t)) in *.
  destruct (overflow_threshold <=? m * 2 ^ t); [discriminate|].
  intros [= <-].
  replace (m * 2 ^ t * d) with (m * (d * 2 ^ t)) by ring.
  set (x := n * one) in *.
  assert (E53 : 2 ^ 53 = 2 * 2 ^ 52) by reflexivity.
  assert (H52 : 0 < 2 ^ 52) by reflexivity.
  set (A := 2 ^ 52) in *. rewrite E53.
  destruct Hlb as [H0|Hlb].
  - rewrite H0 in *. change (2 ^ 0) with 1 in *. rewrite Z.mul_1_r in *. nia.
  - set (B := d * 2 ^ t) in *. nia.
Qed.

Lemma f1024_eq : f1024 = Fin false (1024 * one).
Proof. vm_compute. reflexivity. Qed.

Lemma finite_magnitude_scale (k j : Z) :
  finite_magnitude k -> 0 <= j -> k * 2 ^ j < overflow_threshold ->
  finite_magnitude (k * 2 ^ j).
Proof.
  intros [(m & t & Ht & Hm & ->) _] Hj Hov. split; [|exact Hov].
  exists m, (t + j). split; [lia|]. split; [exact Hm|].
  rewrite Z.pow_add_r by lia. ring.
Qed.

Lemma mul_1024_exact (s : bool) (k : Z) :
  finite_magnitude k -> k * 1024 < overflow_threshold ->
  mul (Fin s k) f1024 = Fin s (k * 1024).
Proof.
  intros Hk Hov. rewrite f1024_eq. cbn [mul]. rewrite xorb_false_r.
  apply round_ratio_exact.
  - pose proof (representable_nonneg k (proj1 Hk)). pose proof unit_pos. nia.
  - pose proof unit_pos. nia.
  - apply (finite_magnitude_scale k 10 Hk); [lia|exact Hov].
  - ring.
Qed.

(* ===================================================================== *)
(** * Strings and character classes *)
(* ===================================================================== *)

Ltac ascii_cases c :=
  destruct c as [[|] [|] [|] [|] [|] [|] [|] [|]].

Lemma append_nil_r (s : string) : s ++ "" = s.
Proof. induction s; simpl; congruence. Qed.

Lemma append_assoc (a b c : string) : (a ++ b) ++ c = a ++ (b ++ c).
Proof. induction a; simpl; congruence. Qed.

Lemma all_chars_app (p : ascii -> bool) (a b : string) :
  all_chars p (a ++ b) = all_chars p a && all_chars p b.
Proof.
  induction a as [|c a IH]; simpl; [reflexivity|].
  rewrite IH. apply andb_assoc.
Qed.

Lemma all_chars_impl (p q : ascii -> bool) (s : string) :
  (forall c, p c = true -> q c = true) ->
  all_chars p s = true -> all_chars q s = true.
Proof.
  intros Hpq. induction s as [|c s IH]; simpl; [reflexivity|].
  intros H. apply andb_true_iff in H as [Hc Hs].
  rewrite (Hpq c Hc), (IH Hs). reflexivity.
Qed.

Lemma span_app (p : ascii -> bool) (a r : string) :
  all_chars p a = true -> stops p r -> span p (a ++ r) = (a, r).
Proof.
  intros Ha Hr. induction a as [|c a IH]; simpl in *.
  - destruct r as [|c r]; [reflexivity|]. simpl. rewrite Hr. reflexivity.
  - apply andb_true_iff in Ha as [Hc Ha]. rewrite Hc, (IH Ha). reflexivity.
Qed.

Lemma span_spec (p : ascii -> bool) (s a b : string) :
  span p s = (a, b) -> s = a ++ b /\ all_chars p a = true /\ stops p b.
Proof.
  revert a b. induction s as [|c s IH]; simpl; intros a b.
  - intros [= <- <-]. repeat split.
  - destruct (p c) eqn:Hc.
    + destruct (span p s) as [a' b'] eqn:E. intros [= <- <-].
      destruct (IH a' b' eq_refl) as (-> & Ha & Hb).
      simpl. rewrite Hc, Ha. repeat split. exact Hb.
    + intros [= <- <-]. simpl. repeat split. exact Hc.
Qed.

Lemma drop_while_stops (q : ascii -> bool) (s : string) :
  stops q s -> drop_while q s = s.
Proof.
  destruct s as [|c s]; simpl; [reflexivity|]. intros ->. reflexivity.
Qed.

Lemma rstrip_with_none (q : ascii -> bool) (s : string) :
  all_chars (fun c => negb (q c)) s = true -> rstrip_with q s = s.
Proof.
  induction s as [|c s IH]; simpl; [reflexivity|].
  intros H. apply andb_true_iff in H as [Hc Hs]. rewrite (IH Hs).
  apply negb_true_iff in Hc. rewrite Hc. destruct s; reflexivity.
Qed.

Lemma all_chars_stops (p q : ascii -> bool) (s : string) :
  (forall c, p c = true -> q c = false) ->
  all_chars p s = true -> stops q s.
Proof.
  intros Hpq. destruct s as [|c s]; simpl; [easy|].
  intros H. apply andb_true_iff in H as [Hc _]. apply Hpq, Hc.
Qed.

(** ** Character classes *)

Lemma is_digit_num_char (c : ascii) : is_digit c = true -> is_num_char c = true.
Proof. unfold is_num_char. intros ->. reflexivity. Qed.

Lemma num_char_facts (c : ascii) :
  is_num_char c = true ->
  (Str.code c <? 128) = true
  /\ Ascii.eqb c "_" = false
  /\ Float.is_c_space c = false
  /\ is_unit_letter c = false
  /\ Float.parse_sign (String c "") = (false, String c "")
  /\ (is_digit c = false -> c = "."%char).
Proof.
  intros H. ascii_cases c; vm_compute in H; try discriminate H;
    vm_compute; repeat split; intros; try reflexivity; discriminate.
Qed.

Lemma digit_val_bound (c : ascii) :
  is_digit c = true -> 0 <= digit_val c <= 9.
Proof.
  unfold is_digit, digit_val. intros H.
  apply andb_true_iff in H as [H1 H2].
  apply Z.leb_le in H1. apply Z.leb_le in H2. lia.
Qed.

Lemma digits_val_nonneg (s : string) :
  all_chars is_digit s = true -> forall acc, 0 <= acc -> 0 <= digits_val acc s.
Proof.
  induction s as [|c s IH]; cbn [digits_val all_chars]; intros H acc Hacc;
    [exact Hacc|].
  apply andb_true_iff in H as [Hc Hs].
  apply (IH Hs). pose proof (digit_val_bound c Hc). lia.
Qed.

(* ===================================================================== *)
(** * Reading a float from digits and dots *)
(* ===================================================================== *)

Lemma span_all (p : ascii -> bool) (a : string) :
  all_chars p a = true -> span p a = (a, "").
Proof.
  intros H. rewrite <- (append_nil_r a) at 1. apply span_app; easy.
Qed.

Lemma transform_ascii (s : string) :
  all_chars (fun c => Str.code c <? 128) s = true -> transform s = s.
Proof. unfold transform. intros ->. reflexivity. Qed.

Lemma remove_underscores_plain (s : string) :
  all_chars (fun c => negb (Ascii.eqb c "_")) s = true ->
  forall prev, prev_is (Ascii.eqb "_") prev = false ->
  remove_underscores prev s = Some s.
Proof.
  induction s as [|c s IH]; cbn [all_chars remove_underscores];
    intros H prev Hprev.
  - rewrite Hprev. reflexivity.
  - apply andb_true_iff in H as [Hc Hs]. apply negb_true_iff in Hc.
    rewrite Hc, Hprev. cbn [andb].
    rewrite (IH Hs); [reflexivity|].
    cbn [prev_is]. rewrite Ascii.eqb_sym. exact Hc.
Qed.

Lemma parse_sign_num_char (c : ascii) (r : string) :
  is_num_char c = true -> parse_sign (String c r) = (false, String c r).
Proof.
  intros H. ascii_cases c; vm_compute in H; try discriminate H; reflexivity.
Qed.

Lemma parse_inf_or_nan_num_char (c : ascii) (r : string) :
  is_num_char c = true -> parse_inf_or_nan (String c r) = None.
Proof.
  intros H. ascii_cases c; vm_compute in H; try discriminate H; reflexivity.
Qed.

(** On a string of digits and dots, [float] is the decimal parser alone. *)
Lemma of_string_plain (s : string) :
  all_chars is_num_char s = true ->
  of_string s
  = match parse_stripped s with Some x => Ok x | None => Raise ValueError end.
Proof.
  intros H. unfold of_string.
  rewrite transform_ascii
    by (revert H; apply all_chars_impl; intros c Hc;
        apply (num_char_facts c Hc)).
  rewrite remove_underscores_plain; [|
    revert H; apply all_chars_impl; intros c Hc;
    apply negb_true_iff, (num_char_facts c Hc) | reflexivity].
  rewrite drop_while_stops
    by (revert H; apply all_chars_stops; intros c Hc;
        apply (num_char_facts c Hc)).
  rewrite rstrip_with_none; [reflexivity|].
  revert H; apply all_chars_impl; intros c Hc.
  apply negb_true_iff, (num_char_facts c Hc).
Qed.

Lemma parse_fraction_digits (s fp s3 : string) :
  parse_fraction s = (fp, s3) -> all_chars is_digit fp = true.
Proof.
  unfold parse_fraction. destruct s as [|c r]; [intros [= <- <-]; reflexivity|].
  destruct (Ascii.eqb c ".").
  - intros Hs. apply span_spec in Hs. tauto.
  - intros [= <- <-]. reflexivity.
Qed.

Lemma parse_decimal_some (s : string) (x : float) :
  parse_decimal s = Some x ->
  exists n j : Z, 0 <= n /\ x = of_decimal (fst (parse_sign s)) n j.
Proof.
  unfold parse_decimal.
  destruct (parse_sign s) as [neg s1].
  destruct (span is_digit s1) as [ip s2] eqn:Eip.
  destruct (parse_fraction s2) as [fp s3] eqn:Efp.
  assert (Hd : all_chars is_digit (ip ++ fp) = true).
  { rewrite all_chars_app. apply span_spec in Eip as (_ & -> & _).
    rewrite (parse_fraction_digits _ _ _ Efp). reflexivity. }
  destruct (ip ++ fp) as [|c ds] eqn:Eds; [discriminate|].
  destruct (parse_exponent s3) as [ex s4].
  destruct s4; [|discriminate].
  intros [= <-]. eexists _, _. split; [|reflexivity].
  apply (digits_val_nonneg (String c ds) Hd 0). lia.
Qed.

Lemma of_decimal_cases (neg : bool) (n j : Z) :
  0 <= n ->
  of_decimal neg n j = Inf neg
  \/ exists k, of_decimal neg n j = Fin neg k /\ finite_magnitude k.
Proof.
  intros Hn. unfold of_decimal. destruct (0 <=? j) eqn:Ej.
  - apply Z.leb_le in Ej. apply round_ratio_cases; [|lia].
    assert (0 < 10 ^ j) by (apply Z.pow_pos_nonneg; lia). nia.
  - apply Z.leb_gt in Ej. apply round_ratio_cases; [exact Hn|].
    apply Z.pow_pos_nonneg; lia.
Qed.

(** Every finite value that [float] returns is a binary64 magnitude. *)
Lemma of_string_finite (s : string) (sg : bool) (k : Z) :
  of_string s = Ok (Fin sg k) -> finite_magnitude k.
Proof.
  unfold of_string.
  destruct (remove_underscores None (transform s)) as [t|]; [|discriminate].
  generalize (rstrip_with is_c_space (drop_while is_c_space t)). intros u.
  unfold parse_stripped.
  destruct (parse_decimal u) as [x|] eqn:Ed.
  - intros [= ->]. apply parse_decimal_some in Ed as (n & j & Hn & E).
    destruct (of_decimal_cases (fst (parse_sign u)) n j Hn) as [E'|(k' & E' & Hk)];
      rewrite E' in E; [discriminate|]. injection E as _ ->. exact Hk.
  - unfold parse_inf_or_nan. destruct (parse_sign u) as [neg r].
    destruct (String.eqb (lower r) "inf" || String.eqb (lower r) "infinity");
      [discriminate|].
    destruct (String.eqb (lower r) "nan"); discriminate.
Qed.

(** On digits and dots the value is not negative, and not a NaN. *)
Lemma of_string_num_chars (s : string) (x : float) :
  all_chars is_num_char s = true -> of_string s = Ok x ->
  x = Inf false \/ exists k, x = Fin false k /\ finite_magnitude k.
Proof.
  intros H. rewrite (of_string_plain s H). unfold parse_stripped.
  destruct s as [|c r]; [discriminate|].
  cbn [all_chars] in H. apply andb_true_iff in H as [Hc _].
  rewrite (parse_inf_or_nan_num_char c r Hc).
  destruct (parse_decimal (String c r)) as [y|] eqn:Ed; [|discriminate].
  intros [= <-]. apply parse_decimal_some in Ed as (n & j & Hn & ->).
  rewrite (parse_sign_num_char c r Hc). cbn [fst].
  apply of_decimal_cases, Hn.
Qed.

Lemma parse_decimal_fixed (ip fp : string) :
  ip <> "" -> all_chars is_digit ip = true -> all_chars is_digit fp = true ->
  parse_decimal (ip ++ "." ++ fp)
  = Some (of_decimal false (digits_val 0 (ip ++ fp))
            (0 - Z.of_nat (String.length fp))).
Proof.
  intros Hne Hip Hfp. destruct ip as [|c ip]; [congruence|].
  unfold parse_decimal.
  cbn [all_chars] in Hip. pose proof Hip as Hip'.
  apply andb_true_iff in Hip' as [Hc _].
  change (String c ip ++ "." ++ fp) with (String c (ip ++ "." ++ fp)).
  rewrite (parse_sign_num_char c _ (is_digit_num_char c Hc)).
  change (String c (ip ++ "." ++ fp)) with (String c ip ++ String "." fp).
  rewrite (span_app is_digit (String c ip) (String "." fp) Hip eq_refl).
  cbn [parse_fraction]. rewrite (span_all is_digit fp Hfp).
  cbn [append]. reflexivity.
Qed.

Lemma parse_decimal_integer (ip : string) :
  ip <> "" -> all_chars is_digit ip = true ->
  parse_decimal ip = Some (of_decimal false (digits_val 0 ip) 0).
Proof.
  intros Hne Hip. destruct ip as [|c ip]; [congruence|].
  unfold parse_decimal.
  cbn [all_chars] in Hip. pose proof Hip as Hip'.
  apply andb_true_iff in Hip' as [Hc _].
  rewrite (parse_sign_num_char c _ (is_digit_num_char c Hc)).
  rewrite (span_all is_digit (String c ip) Hip).
  cbn [parse_fraction]. rewrite append_nil_r. reflexivity.
Qed.

Lemma of_string_integer (ip : string) :
  ip <> "" -> all_chars is_digit ip = true ->
  of_string ip = Ok (round_ratio false (digits_val 0 ip) 1).
Proof.
  intros Hne Hip. rewrite of_string_plain
    by (revert Hip; apply all_chars_impl, is_digit_num_char).
  unfold parse_stripped. rewrite (parse_decimal_integer ip Hne Hip).
  unfold of_decimal. cbn [Z.leb Z.compare]. rewrite Z.pow_0_r, Z.mul_1_r.
  reflexivity.
Qed.

Lemma of_string_fixed (ip fp : string) :
  ip <> "" -> all_chars is_digit ip = true -> all_chars is_digit fp = true ->
  of_string (ip ++ "." ++ fp)
  = Ok (of_decimal false (digits_val 0 (ip ++ fp))
          (0 - Z.of_nat (String.length fp))).
Proof.
  intros Hne Hip Hfp. rewrite of_string_plain.
  - unfold parse_stripped. rewrite (parse_decimal_fixed ip fp Hne Hip Hfp).
    reflexivity.
  - rewrite all_chars_app. cbn [append all_chars].
    rewrite (all_chars_impl _ _ ip is_digit_num_char Hip).
    rewrite (all_chars_impl _ _ fp is_digit_num_char Hfp). reflexivity.
Qed.

(* ===================================================================== *)
(** * Decimal digits of an integer *)
(* ===================================================================== *)

Lemma digit_char_spec (d : Z) :
  0 <= d <= 9 -> is_digit (digit_char d) = true /\ digit_val (digit_char d) = d.
Proof.
  intros H.
  assert (E : d = 0 \/ d = 1 \/ d = 2 \/ d = 3 \/ d = 4 \/ d = 5 \/ d = 6
              \/ d = 7 \/ d = 8 \/ d = 9) by lia.
  repeat (destruct E as [->|E]; [split; reflexivity|]).
  subst d. split; reflexivity.
Qed.

Lemma string_length_app (a b : string) :
  String.length (a ++ b) = (String.length a + String.length b)%nat.
Proof. induction a; simpl; congruence. Qed.

Lemma digits_val_app (x y : string) :
  forall a, digits_val a (x ++ y) = digits_val (digits_val a x) y.
Proof.
  induction x as [|c x IH]; intros a; cbn [append digits_val]; [reflexivity|].
  apply IH.
Qed.

Lemma digits_fuel_S (f : nat) (n : Z) (acc : string) :
  digits_fuel (S f) n acc
  = if n <? 10 then String (digit_char (n mod 10)) acc
    else digits_fuel f (n / 10) (String (digit_char (n mod 10)) acc).
Proof. reflexivity. Qed.

Lemma digits_fuel_spec (f : nat) :
  forall (n : Z) (acc : string),
    0 <= n < 2 ^ Z.of_nat (S f) ->
    exists ds,
      digits_fuel (S f) n acc = ds ++ acc
      /\ ds <> ""
      /\ all_chars is_digit ds = true
      /\ (forall a, digits_val a ds = a * 10 ^ Z.of_nat (String.length ds) + n)
      /\ (forall w, 1 <= w -> n < 10 ^ w -> Z.of_nat (String.length ds) <= w).
Proof.
  induction f as [|f IH]; intros n acc Hn; rewrite digits_fuel_S.
  - assert (Hn' : n < 2) by (change (2 ^ Z.of_nat 1) with 2 in Hn; lia).
    replace (n <? 10) with true by (symmetry; apply Z.ltb_lt; lia).
    rewrite Z.mod_small by lia.
    destruct (digit_char_spec n ltac:(lia)) as [Hd Hv].
    exists (String (digit_char n) ""). cbn [append all_chars digits_val String.length].
    rewrite Hd, Hv.
    split; [reflexivity|]. split; [discriminate|]. split; [reflexivity|].
    split.
    + intros a. change (10 ^ Z.of_nat 1) with 10. lia.
    + intros w Hw _. change (Z.of_nat 1) with 1. lia.
  - destruct (n <? 10) eqn:E.
    + apply Z.ltb_lt in E. rewrite Z.mod_small by lia.
      destruct (digit_char_spec n ltac:(lia)) as [Hd Hv].
      exists (String (digit_char n) "").
      cbn [append all_chars digits_val String.length].
      rewrite Hd, Hv.
      split; [reflexivity|]. split; [discriminate|]. split; [reflexivity|].
      split.
      * intros a. change (10 ^ Z.of_nat 1) with 10. lia.
      * intros w Hw _. change (Z.of_nat 1) with 1. lia.
    + apply Z.ltb_ge in E.
      assert (Hpow : 2 ^ Z.of_nat (S (S f)) = 2 * 2 ^ Z.of_nat (S f)).
      { rewrite (Nat2Z.inj_succ (S f)). rewrite Z.pow_succ_r by lia. reflexivity. }
      pose proof (Z.div_mod n 10 ltac:(lia)) as Hdm.
      pose proof (Z.mod_pos_bound n 10 ltac:(lia)) as Hm.
      destruct (IH (n / 10) (String (digit_char (n mod 10)) acc) ltac:(lia))
        as (ds & E1 & Hne & Hall & Hval & Hlen).
      destruct (digit_char_spec (n mod 10) ltac:(lia)) as [Hd Hv].
      exists (ds ++ String (digit_char (n mod 10)) "").
      rewrite E1, append_assoc. cbn [append].
      split; [reflexivity|]. split; [destruct ds; [congruence|discriminate]|].
      split; [rewrite all_chars_app; cbn [all_chars]; rewrite Hall, Hd; reflexivity|].
      split.
      * intros a. rewrite digits_val_app, Hval. cbn [digits_val]. rewrite Hv.
        rewrite string_length_app. cbn [String.length].
        rewrite Nat2Z.inj_add. change (Z.of_nat 1) with 1.
        rewrite Z.pow_add_r by lia. change (10 ^ 1) with 10. lia.
      * intros w Hw Hnw. rewrite string_length_app. cbn [String.length].
        rewrite Nat2Z.inj_add. change (Z.of_nat 1) with 1.
        assert (Hw2 : 2 <= w).
        { destruct (Z.eq_dec w 1) as [->|]; [change (10 ^ 1) with 10 in Hnw; lia|lia]. }
        assert (Z.of_nat (String.length ds) <= w - 1); [|lia].
        apply Hlen; [lia|].
        replace w with ((w - 1) + 1) in Hnw by lia.
        rewrite Z.pow_add_r in Hnw by lia. change (10 ^ 1) with 10 in Hnw.
        lia.
Qed.

Lemma digits_of_spec (n : Z) :
  0 <= n ->
  digits_of n <> ""
  /\ all_chars is_digit (digits_of n) = true
  /\ (forall a, digits_val a (digits_of n)
                = a * 10 ^ Z.of_nat (String.length (digits_of n)) + n)
  /\ (forall w, 1 <= w -> n < 10 ^ w ->
                Z.of_nat (String.length (digits_of n)) <= w).
Proof.
  intros Hn. unfold digits_of.
  destruct (digits_fuel_spec (Z.to_nat (Z.log2 n)) n "") as (ds & E & H).
  - split; [exact Hn|].
    rewrite Nat2Z.inj_succ, Z2Nat.id by apply Z.log2_nonneg.
    destruct (Z.eq_dec n 0) as [->|Hnz]; [reflexivity|].
    apply Z.log2_spec. lia.
  - rewrite E, append_nil_r. exact H.
Qed.

Lemma digits_of_value (n : Z) : 0 <= n -> digits_val 0 (digits_of n) = n.
Proof.
  intros Hn. destruct (digits_of_spec n Hn) as (_ & _ & Hv & _).
  rewrite Hv. lia.
Qed.

Lemma repeat_char_zero_digits (j : nat) :
  all_chars is_digit (repeat_char "0" j) = true
  /\ forall a s, digits_val a (repeat_char "0" j ++ s)
                 = digits_val (a * 10 ^ Z.of_nat j) s.
Proof.
  induction j as [|j [IH1 IH2]]; cbn [repeat_char all_chars append digits_val].
  - split; [reflexivity|]. intros a s. change (10 ^ Z.of_nat 0) with 1.
    rewrite Z.mul_1_r. reflexivity.
  - split; [rewrite IH1; reflexivity|]. intros a s. rewrite IH2.
    f_equal. rewrite Nat2Z.inj_succ, Z.pow_succ_r by lia.
    change (digit_val "0") with 0. ring.
Qed.

Lemma length_repeat_char (c : ascii) (j : nat) :
  String.length (repeat_char c j) = j.
Proof. induction j; simpl; congruence. Qed.

(** The [w]-digit field of a number below 10^w. *)
Lemma zero_pad_spec (w : nat) (n : Z) :
  (1 <= w)%nat -> 0 <= n < 10 ^ Z.of_nat w ->
  all_chars is_digit (zero_pad w (digits_of n)) = true
  /\ String.length (zero_pad w (digits_of n)) = w
  /\ forall a, digits_val a (zero_pad w (digits_of n))
               = a * 10 ^ Z.of_nat w + n.
Proof.
  intros Hw Hn.
  destruct (digits_of_spec n ltac:(lia)) as (_ & Hall & Hval & Hlen).
  specialize (Hlen (Z.of_nat w) ltac:(lia) ltac:(lia)).
  unfold zero_pad. set (l := String.length (digits_of n)) in *.
  destruct (repeat_char_zero_digits (w - l)) as [Hz1 Hz2].
  split; [rewrite all_chars_app, Hz1, Hall; reflexivity|].
  split; [rewrite string_length_app, length_repeat_char; fold l; lia|].
  intros a. rewrite Hz2, Hval. fold l.
  rewrite <- Z.mul_assoc, <- Z.pow_add_r by lia.
  do 3 f_equal. lia.
Qed.

(* ===================================================================== *)
(** * The byte count is the integer part of a non-negative float *)
(* ===================================================================== *)

Lemma bytes_of_match (q g1 g2 : string) :
  match_quantity q = Some (g1, g2) ->
  convert_memory_to_bytes q = (num <- of_string g1 ;; bytes_of_float num g2).
Proof.
  intros H. unfold convert_memory_to_bytes.
  destruct q as [|c q]; [discriminate H|]. rewrite H. reflexivity.
Qed.

Lemma bytes_of_no_match (q : string) :
  match_quantity q = None -> convert_memory_to_bytes q = Ok 0.
Proof.
  intros H. unfold convert_memory_to_bytes. rewrite H.
  destruct q; reflexivity.
Qed.

Lemma match_quantity_num_chars (q g1 g2 : string) :
  match_quantity q = Some (g1, g2) -> all_chars is_num_char g1 = true.
Proof.
  unfold match_quantity.
  destruct (span is_num_char q) as [num r] eqn:E.
  apply span_spec in E as (_ & Hnum & _).
  destruct num; [discriminate|].
  destruct (match_unit r) as [u r'].
  destruct (at_end r'); [|discriminate].
  intros [= <- _]. exact Hnum.
Qed.

Lemma match_quantity_suffix (v u : string) :
  v <> "" -> all_chars is_num_char v = true -> stops is_num_char u ->
  match_quantity (v ++ u)
  = let (w, r') := match_unit u in if at_end r' then Some (v, w) else None.
Proof.
  intros Hne Hv Hu. unfold match_quantity.
  rewrite (span_app is_num_char v u Hv Hu).
  destruct v; [congruence|reflexivity].
Qed.

Lemma mul_f1024_nonneg (x : float) :
  nonneg_float x -> nonneg_float (mul x f1024).
Proof.
  intros [->|(k & -> & Hk)]; rewrite f1024_eq; cbn [mul].
  - left. reflexivity.
  - cbn [xorb]. pose proof (representable_nonneg k (proj1 Hk)).
    pose proof unit_pos.
    destruct (round_ratio_cases false (k * (1024 * one)) (one * one))
      as [E|(k' & E & Hk')]; [nia|nia| |].
    + left. exact E.
    + right. exists k'. split; assumption.
Qed.

Lemma to_int_nonneg (x : float) (n : Z) :
  nonneg_float x -> to_int x = Ok n ->
  exists k, finite_magnitude k /\ n = k / one.
Proof.
  intros [->|(k & -> & Hk)]; cbn [to_int apply_sign]; [discriminate|].
  intros [= <-]. exists k. split; [exact Hk|reflexivity].
Qed.

(** A byte count is the integer part of a non-negative binary64 value. *)
Lemma bytes_result_shape (q : string) (n : Z) :
  convert_memory_to_bytes q = Ok n ->
  exists k, finite_magnitude k /\ n = k / one.
Proof.
  assert (H0 : exists k, finite_magnitude k /\ 0 = k / one).
  { exists 0. split; [|reflexivity]. split; [|reflexivity].
    exists 0, 0. cbn. lia. }
  destruct (match_quantity q) as [[g1 g2]|] eqn:E.
  - rewrite (bytes_of_match q g1 g2 E).
    pose proof (match_quantity_num_chars q g1 g2 E) as Hg.
    destruct (of_string g1) as [x|e] eqn:Ex; cbn [bind]; [|discriminate].
    pose proof (of_string_num_chars g1 x Hg Ex) as Hx.
    unfold bytes_of_float.
    repeat match goal with
           | |- context [if ?b then _ else _] => destruct b
           end;
      apply to_int_nonneg; repeat apply mul_f1024_nonneg; exact Hx.
  - rewrite (bytes_of_no_match q E). intros [= <-]. exact H0.
Qed.

Lemma bytes_nonneg (q : string) (n : Z) :
  convert_memory_to_bytes q = Ok n -> 0 <= n.
Proof.
  intros H. destruct (bytes_result_shape q n H) as (k & Hk & ->).
  apply Z.div_pos; [apply representable_nonneg, Hk|apply unit_pos].
Qed.

Lemma unit_split (j : Z) : 0 <= j <= 1074 -> one = 2 ^ (1074 - j) * 2 ^ j.
Proof.
  intros Hj. unfold one. rewrite <- Z.pow_add_r by lia. f_equal. lia.
Qed.

(** The integer part of a binary64 value, divided by 2^j, is a binary64
    value. *)
Lemma integer_part_scaled (k j : Z) :
  finite_magnitude k -> 0 <= j <= 1074 ->
  finite_magnitude (k / one * 2 ^ (1074 - j)).
Proof.
  intros [(m & t & Ht & Hm & ->) Hov] Hj.
  pose proof unit_pos as Hu.
  assert (Hp : 0 < 2 ^ t) by (apply Z.pow_pos_nonneg; lia).
  assert (Hq : 0 < 2 ^ (1074 - j)) by (apply Z.pow_pos_nonneg; lia).
  assert (Hj2 : 0 < 2 ^ j) by (apply Z.pow_pos_nonneg; lia).
  pose proof (unit_split j Hj) as Eu.
  assert (Hfl : m * 2 ^ t / one * one <= m * 2 ^ t).
  { pose proof (Z.mul_div_le (m * 2 ^ t) one Hu). lia. }
  assert (Hn0 : 0 <= m * 2 ^ t / one) by (apply Z.div_pos; nia).
  split.
  - destruct (Z_le_gt_dec 1074 t) as [Hge|Hlt].
    + exists m, (t - j). split; [lia|]. split; [exact Hm|].
      replace (2 ^ t) with (2 ^ (t - 1074) * one)
        by (unfold one; rewrite <- Z.pow_add_r by lia; f_equal; lia).
      rewrite Z.mul_assoc, Z.div_mul by lia.
      rewrite <- Z.mul_assoc, <- Z.pow_add_r by lia. do 2 f_equal. lia.
    + exists (m * 2 ^ t / one), (1074 - j). split; [lia|].
      split; [|reflexivity]. split; [exact Hn0|].
      assert (2 ^ t < one) by (apply Z.pow_lt_mono_r; lia).
      apply Z.lt_le_incl, Z.div_lt_upper_bound; [lia|]. nia.
  - set (n := m * 2 ^ t / one) in *.
    assert (n * 2 ^ (1074 - j) <= n * one); [|lia].
    rewrite Eu. nia.
Qed.

Lemma int_truediv_pow2 (k j : Z) :
  finite_magnitude k -> 0 <= j <= 1074 -> 0 < k / one ->
  int_truediv (k / one) (2 ^ j) = Ok (Fin false (k / one * 2 ^ (1074 - j))).
Proof.
  intros Hk Hj Hn. unfold int_truediv.
  assert (Hj2 : 0 < 2 ^ j) by (apply Z.pow_pos_nonneg; lia).
  replace (2 ^ j =? 0) with false by (symmetry; apply Z.eqb_neq; lia).
  replace (k / one <? 0) with false by (symmetry; apply Z.ltb_ge; lia).
  replace (2 ^ j <? 0) with false by (symmetry; apply Z.ltb_ge; lia).
  rewrite !Z.abs_eq by lia. cbn [xorb].
  rewrite (round_ratio_exact false (k / one) (2 ^ j)
             (k / one * 2 ^ (1074 - j))); [reflexivity|lia|lia| |].
  - apply integer_part_scaled; assumption.
  - rewrite (unit_split j Hj) at 2. ring.
Qed.

(* ===================================================================== *)
(** * Formatting a byte count in GiB and MiB *)
(* ===================================================================== *)

Lemma append_suffix_nonempty (a : string) (c : ascii) (r : string) :
  a ++ String c r <> "".
Proof. destruct a; discriminate. Qed.

Lemma div_rne_scaled (a b c : Z) :
  0 <= a -> 0 < b -> 0 < c ->
  2 * Z.abs (div_rne (a * c) (b * c) * b - a) <= b.
Proof.
  intros Ha Hb Hc.
  destruct (div_rne_spec (a * c) (b * c) ltac:(nia) ltac:(nia)) as [_ H].
  set (r := div_rne (a * c) (b * c)) in *.
  replace (r * (b * c) - a * c) with ((r * b - a) * c) in H by ring.
  rewrite Z.abs_mul, (Z.abs_eq c) in H by lia. nia.
Qed.

Lemma pow2_30 : 1024 * 1024 * 1024 = 2 ^ 30.
Proof. reflexivity. Qed.

Lemma pow2_20 : 1024 * 1024 = 2 ^ 20.
Proof. reflexivity. Qed.

(** [convert_memory_to_gib] on a positive byte count. *)
Lemma gib_of_positive (q : string) (n : Z) :
  convert_memory_to_bytes q = Ok n -> n <> 0 ->
  exists r, 2 * Z.abs (r * 2 ^ 30 - 100 * n) <= 2 ^ 30
    /\ 0 <= r
    /\ convert_memory_to_gib q
       = Ok (digits_of (r / 100) ++ "."
             ++ zero_pad 2 (digits_of (r mod 100)) ++ "Gi").
Proof.
  intros H Hnz. pose proof (bytes_nonneg q n H) as Hn.
  destruct (bytes_result_shape q n H) as (k & Hk & En).
  unfold convert_memory_to_gib. rewrite H. cbn [bind]. rewrite pow2_30.
  replace (n <=? 0) with false by (symmetry; apply Z.leb_gt; lia).
  subst n. rewrite (int_truediv_pow2 k 30 Hk) by lia.
  cbn [bind format_fixed]. set (n := k / one) in *.
  change (10 ^ Z.of_nat 2) with 100.
  assert (Hu30 : one = 2 ^ 30 * 2 ^ (1074 - 30)).
  { rewrite (unit_split 30) by lia. ring. }
  exists (div_rne (n * 2 ^ (1074 - 30) * 100) one). split; [|split].
  - replace (n * 2 ^ (1074 - 30) * 100)
      with ((100 * n) * 2 ^ (1074 - 30)) by ring.
    rewrite Hu30. apply div_rne_scaled; [lia|reflexivity|reflexivity].
  - apply div_rne_spec; [|apply unit_pos].
    assert (0 < 2 ^ (1074 - 30)) by reflexivity. nia.
  - cbn [append]. rewrite !append_assoc. reflexivity.
Qed.

(** [convert_memory_to_mib] on a positive byte count. *)
Lemma mib_of_positive (q : string) (n : Z) :
  convert_memory_to_bytes q = Ok n -> n <> 0 ->
  exists r, 2 * Z.abs (r * 2 ^ 20 - n) <= 2 ^ 20
    /\ 0 <= r
    /\ convert_memory_to_mib q = Ok (digits_of r ++ "Mi").
Proof.
  intros H Hnz. pose proof (bytes_nonneg q n H) as Hn.
  destruct (bytes_result_shape q n H) as (k & Hk & En).
  unfold convert_memory_to_mib. rewrite H. cbn [bind]. rewrite pow2_20.
  replace (n <=? 0) with false by (symmetry; apply Z.leb_gt; lia).
  subst n. rewrite (int_truediv_pow2 k 20 Hk) by lia.
  cbn [bind format_fixed]. set (n := k / one) in *.
  change (10 ^ Z.of_nat 0) with 1. rewrite Z.mul_1_r, Z.div_1_r.
  assert (Hu20 : one = 2 ^ 20 * 2 ^ (1074 - 20)).
  { rewrite (unit_split 20) by lia. ring. }
  exists (div_rne (n * 2 ^ (1074 - 20)) one). split; [|split].
  - rewrite Hu20. apply div_rne_scaled; [lia|reflexivity|reflexivity].
  - apply div_rne_spec; [|apply unit_pos].
    assert (0 < 2 ^ (1074 - 20)) by reflexivity. nia.
  - cbn [append]. rewrite append_nil_r. reflexivity.
Qed.

Lemma gib_of_zero (q : string) :
  convert_memory_to_bytes q = Ok 0 -> convert_memory_to_gib q = Ok "".
Proof. unfold convert_memory_to_gib. intros ->. reflexivity. Qed.

Lemma mib_of_zero (q : string) :
  convert_memory_to_bytes q = Ok 0 -> convert_memory_to_mib q = Ok "".
Proof. unfold convert_memory_to_mib. intros ->. reflexivity. Qed.

(* ===================================================================== *)
(** * Byte counts of suffixed quantities *)
(* ===================================================================== *)

Lemma of_string_nonempty (v : string) (x : float) :
  of_string v = Ok x -> v <> "".
Proof. intros H ->. discriminate H. Qed.

Lemma mul_1024_chain (k : Z) (p : nat) :
  finite_magnitude k -> k * 1024 ^ Z.of_nat p < overflow_threshold ->
  Nat.iter p (fun x => mul x f1024) (Fin false k)
  = Fin false (k * 1024 ^ Z.of_nat p).
Proof.
  intros Hk. induction p as [|p IH]; intros Hov.
  - change (1024 ^ Z.of_nat 0) with 1. rewrite Z.mul_1_r. reflexivity.
  - pose proof (representable_nonneg k (proj1 Hk)) as Hk0.
    assert (Hp : 0 < 1024 ^ Z.of_nat p) by (apply Z.pow_pos_nonneg; lia).
    rewrite Nat2Z.inj_succ, Z.pow_succ_r in * by lia.
    rewrite Nat.iter_succ, IH by nia.
    assert (E : k * 1024 ^ Z.of_nat p = k * 2 ^ (10 * Z.of_nat p)).
    { rewrite Z.pow_mul_r by lia. reflexivity. }
    rewrite mul_1024_exact.
    + f_equal. ring.
    + rewrite E. apply finite_magnitude_scale; [exact Hk|lia|].
      rewrite <- E. nia.
    + nia.
Qed.

Ltac suffix_cases H :=
  repeat (destruct H as [H|H];
          [try (injection H as <- <-); try subst|]);
  [..|destruct H].

#[local] Opaque f1024 mul to_int of_string.

Lemma bytes_binary_suffix (v : string) (k : Z) (u : string) (p : Z) :
  all_chars is_num_char v = true ->
  of_string v = Ok (Fin false k) ->
  In (u, p) binary_suffixes ->
  k * 1024 ^ p < overflow_threshold ->
  convert_memory_to_bytes (v ++ u) = Ok (k * 1024 ^ p / one).
Proof.
  intros Hv Hf Hin Hov.
  pose proof (of_string_nonempty v _ Hf) as Hne.
  pose proof (of_string_finite v false k Hf) as Hk.
  assert (Hm : exists p' : nat, p = Z.of_nat p'
            /\ match_quantity (v ++ u) = Some (v, u)
            /\ bytes_of_float (Fin false k) u
               = to_int (Nat.iter p' (fun x => mul x f1024) (Fin false k))).
  { cbn [binary_suffixes In] in Hin. suffix_cases Hin;
      match goal with
      | |- exists p' : nat, ?n = Z.of_nat p' /\ _ => exists (Z.to_nat n)
      end;
      (split; [reflexivity|]);
      (split; [rewrite match_quantity_suffix by (assumption || reflexivity);
               reflexivity|reflexivity]). }
  destruct Hm as (p' & -> & Hm & Hb).
  rewrite (bytes_of_match _ _ _ Hm), Hf. cbn [bind]. rewrite Hb.
  rewrite mul_1024_chain by assumption. reflexivity.
Qed.

Lemma bytes_plain (v : string) (k : Z) :
  all_chars is_num_char v = true ->
  of_string v = Ok (Fin false k) ->
  convert_memory_to_bytes v = Ok (k / one).
Proof.
  intros Hv Hf. pose proof (of_string_nonempty v _ Hf) as Hne.
  assert (Hm : match_quantity v = Some (v, "")).
  { rewrite <- (append_nil_r v) at 1.
    rewrite match_quantity_suffix by easy. reflexivity. }
  rewrite (bytes_of_match _ _ _ Hm), Hf. reflexivity.
Qed.

Lemma bytes_unlisted_suffix (v : string) (k : Z) (u : string) :
  all_chars is_num_char v = true ->
  of_string v = Ok (Fin false k) ->
  In u unlisted_suffixes ->
  convert_memory_to_bytes (v ++ u) = Ok (k / one).
Proof.
  intros Hv Hf Hin. pose proof (of_string_nonempty v _ Hf) as Hne.
  assert (Hm : match_quantity (v ++ u) = Some (v, u)
               /\ bytes_of_float (Fin false k) u = to_int (Fin false k)).
  { cbn [unlisted_suffixes In] in Hin. suffix_cases Hin;
      (split; [rewrite match_quantity_suffix by (assumption || reflexivity);
               reflexivity|reflexivity]). }
  destruct Hm as [Hm Hb].
  rewrite (bytes_of_match _ _ _ Hm), Hf. cbn [bind]. rewrite Hb. reflexivity.
Qed.

Lemma bytes_lower_suffix (v u : string) :
  v <> "" -> all_chars is_num_char v = true ->
  In u lower_case_suffixes ->
  convert_memory_to_bytes (v ++ u) = Ok 0.
Proof.
  intros Hne Hv Hin. apply bytes_of_no_match.
  cbv [lower_case_suffixes binary_suffixes map fst] in Hin.
  cbn [In] in Hin. suffix_cases Hin;
    rewrite match_quantity_suffix by (assumption || reflexivity);
    reflexivity.
Qed.

Lemma bytes_rejected_suffix (v : string) (c : ascii) (r : string) :
  v <> "" -> all_chars is_num_char v = true ->
  is_num_char c = false -> is_unit_letter c = false ->
  at_end (String c r) = false ->
  convert_memory_to_bytes (v ++ String c r) = Ok 0.
Proof.
  intros Hne Hv Hc Hu He. apply bytes_of_no_match.
  rewrite match_quantity_suffix by assumption.
  unfold match_unit. rewrite Hu, He. reflexivity.
Qed.

#[local] Transparent f1024 mul to_int of_string.

(* ===================================================================== *)
(** * Rounding in the normal range *)
(* ===================================================================== *)

Lemma threshold_unit : overflow_threshold = 2 ^ 1024 * one.
Proof. reflexivity. Qed.

(** Rounding in the normal range: no overflow below 2^1023, and a relative
    error of at most 2^-53. *)
Lemma round_ratio_normal (s : bool) (n d : Z) :
  0 < n -> 0 < d -> 2 ^ 52 * d <= n * one ->
  2 * (n * one) <= overflow_threshold * d ->
  exists k, round_ratio s n d = Fin s k
            /\ finite_magnitude k
            /\ 2 ^ 53 * Z.abs (k * d - n * one) <= n * one.
Proof.
  intros Hn Hd Hlo Hhi.
  destruct (round_ratio_cases s n d ltac:(lia) Hd) as [E|(k & E & Hk)].
  - exfalso. revert E. unfold round_ratio.
    destruct (n =? 0); [discriminate|].
    pose proof unit_pos as Hu.
    assert (Hx : 0 < n * one) by nia.
    pose proof (spacing_exponent_spec (n * one) d Hx Hd) as (Ht & _ & Hlb).
    set (t := spacing_exponent (n * one) d) in *.
    assert (Hp : 0 < 2 ^ t) by (apply Z.pow_pos_nonneg; lia).
    assert (HB : 0 < d * 2 ^ t) by nia.
    pose proof (div_rne_spec (n * one) (d * 2 ^ t) ltac:(lia) HB) as [Hm0 Hm].
    set (m := div_rne (n * one) (d * 2 ^ t)) in *.
    destruct (overflow_threshold <=? m * 2 ^ t) eqn:Eo; [|discriminate].
    apply Z.leb_le in Eo. intros _.
    set (x := n * one) in *. set (T := overflow_threshold) in *.
    assert (H52 : 2 ^ 52 = 4503599627370496) by reflexivity.
    assert (Hle : 2 * (m * (d * 2 ^ t)) <= 2 * x + d * 2 ^ t) by lia.
    assert (Hb : 2 ^ 52 * (d * 2 ^ t) <= x).
    { destruct Hlb as [H0|Hlb]; [|exact Hlb].
      rewrite H0. change (2 ^ 0) with 1. lia. }
    assert (Hkd : T * d <= m * 2 ^ t * d) by nia.
    nia.
  - exists k. split; [exact E|]. split; [exact Hk|].
    apply (round_ratio_error s n d k Hn Hd Hlo E).
Qed.

Lemma of_int_nonneg (n : Z) : 0 <= n -> of_int n = digits_of n.
Proof.
  intros H. unfold of_int.
  replace (n <? 0) with false by (symmetry; apply Z.ltb_ge; lia).
  reflexivity.
Qed.

Lemma round_ratio_integer (n : Z) :
  0 <= n <= 2 ^ 53 -> round_ratio false n 1 = Fin false (n * one).
Proof.
  intros Hn. apply round_ratio_exact; [lia|lia| |ring].
  split.
  - exists n, 1074. repeat split; lia.
  - rewrite threshold_unit. pose proof unit_pos.
    assert (2 ^ 53 < 2 ^ 1024) by reflexivity. nia.
Qed.

(** [float] of the decimal digits of a small integer is exact. *)
Lemma of_string_digits_of (n : Z) :
  0 <= n <= 2 ^ 53 -> of_string (digits_of n) = Ok (Fin false (n * one)).
Proof.
  intros Hn. destruct (digits_of_spec n ltac:(lia)) as (Hne & Hall & _ & _).
  rewrite (of_string_integer _ Hne Hall), digits_of_value by lia.
  rewrite round_ratio_integer by lia. reflexivity.
Qed.

(* ===================================================================== *)
(** * Writing a byte count and reading it back *)
(* ===================================================================== *)

Lemma bytes_of_int (n : Z) :
  0 <= n <= 2 ^ 53 -> convert_memory_to_bytes (of_int n) = Ok n.
Proof.
  intros Hn. rewrite of_int_nonneg by lia.
  destruct (digits_of_spec n ltac:(lia)) as (_ & Hall & _ & _).
  rewrite (bytes_plain (digits_of n) (n * one)).
  - rewrite Z.div_mul by (pose proof unit_pos; lia). reflexivity.
  - revert Hall. apply all_chars_impl, is_digit_num_char.
  - apply of_string_digits_of, Hn.
Qed.

(** The text that [format_fixed 2] writes for the integer [r] of
    hundredths, read back by [float]. *)
Lemma of_string_hundredths (r : Z) :
  0 <= r ->
  all_chars is_num_char
    (digits_of (r / 100) ++ "." ++ zero_pad 2 (digits_of (r mod 100))) = true
  /\ of_string
       (digits_of (r / 100) ++ "." ++ zero_pad 2 (digits_of (r mod 100)))
     = Ok (round_ratio false r 100).
Proof.
  intros Hr.
  pose proof (Z.div_mod r 100 ltac:(lia)) as Hdm.
  pose proof (Z.mod_pos_bound r 100 ltac:(lia)) as Hm.
  assert (Hq : 0 <= r / 100) by (apply Z.div_pos; lia).
  destruct (digits_of_spec (r / 100) Hq) as (Hne & Hall & Hval & _).
  destruct (zero_pad_spec 2 (r mod 100) ltac:(lia)
              ltac:(change (10 ^ Z.of_nat 2) with 100; lia))
    as (Hzall & Hzlen & Hzval).
  split.
  - rewrite all_chars_app. cbn [append all_chars].
    rewrite (all_chars_impl _ _ _ is_digit_num_char Hall).
    rewrite (all_chars_impl _ _ _ is_digit_num_char Hzall). reflexivity.
  - rewrite (of_string_fixed _ _ Hne Hall Hzall).
    rewrite digits_val_app, Hzval, Hzlen, digits_of_value by exact Hq.
    change (10 ^ Z.of_nat 2) with 100.
    replace (r / 100 * 100 + r mod 100) with r by lia.
    reflexivity.
Qed.

Lemma pow2_1044 : one = 2 ^ 1044 * 2 ^ 30.
Proof. reflexivity. Qed.

(** Reading back "<r/100>.<r mod 100>Gi": the byte count [M] is the integer
    part of a value within 2^-53 (relative) of r * 2^30 / 100. *)
Lemma gib_reparse (r : Z) :
  0 <= r < 2 ^ 31 ->
  exists M,
    convert_memory_to_bytes
      (digits_of (r / 100) ++ "." ++ zero_pad 2 (digits_of (r mod 100)) ++ "Gi")
    = Ok M
    /\ 100 * M * 2 ^ 53 <= r * 2 ^ 30 * (2 ^ 53 + 1)
    /\ r * 2 ^ 30 * (2 ^ 53 - 1) < 100 * (M + 1) * 2 ^ 53.
Proof.
  intros Hr.
  destruct (of_string_hundredths r ltac:(lia)) as [Hall Hf].
  set (v := digits_of (r / 100) ++ "." ++ zero_pad 2 (digits_of (r mod 100))) in *.
  replace (digits_of (r / 100) ++ "." ++ zero_pad 2 (digits_of (r mod 100)) ++ "Gi")
    with (v ++ "Gi")
    by (unfold v; rewrite !append_assoc; reflexivity).
  pose proof unit_pos as Hu.
  assert (H31 : 2 ^ 31 = 2147483648) by reflexivity.
  assert (H30 : 2 ^ 30 = 1073741824) by reflexivity.
  assert (H53 : 2 ^ 53 = 9007199254740992) by reflexivity.
  assert (Hun : 2 ^ 60 <= one) by (apply Z.pow_le_mono_r; lia).
  assert (H60 : 2 ^ 60 = 1152921504606846976) by reflexivity.
  assert (HT : overflow_threshold = 2 ^ 1024 * one) by reflexivity.
  assert (H1024 : 2 ^ 100 <= 2 ^ 1024) by (apply Z.pow_le_mono_r; lia).
  assert (H100 : 2 ^ 100 = 1267650600228229401496703205376) by reflexivity.
  destruct (Z.eq_dec r 0) as [->|Hnz].
  - exists 0. split; [|lia].
    rewrite (bytes_binary_suffix v 0 "Gi" 3 Hall Hf); [reflexivity| |reflexivity].
    cbn. tauto.
  - destruct (round_ratio_normal false r 100) as (k & Ek & Hk & Herr);
      [lia|lia| | |].
    { nia. }
    { rewrite HT. set (A := 2 ^ 1024) in *. nia. }
    rewrite Ek in Hf.
    pose proof (representable_nonneg k (proj1 Hk)) as Hk0.
    assert (Hkb : k * 100 <= 2 * (r * one)) by lia.
    exists (k * 1024 ^ 3 / one). split.
    + apply (bytes_binary_suffix v k "Gi" 3 Hall Hf); [cbn; tauto|].
      rewrite HT. change (1024 ^ 3) with (2 ^ 30). set (A := 2 ^ 1024) in *.
      nia.
    + change (1024 ^ 3) with (2 ^ 30). rewrite pow2_1044 in *.
      rewrite Z.div_mul_cancel_r by (try apply Z.pow_nonzero; lia).
      set (P := 2 ^ 1044) in *.
      assert (HP : 0 < P) by reflexivity.
      pose proof (Z.div_mod k P ltac:(lia)) as Hdm.
      pose proof (Z.mod_pos_bound k P HP) as Hmod.
      set (M := k / P) in *. set (rho := k mod P) in *.
      set (y := r * 2 ^ 30) in *.
      replace (r * (P * 2 ^ 30)) with (y * P) in Herr by (unfold y; ring).
      assert (Hup : 2 ^ 53 * (k * 100) <= y * P * (2 ^ 53 + 1)) by lia.
      assert (Hlo : y * P * (2 ^ 53 - 1) <= 2 ^ 53 * (k * 100)) by lia.
      split.
      * apply (Z.mul_le_mono_pos_r _ _ P HP).
        rewrite H53 in *. nia.
      * apply (Z.mul_lt_mono_pos_r P _ _ HP).
        rewrite H53 in *. nia.
Qed.

(** Reading back "<r>Mi". *)
Lemma mib_reparse (r : Z) :
  0 <= r < 2 ^ 53 ->
  convert_memory_to_bytes (digits_of r ++ "Mi") = Ok (r * 2 ^ 20).
Proof.
  intros Hr. pose proof unit_pos as Hu.
  destruct (digits_of_spec r ltac:(lia)) as (_ & Hall & _ & _).
  rewrite (bytes_binary_suffix (digits_of r) (r * one) "Mi" 2).
  - change (1024 ^ 2) with (2 ^ 20).
    replace (r * one * 2 ^ 20) with (r * 2 ^ 20 * one) by ring.
    rewrite Z.div_mul by lia. reflexivity.
  - revert Hall. apply all_chars_impl, is_digit_num_char.
  - apply of_string_digits_of. lia.
  - cbn. tauto.
  - assert (HT : overflow_threshold = 2 ^ 1024 * one) by reflexivity.
    rewrite HT. change (1024 ^ 2) with (2 ^ 20).
    assert (H : 2 ^ 53 * 2 ^ 20 < 2 ^ 1024) by reflexivity.
    set (A := 2 ^ 1024) in *. set (B := 2 ^ 20) in *.
    assert (0 < B) by reflexivity. nia.
Qed.

Lemma gib_round_trip (N : Z) :
  0 <= N < 2 ^ 52 ->
  exists s M, convert_memory_to_gib (of_int N) = Ok s
              /\ convert_memory_to_bytes s = Ok M
              /\ Z.abs (M - N) <= 5368710.
Proof.
  intros HN.
  assert (H52 : 2 ^ 52 = 4503599627370496) by reflexivity.
  pose proof (bytes_of_int N ltac:(change (2 ^ 53) with 9007199254740992; lia))
    as Hb.
  destruct (Z.eq_dec N 0) as [->|Hnz].
  - exists "", 0.
    split; [vm_compute; reflexivity|]. split; [reflexivity|].
    change (Z.abs (0 - 0)) with 0. lia.
  - destruct (gib_of_positive _ N Hb Hnz) as (r & Hr & Hr0 & E).
    assert (H30 : 2 ^ 30 = 1073741824) by reflexivity.
    assert (H31 : 2 ^ 31 = 2147483648) by reflexivity.
    destruct (gib_reparse r ltac:(lia)) as (M & EM & Hup & Hlo).
    eexists _, M. split; [exact E|]. split; [exact EM|].
    assert (H53 : 2 ^ 53 = 9007199254740992) by reflexivity.
    rewrite H53, H30 in *. lia.
Qed.

Lemma mib_round_trip (N : Z) :
  0 <= N < 2 ^ 52 ->
  exists s M, convert_memory_to_mib (of_int N) = Ok s
              /\ convert_memory_to_bytes s = Ok M
              /\ Z.abs (M - N) <= 524288.
Proof.
  intros HN.
  assert (H52 : 2 ^ 52 = 4503599627370496) by reflexivity.
  assert (H53 : 2 ^ 53 = 9007199254740992) by reflexivity.
  pose proof (bytes_of_int N ltac:(lia)) as Hb.
  destruct (Z.eq_dec N 0) as [->|Hnz].
  - exists "", 0.
    split; [vm_compute; reflexivity|]. split; [reflexivity|].
    change (Z.abs (0 - 0)) with 0. lia.
  - destruct (mib_of_positive _ N Hb Hnz) as (r & Hr & Hr0 & E).
    assert (H20 : 2 ^ 20 = 1048576) by reflexivity.
    eexists _, (r * 2 ^ 20). split; [exact E|].
    split; [apply mib_reparse; lia|]. lia.
Qed.

(* ===================================================================== *)
(** * Texts that float accepts, and the CPU formatters on their results *)
(* ===================================================================== *)

Lemma float_char_cases (c : ascii) :
  (is_digit c = true -> float_char c = true)
  /\ (is_c_space c = true -> float_char c = true)
  /\ (Ascii.eqb c "." = true -> float_char c = true)
  /\ (Ascii.eqb c "-" = true -> float_char c = true)
  /\ (Ascii.eqb c "+" = true -> float_char c = true)
  /\ (Ascii.eqb c "_" = true -> float_char c = true)
  /\ (Ascii.eqb c "e" || Ascii.eqb c "E" = true -> float_char c = true)
  /\ (existsb (Ascii.eqb (lower_char c)) ["i"; "n"; "f"; "t"; "y"; "a"]%char
      = true -> float_char c = true)
  /\ ((Str.code c <? 127) = false -> Str.isspace c = true ->
      float_char c = true).
Proof.
  ascii_cases c; vm_compute; repeat split; intros; congruence.
Qed.

Ltac float_char_tac c :=
  destruct (float_char_cases c) as (? & ? & ? & ? & ? & ? & ? & ? & ?); auto.

Lemma all_chars_drop_while (A q : ascii -> bool) (s : string) :
  (forall c, q c = true -> A c = true) ->
  all_chars A (drop_while q s) = true -> all_chars A s = true.
Proof.
  intros Hq. induction s as [|c s IH]; cbn [drop_while all_chars];
    [reflexivity|].
  destruct (q c) eqn:E.
  - intros H. rewrite (Hq c E), (IH H). reflexivity.
  - intros H. exact H.
Qed.

Lemma all_chars_rstrip_with (A q : ascii -> bool) (s : string) :
  (forall c, q c = true -> A c = true) ->
  all_chars A (rstrip_with q s) = true -> all_chars A s = true.
Proof.
  intros Hq. induction s as [|c s IH]; cbn [rstrip_with all_chars];
    [reflexivity|].
  destruct (rstrip_with q s) as [|c' r'] eqn:E.
  - specialize (IH eq_refl). rewrite IH, andb_true_r.
    destruct (q c) eqn:Eq; [intros _; apply Hq, Eq|].
    cbn [all_chars]. rewrite andb_true_r. intros H. exact H.
  - cbn [all_chars] in *. intros H. apply andb_true_iff in H as [Hc Hr].
    rewrite Hc, (IH Hr). reflexivity.
Qed.

Lemma all_chars_remove_underscores (A : ascii -> bool) (s : string) :
  A "_"%char = true ->
  forall prev t, remove_underscores prev s = Some t ->
                 all_chars A t = true -> all_chars A s = true.
Proof.
  intros Hu. induction s as [|c s IH]; intros prev t;
    cbn [remove_underscores all_chars]; [reflexivity|].
  destruct (Ascii.eqb c "_") eqn:Ec.
  - apply Ascii.eqb_eq in Ec. subst c. rewrite Hu.
    destruct (prev_is is_digit prev); [|discriminate].
    intros H Ht. apply (IH _ _ H Ht).
  - destruct (prev_is (Ascii.eqb "_") prev && negb (is_digit c)); [discriminate|].
    destruct (remove_underscores (Some c) s) as [t'|] eqn:E; [|discriminate].
    cbn [option_map]. intros [= <-]. cbn [all_chars]. intros H.
    apply andb_true_iff in H as [Hc Ht]. rewrite Hc, (IH _ _ E Ht). reflexivity.
Qed.

Lemma all_chars_transform (s : string) :
  all_chars float_char (transform s) = true -> all_chars float_char s = true.
Proof.
  unfold transform.
  destruct (all_chars (fun c => Str.code c <? 128) s); [trivial|].
  induction s as [|c s IH]; cbn [to_ascii_spaces all_chars]; [reflexivity|].
  destruct (Str.code c <? 127) eqn:E.
  - cbn [all_chars]. intros H. apply andb_true_iff in H as [Hc Hs].
    rewrite Hc, (IH Hs). reflexivity.
  - destruct (Str.isspace c) eqn:Es; [|discriminate].
    cbn [all_chars]. intros H. apply andb_true_iff in H as [_ Hs].
    rewrite (IH Hs), andb_true_r. float_char_tac c.
Qed.

Lemma all_chars_parse_sign (s s1 : string) (neg : bool) :
  parse_sign s = (neg, s1) ->
  all_chars float_char s1 = true -> all_chars float_char s = true.
Proof.
  unfold parse_sign. destruct s as [|c r]; [intros [= _ <-]; trivial|].
  destruct (Ascii.eqb c "-") eqn:E1;
    [|destruct (Ascii.eqb c "+") eqn:E2]; intros [= _ <-]; cbn [all_chars];
    trivial; intros ->; rewrite andb_true_r; float_char_tac c.
Qed.

Lemma all_chars_span_digits (s a b : string) :
  span is_digit s = (a, b) ->
  all_chars float_char b = true -> all_chars float_char s = true.
Proof.
  intros H Hb. apply span_spec in H as (-> & Ha & _).
  rewrite all_chars_app, Hb, andb_true_r.
  revert Ha. apply all_chars_impl. intros c. float_char_tac c.
Qed.

Lemma all_chars_parse_fraction (s fp s3 : string) :
  parse_fraction s = (fp, s3) ->
  all_chars float_char s3 = true -> all_chars float_char s = true.
Proof.
  unfold parse_fraction. destruct s as [|c r]; [intros [= _ <-]; trivial|].
  destruct (Ascii.eqb c ".") eqn:E; [|intros [= _ <-]; trivial].
  intros H Hs. cbn [all_chars].
  rewrite (all_chars_span_digits _ _ _ H Hs), andb_true_r.
  float_char_tac c.
Qed.

Lemma all_chars_parse_exponent (s s4 : string) (ex : Z) :
  parse_exponent s = (ex, s4) ->
  all_chars float_char s4 = true -> all_chars float_char s = true.
Proof.
  unfold parse_exponent. destruct s as [|c r]; [intros [= _ <-]; trivial|].
  destruct (Ascii.eqb c "e" || Ascii.eqb c "E") eqn:E;
    [|intros [= _ <-]; trivial].
  destruct (parse_sign r) as [neg r1] eqn:Es.
  destruct (span is_digit r1) as [ds r2] eqn:Ed.
  destruct ds; [intros [= _ <-]; trivial|].
  intros [= _ <-] Hs. cbn [all_chars].
  rewrite (all_chars_parse_sign _ _ _ Es (all_chars_span_digits _ _ _ Ed Hs)).
  rewrite andb_true_r. float_char_tac c.
Qed.

Lemma all_chars_lower (P : ascii -> bool) (s : string) :
  all_chars (fun c => P (lower_char c)) s = all_chars P (lower s).
Proof.
  induction s as [|c s IH]; cbn [all_chars lower]; [reflexivity|].
  rewrite IH. reflexivity.
Qed.

Lemma all_chars_parse_stripped (s : string) (x : float) :
  parse_stripped s = Some x -> all_chars float_char s = true.
Proof.
  unfold parse_stripped. destruct (parse_decimal s) as [y|] eqn:Ed.
  - intros _. revert Ed. unfold parse_decimal.
    destruct (parse_sign s) as [neg s1] eqn:E1.
    destruct (span is_digit s1) as [ip s2] eqn:E2.
    destruct (parse_fraction s2) as [fp s3] eqn:E3.
    destruct (ip ++ fp); [discriminate|].
    destruct (parse_exponent s3) as [ex s4] eqn:E4.
    destruct s4; [|discriminate]. intros _.
    apply (all_chars_parse_sign _ _ _ E1).
    apply (all_chars_span_digits _ _ _ E2).
    apply (all_chars_parse_fraction _ _ _ E3).
    apply (all_chars_parse_exponent _ _ _ E4). reflexivity.
  - unfold parse_inf_or_nan. destruct (parse_sign s) as [neg r] eqn:E1.
    intros H. apply (all_chars_parse_sign _ _ _ E1).
    assert (Hw : all_chars
                   (fun c => existsb (Ascii.eqb (lower_char c))
                               ["i"; "n"; "f"; "t"; "y"; "a"]%char) r = true).
    { rewrite (all_chars_lower
                 (fun c => existsb (Ascii.eqb c)
                             ["i"; "n"; "f"; "t"; "y"; "a"]%char)).
      destruct (String.eqb (lower r) "inf") eqn:Ea;
        [apply String.eqb_eq in Ea; rewrite Ea; reflexivity|].
      destruct (String.eqb (lower r) "infinity") eqn:Eb;
        [apply String.eqb_eq in Eb; rewrite Eb; reflexivity|].
      destruct (String.eqb (lower r) "nan") eqn:Ec;
        [apply String.eqb_eq in Ec; rewrite Ec; reflexivity|].
      discriminate H. }
    revert Hw. apply all_chars_impl. intros c. float_char_tac c.
Qed.

(** [float] accepts only texts made of [float_char] characters. *)
Lemma of_string_chars (s : string) (x : float) :
  of_string s = Ok x -> all_chars float_char s = true.
Proof.
  unfold of_string.
  destruct (remove_underscores None (transform s)) as [t|] eqn:Et;
    [|discriminate].
  destruct (parse_stripped (rstrip_with is_c_space (drop_while is_c_space t)))
    as [y|] eqn:Ep; [|discriminate].
  intros _. apply all_chars_transform.
  apply (all_chars_remove_underscores float_char _ eq_refl _ _ Et).
  apply (all_chars_drop_while float_char is_c_space);
    [intros c; float_char_tac c|].
  apply (all_chars_rstrip_with float_char is_c_space);
    [intros c; float_char_tac c|].
  apply (all_chars_parse_stripped _ _ Ep).
Qed.

Lemma of_string_raises (s : string) (e : exn) :
  of_string s = Raise e -> e = ValueError.
Proof.
  unfold of_string.
  destruct (remove_underscores None (transform s)); [|congruence].
  destruct (parse_stripped _); [discriminate|congruence].
Qed.

Lemma of_string_cores (a : string) :
  of_string (a ++ "cores") = Raise ValueError.
Proof.
  destruct (of_string (a ++ "cores")) as [x|e] eqn:E.
  - apply of_string_chars in E. rewrite all_chars_app in E.
    apply andb_true_iff in E as [_ E]. discriminate E.
  - f_equal. apply (of_string_raises _ _ E).
Qed.

Lemma endswith_char_app (c : ascii) (a : string) (b : ascii) (r : string) :
  endswith_char c (a ++ String b r) = endswith_char c (String b r).
Proof.
  induction a as [|x a IH]; [reflexivity|].
  cbn [append]. rewrite <- IH.
  destruct (a ++ String b r) eqn:E; [|reflexivity].
  exfalso. revert E. apply append_suffix_nonempty.
Qed.

Lemma format_cpu_cores_of_cores (a : string) :
  format_cpu_cores (a ++ "cores") = Ok (a ++ "cores").
Proof.
  unfold format_cpu_cores.
  rewrite (endswith_char_app "m" a "c" "ores"), of_string_cores.
  destruct (a ++ "cores") eqn:E; [|reflexivity].
  exfalso. revert E. apply append_suffix_nonempty.
Qed.

Lemma format_cpu_cores_idempotent (v r : string) :
  format_cpu_cores v = Ok r -> format_cpu_cores r = Ok r.
Proof.
  intros H. pose proof H as H'. revert H'. unfold format_cpu_cores at 1.
  destruct v as [|c v]; [intros [= <-]; reflexivity|].
  destruct (endswith_char "m" (String c v)).
  - destruct (of_string (drop_last (String c v))) as [x|e]; [|discriminate].
    cbn [bind]. destruct (div x (of_Z 1000)) as [y|e]; [|discriminate].
    cbn [bind]. intros [= <-]. apply format_cpu_cores_of_cores.
  - destruct (of_string (String c v)) as [x|e].
    + cbn [bind except_ValueError]. intros [= <-].
      apply format_cpu_cores_of_cores.
    + cbn [bind except_ValueError]. destruct e; [|discriminate|discriminate].
      intros [= <-]. exact H.
Qed.

Lemma format_cpu_m_of_m (a : string) :
  format_cpu_m (a ++ "m") = Ok (a ++ "m").
Proof.
  unfold format_cpu_m. rewrite (endswith_char_app "m" a "m" "").
  destruct (a ++ "m") eqn:E; [|reflexivity].
  exfalso. revert E. apply append_suffix_nonempty.
Qed.

Lemma format_cpu_m_idempotent (v r : string) :
  format_cpu_m v = Ok r -> format_cpu_m r = Ok r.
Proof.
  intros H. pose proof H as H'. revert H'. unfold format_cpu_m at 1.
  destruct v as [|c v]; [intros [= <-]; reflexivity|].
  destruct (endswith_char "m" (String c v)); [intros [= <-]; exact H|].
  destruct (of_string (String c v)) as [x|e].
  - cbn [bind]. destruct (round (mul x (of_Z 1000))) as [m|e].
    + cbn [bind except_ValueError]. intros [= <-]. apply format_cpu_m_of_m.
    + cbn [bind except_ValueError]. destruct e; [|discriminate|discriminate].
      intros [= <-]. exact H.
  - cbn [bind except_ValueError]. destruct e; [|discriminate|discriminate].
    intros [= <-]. exact H.
Qed.

(* ===================================================================== *)
(** * Properties of the scanner *)
(* ===================================================================== *)

Section Scanner.

Import Node RowSpec.

Lemma allocated_eq (a b : allocated) :
  cpu_req a = cpu_req b -> cpu_limit a = cpu_limit b ->
  mem_req_raw a = mem_req_raw b -> mem_limit_raw a = mem_limit_raw b ->
  a = b.
Proof.
  destruct a, b; simpl; intros; subst; reflexivity.
Qed.

Lemma pods_block_app_header (l1 : list string) :
  forall (b : bool) (k : Z) (h : string) (l2 : list string),
    contains hdr_pods h = true ->
    non_terminated_pods_block b k (l1 ++ h :: l2)
    = (non_terminated_pods_block b k l1
       ++ non_terminated_pods_block false 0 (h :: l2))%list.
Proof.
  induction l1 as [|x l1 IH]; intros b k h l2 Hh.
  - simpl. rewrite Hh. reflexivity.
  - simpl. destruct (contains hdr_pods x).
    + apply IH, Hh.
    + destruct (contains hdr_allocated x); simpl.
      * apply IH, Hh.
      * destruct b; [destruct (k <? 2)|]; simpl; rewrite IH by exact Hh;
          reflexivity.
Qed.

Lemma allocated_block_app_header (l1 : list string) :
  forall (b : bool) (h : string) (l2 : list string),
    contains hdr_allocated h = true ->
    allocated_resources_block b (l1 ++ h :: l2)
    = (allocated_resources_block b l1
       ++ allocated_resources_block false (h :: l2))%list.
Proof.
  induction l1 as [|x l1 IH]; intros b h l2 Hh.
  - simpl. rewrite Hh. reflexivity.
  - simpl. destruct (contains hdr_allocated x).
    + apply IH, Hh.
    + destruct ((if contains hdr_events x then false else b)
                && negb (contains notice_limits x)
                && negb (contains notice_columns x));
        simpl; rewrite IH by exact Hh; reflexivity.
Qed.

Lemma pod_details_app (b1 b2 : list string) :
  pod_details (b1 ++ b2)
  = (r1 <- pod_details b1 ;; r2 <- pod_details b2 ;; Ok (r1 ++ r2)%list).
Proof.
  induction b1 as [|x b1 IH]; cbn [pod_details app].
  - destruct (pod_details b2); reflexivity.
  - destruct x as [|c x]; [exact IH|].
    destruct (9 <=? List.length (split (String c x)))%nat; [|exact IH].
    rewrite IH.
    destruct (pod_row (split (String c x))); cbn [bind]; [|reflexivity].
    destruct (pod_details b1); cbn [bind]; [|reflexivity].
    destruct (pod_details b2); reflexivity.
Qed.

Lemma parse_allocated_app (st : allocated) (b1 b2 : list string) :
  parse_allocated st (b1 ++ b2) = parse_allocated (parse_allocated st b1) b2.
Proof.
  unfold parse_allocated. apply fold_left_app.
Qed.

(** A block with a cpu line and a memory line fixes all four fields. *)
Lemma parse_allocated_determined (block : list string) :
  forall st st' : allocated,
    (has_cpu_line block = true
     \/ (cpu_req st = cpu_req st' /\ cpu_limit st = cpu_limit st')) ->
    (has_memory_line block = true
     \/ (mem_req_raw st = mem_req_raw st'
         /\ mem_limit_raw st = mem_limit_raw st')) ->
    parse_allocated st block = parse_allocated st' block.
Proof.
  induction block as [|x block IH]; intros st st' Hc Hm.
  - simpl. destruct Hc as [Hc|[? ?]]; [discriminate|].
    destruct Hm as [Hm|[? ?]]; [discriminate|].
    apply allocated_eq; assumption.
  - unfold parse_allocated. simpl. apply IH.
    + unfold has_cpu_line in Hc. simpl in Hc. unfold allocated_step.
      destruct (existsb (fun l => mem "cpu" (split l)) block) eqn:E.
      * left. exact E.
      * right. rewrite orb_false_r in Hc.
        destruct (mem "cpu" (split x)); simpl; [split; reflexivity|].
        destruct Hc as [Hc|Hc]; [discriminate|].
        destruct (mem "memory" (split x)); simpl; exact Hc.
    + unfold has_memory_line in Hm. simpl in Hm. unfold allocated_step.
      destruct (existsb
                  (fun l => negb (mem "cpu" (split l)) && mem "memory" (split l))
                  block) eqn:E.
      * left. exact E.
      * right. rewrite orb_false_r in Hm.
        destruct (mem "cpu" (split x)); simpl in *.
        -- destruct Hm as [Hm|Hm]; [discriminate|exact Hm].
        -- destruct (mem "memory" (split x)); simpl.
           ++ split; reflexivity.
           ++ destruct Hm as [Hm|Hm]; [discriminate|exact Hm].
Qed.

(** The header and the two lines after it give no row. *)
Lemma pods_block_skips (h skip1 skip2 : string) (data : list string) :
  contains hdr_pods h = true ->
  contains hdr_pods skip1 = false -> contains hdr_allocated skip1 = false ->
  contains hdr_pods skip2 = false -> contains hdr_allocated skip2 = false ->
  non_terminated_pods_block false 0 (h :: skip1 :: skip2 :: data)
  = non_terminated_pods_block true 2 data.
Proof.
  intros Hh Hp1 Ha1 Hp2 Ha2. cbn [non_terminated_pods_block].
  rewrite Hh, Hp1, Ha1, Hp2, Ha2. reflexivity.
Qed.

Lemma pods_block_data (data : list string) :
  Forall (fun l => contains hdr_pods l = false
                   /\ contains hdr_allocated l = false) data ->
  non_terminated_pods_block true 2 data = map strip data.
Proof.
  induction 1 as [|x data [Hp Ha] _ IH]; simpl.
  - reflexivity.
  - rewrite Hp, Ha. simpl. rewrite IH. reflexivity.
Qed.

(** The loop over the block returns exactly when every accepted line
    formats, and then with one row per accepted line, in order. *)
Lemma pod_details_returns (block : list string) :
  forall rows,
    pod_details block = Ok rows <->
    Forall2 (fun tokens row => format_tokens tokens = Ok row)
      (filter_map accepted_tokens block) rows.
Proof.
  induction block as [|x block IH]; intros rows; cbn [pod_details filter_map].
  - split.
    + intros H. injection H as <-. constructor.
    + intros H. inversion H. reflexivity.
  - destruct x as [|c x]; [exact (IH rows)|].
    unfold accepted_tokens.
    destruct (9 <=? List.length (split (String c x)))%nat; [|exact (IH rows)].
    change (pod_row (split (String c x)))
      with (format_tokens
              [nth 0 (split (String c x)) ""; nth 1 (split (String c x)) "";
               nth 2 (split (String c x)) ""; nth 4 (split (String c x)) "";
               nth 6 (split (String c x)) ""; nth 8 (split (String c x)) ""]).
    set (t := [nth 0 (split (String c x)) ""; nth 1 (split (String c x)) "";
               nth 2 (split (String c x)) ""; nth 4 (split (String c x)) "";
               nth 6 (split (String c x)) ""; nth 8 (split (String c x)) ""]).
    split.
    + intros H. destruct (format_tokens t) as [row|e] eqn:Er; [|discriminate].
      cbn [bind] in H.
      destruct (pod_details block) as [rs|e] eqn:Ers; [|discriminate].
      cbn [bind] in H. injection H as <-.
      constructor; [exact Er | apply IH; reflexivity].
    + intros H. inversion H as [|? row ? rs Hrow Hrs]; subst.
      rewrite Hrow. cbn [bind].
      apply IH in Hrs. rewrite Hrs. reflexivity.
Qed.

Lemma allocated_block_absent (lines : list string) :
  Forall (fun l => contains hdr_allocated l = false) lines ->
  allocated_resources_block false lines = [].
Proof.
  induction 1 as [|x lines Hx _ IH]; cbn [allocated_resources_block].
  - reflexivity.
  - rewrite Hx. destruct (contains hdr_events x); exact IH.
Qed.

Lemma pods_block_absent (lines : list string) (k : Z) :
  Forall (fun l => contains hdr_pods l = false) lines ->
  non_terminated_pods_block false k lines = [].
Proof.
  induction 1 as [|x lines Hx _ IH]; cbn [non_terminated_pods_block].
  - reflexivity.
  - rewrite Hx. destruct (contains hdr_allocated x); exact IH.
Qed.

(** Without the two headers the scan returns, with empty aggregate fields
    and no pod-detail row. *)
Lemma scan_defaults_without_headers (text : string) :
  Forall (fun l => contains hdr_allocated l = false) (splitlines text) ->
  Forall (fun l => contains hdr_pods l = false) (splitlines text) ->
  scan_describe text
  = Ok {| raw := allocated_init;
          num_pods := find_num_pods "0" text;
          pod_details_data := [] |}.
Proof.
  intros Ha Hp. unfold scan_describe.
  destruct text as [|c text]; [reflexivity|].
  rewrite (allocated_block_absent _ Ha), (pods_block_absent _ 0 Hp).
  reflexivity.
Qed.

End Scanner.

(* ===================================================================== *)
(** * Claims about the scanner *)
(* ===================================================================== *)

Section ScannerClaims.

Import Node RowSpec Samples.

(** C10. In the loop over the allocated-resources block, a line whose
    tokens include both "cpu" and "memory" sets the CPU request and limit
    from tokens 1 and 3 and leaves the memory request and limit as they
    were: the cpu branch shadows the memory branch. *)
Theorem cpu_branch_shadows_memory (st : allocated) (line : string) :
  mem "cpu" (split line) = true ->
  mem "memory" (split line) = true ->
  mem_req_raw (allocated_step st line) = mem_req_raw st
  /\ mem_limit_raw (allocated_step st line) = mem_limit_raw st
  /\ cpu_req (allocated_step st line) = get_or_empty (split line) 1
  /\ cpu_limit (allocated_step st line) = get_or_empty (split line) 3.
Proof.
  intros Hcpu _. unfold allocated_step. rewrite Hcpu. simpl.
  repeat split; reflexivity.
Qed.

Lemma cpu_branch_shadows_memory_witness :
  let st := {| cpu_req := "1"; cpu_limit := "2";
               mem_req_raw := "8Gi"; mem_limit_raw := "9Gi" |} in
  let line := "  cpu memory 100m (5%)" in
  mem_req_raw (allocated_step st line) = "8Gi"
  /\ mem_limit_raw (allocated_step st line) = "9Gi"
  /\ cpu_req (allocated_step st line) = "memory"
  /\ cpu_limit (allocated_step st line) = "(5%)".
Proof.
  intros st line.
  exact (cpu_branch_shadows_memory st line eq_refl eq_refl).
Defined.

(** C4, as the code has it.  When a "Non-terminated Pods:" header repeats,
    the pod-detail rows of the occurrences are concatenated in source order.
    When an "Allocated resources:" header repeats, the lines of the later
    occurrence are processed after those of the earlier ones, starting from
    the fields these left; the result is that of the last occurrence alone
    whenever the last occurrence has a cpu line and a memory line. *)
Theorem repeated_headers
  (l1 l2 l1' l2' : list string) (h h' : string) :
  contains hdr_pods h = true ->
  contains hdr_allocated h' = true ->
  pod_details (non_terminated_pods_block false 0 (l1 ++ h :: l2))
  = (r1 <- pod_details (non_terminated_pods_block false 0 l1) ;;
     r2 <- pod_details (non_terminated_pods_block false 0 (h :: l2)) ;;
     Ok (r1 ++ r2)%list)
  /\ parse_allocated allocated_init
       (allocated_resources_block false (l1' ++ h' :: l2'))
     = parse_allocated
         (parse_allocated allocated_init (allocated_resources_block false l1'))
         (allocated_resources_block false (h' :: l2'))
  /\ (has_cpu_line (allocated_resources_block false (h' :: l2')) = true ->
      has_memory_line (allocated_resources_block false (h' :: l2')) = true ->
      parse_allocated allocated_init
        (allocated_resources_block false (l1' ++ h' :: l2'))
      = parse_allocated allocated_init
          (allocated_resources_block false (h' :: l2'))).
Proof.
  intros Hh Hh'. split; [|split].
  - rewrite pods_block_app_header by exact Hh. apply pod_details_app.
  - rewrite allocated_block_app_header by exact Hh'.
    apply parse_allocated_app.
  - intros Hc Hm. rewrite allocated_block_app_header by exact Hh'.
    rewrite parse_allocated_app.
    apply parse_allocated_determined; left; assumption.
Qed.

Lemma repeated_headers_witness :
  pod_details
    (non_terminated_pods_block false 0 (pods_first ++ pods_second))
  = Ok [["default"; "web-1"; "100m"; "200m"; ""; ""];
        ["kube-system"; "dns-1"; "250m"; "500m"; ""; ""]]
  /\ parse_allocated allocated_init
       (allocated_resources_block false (allocated_first ++ allocated_second))
     = {| cpu_req := "1895m"; cpu_limit := "3";
          mem_req_raw := "1Gi"; mem_limit_raw := "2Gi" |}.
Proof.
  pose proof (repeated_headers pods_first (tl pods_second)
                allocated_first (tl allocated_second)
                (hd "" pods_second) (hd "" allocated_second)
                eq_refl eq_refl) as [Hp [Ha _]].
  split.
  - etransitivity; [exact Hp|]. vm_compute. reflexivity.
  - etransitivity; [exact Ha|]. vm_compute. reflexivity.
Defined.

(** C4 as stated fails: with a repeated "Non-terminated Pods:" header the
    rows are not those of the last occurrence alone. *)
Lemma repeated_pods_header_not_last_wins :
  pod_details
    (non_terminated_pods_block false 0
       (splitlines (unlines (pods_first ++ pods_second))))
  <> pod_details
       (non_terminated_pods_block false 0 (splitlines (unlines pods_second))).
Proof.
  vm_compute. discriminate.
Qed.

(** The part of C6 that holds.  After the header of a "Non-terminated Pods:"
    section and the two lines that follow it, the scan of the section
    returns exactly when every data line of at least nine whitespace tokens
    has fields that the formatters accept; the rows are then one per such
    line, in the order of the lines, each built from tokens 0, 1, 2, 4, 6
    and 8, and lines with fewer tokens contribute nothing. *)
Lemma pod_rows_of_section
  (h skip1 skip2 : string) (data : list string) (rows : list (list string)) :
  contains hdr_pods h = true ->
  Forall (fun l => contains hdr_pods l = false
                   /\ contains hdr_allocated l = false)
         (skip1 :: skip2 :: data) ->
  pod_details (non_terminated_pods_block false 0 (h :: skip1 :: skip2 :: data))
  = Ok rows
  <-> Forall2 (fun tokens row => format_tokens tokens = Ok row)
        (filter_map accepted_tokens (map strip data)) rows.
Proof.
  intros Hh Hall.
  inversion Hall as [|? ? [Hp1 Ha1] Hall']; subst.
  inversion Hall' as [|? ? [Hp2 Ha2] Hdata]; subst.
  rewrite (pods_block_skips h skip1 skip2 data Hh Hp1 Ha1 Hp2 Ha2).
  rewrite pods_block_data by exact Hdata.
  apply pod_details_returns.
Qed.

(** An instance: a six-token line and a blank line between two rows. *)
Lemma pod_rows_of_section_example :
  pod_details
    (non_terminated_pods_block false 0
       ("Non-terminated Pods:          (3 in total)"
        :: pods_header_row :: pods_dashes_row :: pods_mixed))
  = Ok [["default"; "web-1"; "100m"; "500m"; "128Mi"; "1024Mi"];
        ["kube-system"; "dns-1"; "250m"; "500m"; ""; ""]].
Proof.
  vm_compute. reflexivity.
Qed.

(** C6 at a failing input.  In a section with two lines of eleven tokens
    each, the first well formed and the second with the memory request
    "1.2.3", no row is captured: the loop raises [ValueError] on the second
    line.  The first line alone gives its row. *)
Theorem accepted_row_lost_on_raise :
  accepted_tokens
    "  default    web-1   100m (2%)   200m (5%)   0 (0%)   0 (0%)   3d"
  = Some ["default"; "web-1"; "100m"; "200m"; "0"; "0"]
  /\ pod_details (non_terminated_pods_block false 0 pods_first)
     = Ok [["default"; "web-1"; "100m"; "200m"; ""; ""]]
  /\ pod_details (non_terminated_pods_block false 0 pods_good_then_bad)
     = Raise ValueError
  /\ scan_describe (unlines pods_good_then_bad) = Raise ValueError.
Proof.
  vm_compute. repeat split; reflexivity.
Qed.

(** C7 at a failing input: a pod row whose memory request is "1.2.3" makes
    the scan raise [ValueError], and [get_node_details] with it. *)
Theorem scan_raises_on_malformed_memory :
  scan_describe text_two_dots = Raise ValueError
  /\ get_node_details "" "" text_two_dots = Raise ValueError.
Proof.
  vm_compute. split; reflexivity.
Qed.

(** The example of C7: the text with only the pod-count line. *)
Lemma scan_pod_count_only :
  scan_describe "Non-terminated Pods: (7 in total)"
  = Ok {| raw := allocated_init; num_pods := "7"; pod_details_data := [] |}.
Proof.
  vm_compute. reflexivity.
Qed.

End ScannerClaims.

(* ===================================================================== *)
(** * Known values of the float embedding *)
(* ===================================================================== *)

Section FloatChecks.

(** [float("0.1")] is 0x1.999999999999ap-4; the least subnormal and the
    greatest finite value; halves round to even on printing. *)
Example float_known_values :
  of_string "0.1" = Ok (Fin false (7205759403792794 * 2 ^ (1074 - 56)))
  /\ of_string "4.9e-324" = Ok (Fin false 1)
  /\ of_string "1.7976931348623157e308"
     = Ok (Fin false ((2 ^ 53 - 1) * 2 ^ (1074 + 971)))
  /\ of_string "1e309" = Ok (Inf false)
  /\ of_string " -1_0.5e+1 " = Ok (Fin true (105 * one))
  /\ of_string "1.2.3" = Raise ValueError.
Proof.
  vm_compute. repeat split; reflexivity.
Qed.

Example format_known_values :
  format_fixed 2 (Fin false (one / 8)) = "0.12"
  /\ format_fixed 2 (Fin false (3 * one / 8)) = "0.38"
  /\ format_fixed 0 (Fin false (one / 2)) = "0"
  /\ format_fixed 0 (Fin false (3 * one / 2)) = "2"
  /\ format_fixed 2 (Fin true 0) = "-0.00"
  /\ format_fixed 2 NaN = "nan".
Proof.
  vm_compute. repeat split; reflexivity.
Qed.

End FloatChecks.

(* ===================================================================== *)
(** * Claims about the quantity converter *)
(* ===================================================================== *)

Section ConverterClaims.

(** C1 at failing inputs.  "1.2.3" matches the pattern of
    [convert_memory_to_bytes], and [float] then raises [ValueError]; a
    digit string of 310 digits reads as an infinity and [int] raises
    [OverflowError]. *)
Theorem bytes_raises_on_matched_text :
  match_quantity "1.2.3" = Some ("1.2.3", "")
  /\ convert_memory_to_bytes "1.2.3" = Raise ValueError
  /\ convert_memory_to_bytes "." = Raise ValueError
  /\ convert_memory_to_bytes (String "1" (repeat_char "0" 309))
     = Raise OverflowError.
Proof.
  vm_compute. repeat split; reflexivity.
Qed.

(** The part of C1 that holds: an empty text, and a text that the pattern
    does not match, give 0. *)
Lemma bytes_zero_when_unmatched (q : string) :
  q = "" \/ match_quantity q = None -> convert_memory_to_bytes q = Ok 0.
Proof.
  intros [->|H]; [reflexivity|]. apply bytes_of_no_match, H.
Qed.

(** C2 at a failing input.  [format_cpu_cores] raises [ValueError] on
    "abcm": the branch for an "m" suffix calls [float] outside the [try].
    [format_cpu_m] returns "abcm" unchanged. *)
Theorem cpu_cores_raises_on_malformed_millicores :
  format_cpu_cores "abcm" = Raise ValueError
  /\ format_cpu_m "abcm" = Ok "abcm".
Proof.
  vm_compute. split; reflexivity.
Qed.

(** The part of C2 that holds: a text that [float] rejects and that does
    not end in "m" is returned unchanged by both formatters. *)
Lemma cpu_pass_through (s : string) :
  endswith_char "m" s = false ->
  Float.of_string s = Raise ValueError ->
  format_cpu_cores s = Ok s /\ format_cpu_m s = Ok s.
Proof.
  intros Hm Hf. unfold format_cpu_cores, format_cpu_m.
  rewrite Hm, Hf. destruct s; split; reflexivity.
Qed.

(** The part of C3 that holds, on the manual parsing.  For a text [v] of
    digits and dots that [float] reads as the non-negative value
    k * 2^-1074:
    - with one of the twelve suffixes Ki, K, KiB, ..., TiB, spelled in this
      letter case, the byte count is the value times 1024, 1024^2, 1024^3 or
      1024^4, truncated to an integer (provided the product is below 2^1024);
    - with no suffix, or one of the other suffixes that the pattern accepts,
      it is the value truncated to an integer;
    - with one of the twelve suffixes in lower case, and with any text
      after [v] that starts with a character outside [0-9.KMGTPEZY] and is
      not a lone final newline, it is 0. *)
Theorem bytes_of_suffixed (v : string) (k : Z) :
  all_chars is_num_char v = true ->
  of_string v = Ok (Fin false k) ->
  (forall u p, In (u, p) binary_suffixes ->
     k * 1024 ^ p < overflow_threshold ->
     convert_memory_to_bytes (v ++ u) = Ok (k * 1024 ^ p / one))
  /\ convert_memory_to_bytes v = Ok (k / one)
  /\ (forall u, In u unlisted_suffixes ->
        convert_memory_to_bytes (v ++ u) = Ok (k / one))
  /\ (forall u, In u lower_case_suffixes ->
        convert_memory_to_bytes (v ++ u) = Ok 0)
  /\ (forall c r, is_num_char c = false -> is_unit_letter c = false ->
        at_end (String c r) = false ->
        convert_memory_to_bytes (v ++ String c r) = Ok 0).
Proof.
  intros Hv Hf. pose proof (of_string_nonempty v _ Hf) as Hne.
  split; [|split; [|split; [|split]]].
  - intros u p. apply bytes_binary_suffix; assumption.
  - apply bytes_plain; assumption.
  - intros u. apply bytes_unlisted_suffix; assumption.
  - intros u. apply bytes_lower_suffix; assumption.
  - intros c r. apply bytes_rejected_suffix; assumption.
Qed.

(** Beyond the range of C5: a count that is not a binary64 value is
    rounded when it is read, here by 2^26 bytes (manual parsing). *)
Lemma gib_round_trip_large_count :
  (s <- convert_memory_to_gib (of_int (2 ^ 80 + 2 ^ 26)) ;;
   convert_memory_to_bytes s) = Ok (2 ^ 80).
Proof.
  vm_compute. reflexivity.
Qed.

(** The examples of C8: empty, zero and unmatched texts (on the last two,
    when the [numfmt] command yields no value). *)
Lemma gib_mib_empty_examples :
  map convert_memory_to_bytes [""; "0"; "garbage"] = [Ok 0; Ok 0; Ok 0]
  /\ map convert_memory_to_gib [""; "0"; "garbage"] = [Ok ""; Ok ""; Ok ""]
  /\ map convert_memory_to_mib [""; "0"; "garbage"] = [Ok ""; Ok ""; Ok ""].
Proof.
  vm_compute. repeat split; reflexivity.
Qed.

(** C9. The examples of the specification. *)
Theorem converter_examples :
  format_cpu_cores "500m" = Ok "0.50cores"
  /\ format_cpu_cores "2" = Ok "2.00cores"
  /\ format_cpu_m "0.5" = Ok "500m"
  /\ format_cpu_m "250m" = Ok "250m"
  /\ convert_memory_to_bytes "1Gi" = Ok 1073741824
  /\ convert_memory_to_gib "1073741824" = Ok "1.00Gi"
  /\ convert_memory_to_mib "2097152" = Ok "2Mi".
Proof.
  vm_compute. repeat split; reflexivity.
Qed.

End ConverterClaims.

(* ===================================================================== *)
(** * The [numfmt] command and the manual parsing *)
(* ===================================================================== *)

Section NumfmtCommand.

(** When the command yields no value, the function is its manual parsing. *)
Lemma host_manual (run : string -> option string) (q : string) :
  Host.numfmt_bytes run q = None ->
  Host.convert_memory_to_bytes run q = convert_memory_to_bytes q.
Proof.
  intros H. unfold Host.convert_memory_to_bytes. rewrite H.
  destruct q; reflexivity.
Qed.

Lemma host_manual_gib (run : string -> option string) (q : string) :
  Host.numfmt_bytes run q = None ->
  Host.convert_memory_to_gib run q = convert_memory_to_gib q.
Proof.
  intros H. unfold Host.convert_memory_to_gib, convert_memory_to_gib.
  rewrite (host_manual run q H). reflexivity.
Qed.

Lemma host_manual_mib (run : string -> option string) (q : string) :
  Host.numfmt_bytes run q = None ->
  Host.convert_memory_to_mib run q = convert_memory_to_mib q.
Proof.
  intros H. unfold Host.convert_memory_to_mib, convert_memory_to_mib.
  rewrite (host_manual run q H). reflexivity.
Qed.

Lemma no_command_no_value (q : string) :
  Host.numfmt_bytes (fun _ => None) q = None.
Proof. reflexivity. Qed.

(** What the function returns came from the command or from the manual
    parsing. *)
Lemma host_bytes_cases (run : string -> option string) (q : string) (n : Z) :
  Host.convert_memory_to_bytes run q = Ok n ->
  Host.numfmt_bytes run q = Some n \/ convert_memory_to_bytes q = Ok n.
Proof.
  unfold Host.convert_memory_to_bytes. destruct q as [|c q'].
  - intros H. right. exact H.
  - destruct (Host.numfmt_bytes run (String c q')) as [m|].
    + intros H. injection H as <-. left. reflexivity.
    + intros H. right. exact H.
Qed.

Lemma numfmt_bytes_shape (run : string -> option string) (q : string) (n : Z) :
  Host.numfmt_bytes run q = Some n ->
  exists s k, finite_magnitude k /\ n = apply_sign s (k / one).
Proof.
  unfold Host.numfmt_bytes.
  destruct (run (Host.numfmt_command q)) as [out|]; [|discriminate].
  destruct out as [|c out']; [discriminate|].
  destruct (of_string (String c out')) as [x|e] eqn:Ex; cbn [bind];
    [|discriminate].
  destruct x as [|s|s k]; cbn [to_int]; try discriminate.
  intros H. injection H as <-. exists s, k.
  split; [exact (of_string_finite _ _ _ Ex) | reflexivity].
Qed.

(** A positive byte count is the integer part of a finite binary64 value. *)
Lemma host_positive_shape (run : string -> option string) (q : string) (n : Z) :
  Host.convert_memory_to_bytes run q = Ok n -> 0 < n ->
  exists k, finite_magnitude k /\ n = k / one.
Proof.
  intros H Hn. destruct (host_bytes_cases run q n H) as [Hc|Hm].
  - destruct (numfmt_bytes_shape run q n Hc) as (s & k & Hk & ->).
    exists k. split; [exact Hk|]. destruct s; [|reflexivity].
    exfalso. cbn [apply_sign] in Hn.
    assert (0 <= k / one)
      by (apply Z.div_pos; [exact (representable_nonneg k (proj1 Hk))
                           | exact unit_pos]).
    lia.
  - exact (bytes_result_shape q n Hm).
Qed.

(** The GiB text of a positive count. *)
Lemma gib_display (n : Z) :
  0 < n -> (exists k, finite_magnitude k /\ n = k / one) ->
  exists r, 2 * Z.abs (r * 2 ^ 30 - 100 * n) <= 2 ^ 30
    /\ 0 <= r
    /\ (gib <- int_truediv n (1024 * 1024 * 1024) ;;
        Ok (format_fixed 2 gib ++ "Gi"))
       = Ok (digits_of (r / 100) ++ "."
             ++ zero_pad 2 (digits_of (r mod 100)) ++ "Gi").
Proof.
  intros Hn (k & Hk & En). rewrite pow2_30.
  subst n. rewrite (int_truediv_pow2 k 30 Hk) by lia.
  cbn [bind format_fixed]. set (n := k / one) in *.
  change (10 ^ Z.of_nat 2) with 100.
  assert (Hu30 : one = 2 ^ 30 * 2 ^ (1074 - 30)).
  { rewrite (unit_split 30) by lia. ring. }
  exists (div_rne (n * 2 ^ (1074 - 30) * 100) one). split; [|split].
  - replace (n * 2 ^ (1074 - 30) * 100)
      with ((100 * n) * 2 ^ (1074 - 30)) by ring.
    rewrite Hu30. apply div_rne_scaled; [lia|reflexivity|reflexivity].
  - apply div_rne_spec; [|apply unit_pos].
    assert (0 < 2 ^ (1074 - 30)) by reflexivity. nia.
  - cbn [append]. rewrite !append_assoc. reflexivity.
Qed.

(** The MiB text of a positive count. *)
Lemma mib_display (n : Z) :
  0 < n -> (exists k, finite_magnitude k /\ n = k / one) ->
  exists r, 2 * Z.abs (r * 2 ^ 20 - n) <= 2 ^ 20
    /\ 0 <= r
    /\ (mib <- int_truediv n (1024 * 1024) ;;
        Ok (format_fixed 0 mib ++ "Mi"))
       = Ok (digits_of r ++ "Mi").
Proof.
  intros Hn (k & Hk & En). rewrite pow2_20.
  subst n. rewrite (int_truediv_pow2 k 20 Hk) by lia.
  cbn [bind format_fixed]. set (n := k / one) in *.
  change (10 ^ Z.of_nat 0) with 1. rewrite Z.mul_1_r, Z.div_1_r.
  assert (Hu20 : one = 2 ^ 20 * 2 ^ (1074 - 20)).
  { rewrite (unit_split 20) by lia. ring. }
  exists (div_rne (n * 2 ^ (1074 - 20)) one). split; [|split].
  - rewrite Hu20. apply div_rne_scaled; [lia|reflexivity|reflexivity].
  - apply div_rne_spec; [|apply unit_pos].
    assert (0 < 2 ^ (1074 - 20)) by reflexivity. nia.
  - cbn [append]. rewrite append_nil_r. reflexivity.
Qed.

(** The part of C8 that holds, for the whole function and whatever the
    command prints: on a text where [convert_memory_to_bytes] returns [n],
    the GiB and MiB texts are empty exactly when [n <= 0]; otherwise they
    are the integer nearest to 100 * n / 2^30 written with two decimals and
    "Gi", and the integer nearest to n / 2^20 and "Mi". *)
Lemma gib_mib_of_returned_count
  (run : string -> option string) (q : string) (n : Z) :
  Host.convert_memory_to_bytes run q = Ok n ->
  (Host.convert_memory_to_gib run q = Ok "" <-> n <= 0)
  /\ (0 < n ->
      exists r, 2 * Z.abs (r * 2 ^ 30 - 100 * n) <= 2 ^ 30
        /\ Host.convert_memory_to_gib run q
           = Ok (digits_of (r / 100) ++ "."
                 ++ zero_pad 2 (digits_of (r mod 100)) ++ "Gi"))
  /\ (Host.convert_memory_to_mib run q = Ok "" <-> n <= 0)
  /\ (0 < n ->
      exists r, 2 * Z.abs (r * 2 ^ 20 - n) <= 2 ^ 20
        /\ Host.convert_memory_to_mib run q = Ok (digits_of r ++ "Mi")).
Proof.
  intros H.
  assert (Hg : 0 < n ->
    exists r, 2 * Z.abs (r * 2 ^ 30 - 100 * n) <= 2 ^ 30
      /\ Host.convert_memory_to_gib run q
         = Ok (digits_of (r / 100) ++ "."
               ++ zero_pad 2 (digits_of (r mod 100)) ++ "Gi")).
  { intros Hn.
    destruct (gib_display n Hn (host_positive_shape run q n H Hn))
      as (r & Hr & _ & E).
    exists r. split; [exact Hr|].
    unfold Host.convert_memory_to_gib. rewrite H. cbn [bind].
    replace (n <=? 0) with false by (symmetry; apply Z.leb_gt; lia).
    exact E. }
  assert (Hm : 0 < n ->
    exists r, 2 * Z.abs (r * 2 ^ 20 - n) <= 2 ^ 20
      /\ Host.convert_memory_to_mib run q = Ok (digits_of r ++ "Mi")).
  { intros Hn.
    destruct (mib_display n Hn (host_positive_shape run q n H Hn))
      as (r & Hr & _ & E).
    exists r. split; [exact Hr|].
    unfold Host.convert_memory_to_mib. rewrite H. cbn [bind].
    replace (n <=? 0) with false by (symmetry; apply Z.leb_gt; lia).
    exact E. }
  split; [|split; [exact Hg|split; [|exact Hm]]].
  - split.
    + intros E. destruct (Z_le_gt_dec n 0) as [|Hn]; [assumption|exfalso].
      destruct (Hg ltac:(lia)) as (r & _ & E').
      rewrite E' in E. injection E as E. revert E.
      apply (append_suffix_nonempty (digits_of (r / 100)) ".").
    + intros Hn. unfold Host.convert_memory_to_gib. rewrite H. cbn [bind].
      replace (n <=? 0) with true by (symmetry; apply Z.leb_le; lia).
      reflexivity.
  - split.
    + intros E. destruct (Z_le_gt_dec n 0) as [|Hn]; [assumption|exfalso].
      destruct (Hm ltac:(lia)) as (r & _ & E').
      rewrite E' in E. injection E as E. revert E.
      apply append_suffix_nonempty.
    + intros Hn. unfold Host.convert_memory_to_mib. rewrite H. cbn [bind].
      replace (n <=? 0) with true by (symmetry; apply Z.leb_le; lia).
      reflexivity.
Qed.

Lemma bytes_two_dots : convert_memory_to_bytes "1.2.3" = Raise ValueError.
Proof. vm_compute. reflexivity. Qed.

(** C8 at failing inputs.  On "1.2.3", which the pattern of the manual
    parsing matches and [float] rejects, [convert_memory_to_gib] and
    [convert_memory_to_mib] raise [ValueError] instead of returning the
    empty string, whenever the [numfmt] command yields no value for it.
    When the command line prints "-5", the byte count is -5, not 0, and
    both texts are empty. *)
Theorem gib_mib_diverge :
  (forall run, Host.numfmt_bytes run "1.2.3" = None ->
     Host.convert_memory_to_gib run "1.2.3" = Raise ValueError
     /\ Host.convert_memory_to_mib run "1.2.3" = Raise ValueError)
  /\ Host.convert_memory_to_bytes (fun _ => Some "-5") "; echo -5" = Ok (-5)
  /\ Host.convert_memory_to_gib (fun _ => Some "-5") "; echo -5" = Ok ""
  /\ Host.convert_memory_to_mib (fun _ => Some "-5") "; echo -5" = Ok "".
Proof.
  split.
  - intros run H.
    rewrite (host_manual_gib run _ H), (host_manual_mib run _ H).
    unfold convert_memory_to_gib, convert_memory_to_mib.
    rewrite bytes_two_dots. split; reflexivity.
  - assert (E : Host.convert_memory_to_bytes (fun _ => Some "-5") "; echo -5"
                = Ok (-5)) by (vm_compute; reflexivity).
    unfold Host.convert_memory_to_gib, Host.convert_memory_to_mib.
    rewrite E. repeat split; reflexivity.
Qed.

(** C3 at failing inputs.  When the [numfmt] command yields no value:
    "1ki" gives 0, not 1024, although the code lower-cases the suffix
    before it compares it; "5X" gives 0, not 5.  When the command prints
    a value, that value is returned: 2^50 for "1P", not 1, and 1025 for
    "1.0001K" where the product truncated to an integer is 1024. *)
Theorem suffix_results_diverge :
  (forall run, Host.numfmt_bytes run "1ki" = None ->
     Host.convert_memory_to_bytes run "1ki" = Ok 0)
  /\ (forall run, Host.numfmt_bytes run "5X" = None ->
        Host.convert_memory_to_bytes run "5X" = Ok 0)
  /\ Host.convert_memory_to_bytes (fun _ => Some "1125899906842624") "1P"
     = Ok (2 ^ 50)
  /\ Host.convert_memory_to_bytes (fun _ => None) "1P" = Ok 1
  /\ Host.convert_memory_to_bytes (fun _ => Some "1025") "1.0001K" = Ok 1025
  /\ Host.convert_memory_to_bytes (fun _ => None) "1.0001K" = Ok 1024.
Proof.
  split; [|split].
  - intros run H. rewrite (host_manual run _ H). vm_compute. reflexivity.
  - intros run H. rewrite (host_manual run _ H). vm_compute. reflexivity.
  - vm_compute. repeat split; reflexivity.
Qed.

(** X1. A negative byte count can only come from the [numfmt] command
    line: whenever [convert_memory_to_bytes] returns a negative number,
    that number is what the command printed; the manual parsing never
    returns one. *)
Theorem bytes_negative_only_from_command
  (run : string -> option string) (q : string) (n : Z) :
  Host.convert_memory_to_bytes run q = Ok n -> n < 0 ->
  Host.numfmt_bytes run q = Some n
  /\ forall m, convert_memory_to_bytes q = Ok m -> 0 <= m.
Proof.
  intros H Hn. split.
  - destruct (host_bytes_cases run q n H) as [Hc|Hm]; [exact Hc|].
    pose proof (bytes_nonneg q n Hm). lia.
  - intros m. apply bytes_nonneg.
Qed.

Lemma bytes_negative_only_from_command_witness :
  Host.numfmt_bytes (fun _ => Some "-5") "; echo -5" = Some (-5)
  /\ forall m, convert_memory_to_bytes "; echo -5" = Ok m -> 0 <= m.
Proof.
  apply (bytes_negative_only_from_command (fun _ => Some "-5") "; echo -5" (-5)).
  - vm_compute. reflexivity.
  - reflexivity.
Defined.

End NumfmtCommand.

(* ===================================================================== *)
(** * The converters on decimal texts, and how they fail *)
(* ===================================================================== *)

Section Quantities.

Lemma bind_raise {A B : Type} (r : result A) (k : A -> result B) (e : exn) :
  bind r k = Raise e ->
  r = Raise e \/ exists a, r = Ok a /\ k a = Raise e.
Proof.
  destruct r as [a|e']; cbn; intros H; [right; eauto|].
  injection H as <-. left. reflexivity.
Qed.

Lemma to_int_raise (x : float) (e : exn) :
  nonneg_float x -> to_int x = Raise e -> e = OverflowError /\ x = Inf false.
Proof.
  intros [->|(k & -> & _)]; cbn; intros H.
  - injection H as <-. auto.
  - discriminate.
Qed.

Lemma bytes_of_float_raise (x : float) (g2 : string) (e : exn) :
  nonneg_float x -> bytes_of_float x g2 = Raise e -> e = OverflowError.
Proof.
  intros Hx. unfold bytes_of_float.
  pose proof (mul_f1024_nonneg _ Hx) as H1.
  pose proof (mul_f1024_nonneg _ H1) as H2.
  pose proof (mul_f1024_nonneg _ H2) as H3.
  pose proof (mul_f1024_nonneg _ H3) as H4.
  repeat match goal with
         | |- context [if ?b then _ else _] => destruct b
         end;
    intros H; eapply to_int_raise in H; try apply H; assumption.
Qed.

(** X2. How [convert_memory_to_bytes] fails.  It raises only on a text that
    the pattern matches: [ValueError] when [float] rejects the digits and
    dots of group 1 (and always then), [OverflowError] when [float] accepts
    them and the scaled value is infinite.  No other exception leaves it. *)
Theorem bytes_failures (q : string) (e : exn) :
  convert_memory_to_bytes q = Raise e <->
  exists g1 g2, match_quantity q = Some (g1, g2)
    /\ ((e = ValueError /\ of_string g1 = Raise ValueError)
        \/ (e = OverflowError
            /\ exists x, of_string g1 = Ok x
                         /\ bytes_of_float x g2 = Raise OverflowError)).
Proof.
  split.
  - intros H. destruct (match_quantity q) as [[g1 g2]|] eqn:Em.
    + rewrite (bytes_of_match q g1 g2 Em) in H. exists g1, g2.
      split; [reflexivity|].
      apply bind_raise in H as [H|(x & Hx & H)].
      * pose proof (of_string_raises _ _ H) as ->. left. auto.
      * right.
        pose proof (match_quantity_num_chars q g1 g2 Em) as Hc.
        pose proof (of_string_num_chars g1 x Hc Hx) as Hn.
        pose proof (bytes_of_float_raise x g2 e Hn H) as ->.
        split; [reflexivity|]. exists x. auto.
    + rewrite (bytes_of_no_match q Em) in H. discriminate.
  - intros (g1 & g2 & Em & [[-> H]|[-> (x & Hx & H)]]);
      rewrite (bytes_of_match q g1 g2 Em).
    + rewrite H. reflexivity.
    + rewrite Hx. exact H.
Qed.

Lemma binary_suffix_power (u : string) (p : Z) :
  In (u, p) binary_suffixes -> 1 <= p <= 4.
Proof.
  unfold binary_suffixes. intros H.
  repeat (destruct H as [H|H]; [injection H as _ <-; lia|]). destruct H.
Qed.

Lemma pow_1024 (p : Z) : 0 <= p -> 1024 ^ p = 2 ^ (10 * p).
Proof.
  intros Hp. change 1024 with (2 ^ 10). rewrite <- Z.pow_mul_r by lia.
  reflexivity.
Qed.

Lemma whole_units_bytes (n : Z) (u : string) (p : Z) :
  0 <= n <= 2 ^ 53 -> In (u, p) binary_suffixes ->
  convert_memory_to_bytes (of_int n ++ u) = Ok (n * 1024 ^ p).
Proof.
  intros Hn Hu. pose proof (binary_suffix_power u p Hu) as Hp.
  pose proof unit_pos as Hpos.
  rewrite of_int_nonneg by lia.
  destruct (digits_of_spec n ltac:(lia)) as (_ & Hall & _ & _).
  rewrite (bytes_binary_suffix (digits_of n) (n * one) u p).
  - replace (n * one * 1024 ^ p) with (n * 1024 ^ p * one) by ring.
    rewrite Z.div_mul by lia. reflexivity.
  - revert Hall. apply all_chars_impl, is_digit_num_char.
  - apply of_string_digits_of. lia.
  - exact Hu.
  - rewrite threshold_unit.
    assert (H40 : 1024 ^ p <= 2 ^ 40).
    { rewrite pow_1024 by lia. apply Z.pow_le_mono_r; lia. }
    assert (Hp0 : 0 < 1024 ^ p) by (apply Z.pow_pos_nonneg; lia).
    assert (H : 2 ^ 53 * 2 ^ 40 < 2 ^ 1024) by reflexivity.
    set (A := 2 ^ 1024) in *. set (B := 1024 ^ p) in *.
    set (C := 2 ^ 40) in *. set (D := 2 ^ 53) in *.
    assert (n * B <= D * C) by nia.
    nia.
Qed.

(** X3. Whole numbers of binary units are converted exactly.  For an
    integer 0 < n <= 2^53 written in decimal and one of the twelve suffixes
    Ki, K, KiB, ..., TiB with multiplier 1024^p: the byte count is
    n * 1024^p; from MiB upwards [convert_memory_to_mib] writes the exact
    number of MiB, and from GiB upwards [convert_memory_to_gib] writes the
    exact number of GiB followed by ".00". *)
Theorem whole_units_exact (n : Z) (u : string) (p : Z) :
  0 < n <= 2 ^ 53 -> In (u, p) binary_suffixes ->
  convert_memory_to_bytes (of_int n ++ u) = Ok (n * 1024 ^ p)
  /\ (2 <= p ->
      convert_memory_to_mib (of_int n ++ u)
      = Ok (of_int (n * 1024 ^ (p - 2)) ++ "Mi"))
  /\ (3 <= p ->
      convert_memory_to_gib (of_int n ++ u)
      = Ok (of_int (n * 1024 ^ (p - 3)) ++ ".00Gi")).
Proof.
  intros Hn Hu. pose proof (binary_suffix_power u p Hu) as Hp.
  pose proof (whole_units_bytes n u p ltac:(lia) Hu) as Hb.
  assert (Hp0 : 0 < 1024 ^ p) by (apply Z.pow_pos_nonneg; lia).
  assert (Hnz : n * 1024 ^ p <> 0) by nia.
  split; [exact Hb|]. split; intros Hq.
  - destruct (mib_of_positive _ _ Hb Hnz) as (r & Hr & Hr0 & E).
    rewrite E. f_equal. f_equal.
    replace (1024 ^ p) with (1024 ^ (p - 2) * 2 ^ 20) in Hr.
    2: { change (2 ^ 20) with (1024 ^ 2). rewrite <- Z.pow_add_r by lia.
         f_equal. lia. }
    assert (Hm : 0 < 1024 ^ (p - 2)) by (apply Z.pow_pos_nonneg; lia).
    set (M := 1024 ^ (p - 2)) in *.
    assert (H20 : 2 ^ 20 = 1048576) by reflexivity. rewrite H20 in Hr.
    assert (r = n * M) by nia. subst r.
    rewrite of_int_nonneg by nia. reflexivity.
  - destruct (gib_of_positive _ _ Hb Hnz) as (r & Hr & Hr0 & E).
    rewrite E. f_equal.
    replace (1024 ^ p) with (1024 ^ (p - 3) * 2 ^ 30) in Hr.
    2: { change (2 ^ 30) with (1024 ^ 3). rewrite <- Z.pow_add_r by lia.
         f_equal. lia. }
    assert (Hm : 0 < 1024 ^ (p - 3)) by (apply Z.pow_pos_nonneg; lia).
    set (M := 1024 ^ (p - 3)) in *.
    assert (H30 : 2 ^ 30 = 1073741824) by reflexivity. rewrite H30 in Hr.
    assert (r = n * M * 100) by nia. subst r.
    rewrite Z.div_mul, Z.mod_mul by lia.
    rewrite of_int_nonneg by nia. reflexivity.
Qed.

Lemma whole_units_exact_witness :
  convert_memory_to_bytes (of_int 3 ++ "Gi") = Ok (3 * 1024 ^ 3)
  /\ (2 <= 3 ->
      convert_memory_to_mib (of_int 3 ++ "Gi")
      = Ok (of_int (3 * 1024 ^ (3 - 2)) ++ "Mi"))
  /\ (3 <= 3 ->
      convert_memory_to_gib (of_int 3 ++ "Gi")
      = Ok (of_int (3 * 1024 ^ (3 - 3)) ++ ".00Gi")).
Proof.
  apply (whole_units_exact 3 "Gi" 3).
  - split; [reflexivity | discriminate].
  - cbn. tauto.
Defined.

Lemma of_Z_1000 : of_Z 1000 = Fin false (1000 * one).
Proof. unfold of_Z. apply round_ratio_integer. split; discriminate. Qed.

(** X5. How the CPU formatters fail.  [format_cpu_cores] raises exactly on a
    value that ends in "m" and whose text before the "m" [float] rejects,
    and then it is a [ValueError]; [format_cpu_m] raises exactly on a value
    not ending in "m" that [float] accepts and whose product with 1000 is
    infinite, and then it is an [OverflowError]. *)
Theorem cpu_formatter_failures (value : string) (e : exn) :
  (format_cpu_cores value = Raise e <->
   e = ValueError /\ endswith_char "m" value = true
   /\ of_string (drop_last value) = Raise ValueError)
  /\ (format_cpu_m value = Raise e <->
      e = OverflowError /\ endswith_char "m" value = false
      /\ exists x s, of_string value = Ok x
                     /\ mul x (of_Z 1000) = Inf s).
Proof.
  split.
  - destruct value as [|c r].
    + split; [intros H; discriminate H | intros (_ & H & _); discriminate H].
    + unfold format_cpu_cores.
      destruct (endswith_char "m" (String c r)) eqn:Em.
      * destruct (of_string (drop_last (String c r))) as [x|e'] eqn:Ef.
        -- cbn [bind]. unfold div. rewrite of_Z_1000.
           replace (is_zero (Fin false (1000 * one))) with false
             by (symmetry; apply Z.eqb_neq; pose proof unit_pos; lia).
           cbn [bind].
           split; [intros H; discriminate H | intros (_ & _ & H); discriminate H].
        -- pose proof (of_string_raises _ _ Ef) as ->. cbn [bind].
           split.
           ++ intros H. injection H as <-. auto.
           ++ intros (-> & _ & _). reflexivity.
      * split; [|intros (_ & H & _); discriminate H].
        destruct (of_string (String c r)) as [x|e'] eqn:Ef.
        -- cbn [bind except_ValueError]. intros H. discriminate H.
        -- pose proof (of_string_raises _ _ Ef) as ->.
           cbn [bind except_ValueError]. intros H. discriminate H.
  - destruct value as [|c r].
    + split; [intros H; discriminate H|].
      intros (_ & _ & x & s & H & _).
      change (of_string "") with (@Raise float ValueError) in H.
      discriminate H.
    + unfold format_cpu_m.
      destruct (endswith_char "m" (String c r)) eqn:Em.
      * split; [intros H; discriminate H | intros (_ & H & _); discriminate H].
      * destruct (of_string (String c r)) as [x|e'] eqn:Ef.
        -- cbn [bind].
           destruct (mul x (of_Z 1000)) as [|s|s k] eqn:Emul;
             cbn [round bind except_ValueError].
           ++ split; [intros H; discriminate H|].
              intros (_ & _ & x' & s & Hx & Hm). injection Hx as <-.
              rewrite Emul in Hm. discriminate Hm.
           ++ split.
              ** intros H. injection H as <-. split; [reflexivity|].
                 split; [reflexivity|]. exists x, s. auto.
              ** intros (-> & _). reflexivity.
           ++ split; [intros H; discriminate H|].
              intros (_ & _ & x' & s' & Hx & Hm). injection Hx as <-.
              rewrite Emul in Hm. discriminate Hm.
        -- pose proof (of_string_raises _ _ Ef) as ->.
           cbn [bind except_ValueError].
           split; [intros H; discriminate H|].
           intros (_ & _ & x' & s' & Hx & _). discriminate Hx.
Qed.

(* --------------------------------------------------------------------- *)
(** ** Decimal texts read by [float] *)

Lemma of_decimal_fraction (n d : Z) :
  0 <= d -> of_decimal false n (0 - d) = round_ratio false n (10 ^ d).
Proof.
  intros Hd. unfold of_decimal.
  destruct (0 <=? 0 - d) eqn:E.
  - apply Z.leb_le in E. assert (d = 0) by lia. subst d.
    change (10 ^ (0 - 0)) with 1. change (10 ^ 0) with 1.
    rewrite Z.mul_1_r. reflexivity.
  - f_equal. f_equal. lia.
Qed.

Lemma pow10_bounds (d : Z) : 0 <= d <= 18 -> 1 <= 10 ^ d <= 2 ^ 60.
Proof.
  intros Hd. split.
  - assert (0 < 10 ^ d) by (apply Z.pow_pos_nonneg; lia). lia.
  - apply Z.le_trans with (10 ^ 18); [apply Z.pow_le_mono_r; lia|].
    apply Z.leb_le. reflexivity.
Qed.

(** Reading a positive decimal below 2^60 with at most 18 decimals: the
    result is finite and within 2^-53 (relative) of the number. *)
Lemma decimal_rounding (N d : Z) :
  0 < N <= 2 ^ 60 -> 0 <= d <= 18 ->
  exists k, round_ratio false N (10 ^ d) = Fin false k
            /\ finite_magnitude k
            /\ 2 ^ 53 * Z.abs (k * 10 ^ d - N * one) <= N * one.
Proof.
  intros HN Hd. pose proof (pow10_bounds d Hd) as HT.
  pose proof unit_pos as Hu.
  assert (H1 : 2 ^ 52 * 2 ^ 60 <= one) by (apply Z.leb_le; reflexivity).
  assert (H2 : 2 * 2 ^ 60 <= 2 ^ 1024) by (apply Z.leb_le; reflexivity).
  apply round_ratio_normal; [lia|lia| |].
  - set (T := 10 ^ d) in *. set (A := 2 ^ 52) in *. set (B := 2 ^ 60) in *.
    assert (0 < A) by reflexivity. nia.
  - rewrite threshold_unit. set (T := 10 ^ d) in *.
    set (A := 2 ^ 1024) in *. set (B := 2 ^ 60) in *. nia.
Qed.

Lemma endswith_char_all (p : ascii -> bool) (c : ascii) (v : string) :
  all_chars p v = true -> p c = false -> endswith_char c v = false.
Proof.
  intros Hv Hc. induction v as [|a v IH]; [reflexivity|].
  cbn [all_chars] in Hv. apply andb_true_iff in Hv as [Ha Hv].
  destruct v as [|b v'].
  - cbn. destruct (Ascii.eqb a c) eqn:E; [|reflexivity].
    apply Ascii.eqb_eq in E. subst a. congruence.
  - change (endswith_char c (String a (String b v')))
      with (endswith_char c (String b v')). auto.
Qed.

Lemma fixed_num_chars (ip fp : string) :
  all_chars is_digit ip = true -> all_chars is_digit fp = true ->
  all_chars is_num_char (ip ++ "." ++ fp) = true.
Proof.
  intros Hi Hf. rewrite all_chars_app. cbn [append all_chars].
  rewrite (all_chars_impl _ _ _ is_digit_num_char Hi).
  rewrite (all_chars_impl _ _ _ is_digit_num_char Hf). reflexivity.
Qed.

Lemma format_cpu_m_number (v : string) (x : float) :
  endswith_char "m" v = false -> of_string v = Ok x ->
  format_cpu_m v
  = except_ValueError
      (millicores <- round (mul x (of_Z 1000)) ;;
       Ok (of_int millicores ++ "m"))
      (Ok v).
Proof.
  intros Em Ex. pose proof (of_string_nonempty v x Ex) as Hne.
  destruct v as [|c r]; [contradiction|].
  unfold format_cpu_m. rewrite Em, Ex. reflexivity.
Qed.

Lemma format_cpu_cores_number (v : string) (x : float) :
  endswith_char "m" v = false -> of_string v = Ok x ->
  format_cpu_cores v = Ok (format_fixed 2 x ++ "cores").
Proof.
  intros Em Ex. pose proof (of_string_nonempty v x Ex) as Hne.
  destruct v as [|c r]; [contradiction|].
  unfold format_cpu_cores. rewrite Em, Ex. reflexivity.
Qed.


End Quantities.

(* ===================================================================== *)
(** * Two roundings in a row: the arithmetic of the decimal conversions *)
(* ===================================================================== *)

Section Rounding.

Lemma mul_le_cancel (e x y : Z) : 0 < e -> e * x <= e * y -> x <= y.
Proof. intros He H. apply (Z.mul_le_mono_pos_l x y e He). exact H. Qed.

Lemma abs_scale (x s : Z) : 0 <= s -> Z.abs (x * s) = Z.abs x * s.
Proof. intros Hs. rewrite Z.abs_mul, (Z.abs_eq s) by exact Hs. reflexivity. Qed.

(** A value within a relative 1/e of m * u, for 8 m <= e, is within u / 8
    of it. *)
Lemma near_multiple (u e m a : Z) :
  0 < u -> 0 < e -> 0 <= m -> 8 * m <= e ->
  e * Z.abs (a - m * u) <= m * u ->
  8 * Z.abs (a - m * u) <= u.
Proof.
  intros Hu He Hm Hme H.
  apply (mul_le_cancel e); [exact He|].
  assert (H1 : 8 * (m * u) <= e * u).
  { rewrite Z.mul_assoc. apply Z.mul_le_mono_nonneg_r; lia. }
  lia.
Qed.

Lemma integer_within (u r m : Z) :
  0 < u -> Z.abs (r * u - m * u) < u -> r = m.
Proof.
  intros Hu H. replace (r * u - m * u) with ((r - m) * u) in H by ring.
  rewrite abs_scale in H by lia.
  assert (Z.abs (r - m) < 1).
  { apply (Z.mul_lt_mono_pos_r u); lia. }
  lia.
Qed.

Lemma two_roundings (u e m a k r : Z) :
  0 < u -> 8 <= e -> 0 <= m -> 8 * m <= e -> 0 <= a ->
  e * Z.abs (a - m * u) <= m * u ->
  e * Z.abs (k - a) <= a ->
  2 * Z.abs (r * u - k) <= u ->
  r = m.
Proof.
  intros Hu He Hm Hme Ha H1 H2 H3.
  pose proof (near_multiple u e m a Hu ltac:(lia) Hm Hme H1) as Hn.
  assert (Hb : 4 * Z.abs (k - a) <= u).
  { apply (mul_le_cancel e); [lia|].
    assert (H4 : 8 * (m * u) <= e * u).
    { rewrite Z.mul_assoc. apply Z.mul_le_mono_nonneg_r; lia. }
    assert (H5 : u <= e * u) by nia.
    lia. }
  apply (integer_within u); [exact Hu|]. lia.
Qed.

Lemma one_rounding (u e m a r : Z) :
  0 < u -> 0 < e -> 0 <= m -> 8 * m <= e ->
  e * Z.abs (a - m * u) <= m * u ->
  2 * Z.abs (r * u - a) <= u ->
  r = m.
Proof.
  intros Hu He Hm Hme H1 H3.
  pose proof (near_multiple u e m a Hu He Hm Hme H1) as Hn.
  apply (integer_within u); [exact Hu|]. lia.
Qed.

Lemma scaled_error (k1 T N S u e : Z) :
  0 <= S ->
  e * Z.abs (k1 * T - N * u) <= N * u ->
  e * Z.abs (k1 * (T * S) - N * S * u) <= N * S * u.
Proof.
  intros HS H.
  replace (k1 * (T * S) - N * S * u) with ((k1 * T - N * u) * S) by ring.
  rewrite abs_scale by exact HS.
  replace (N * S * u) with (N * u * S) by ring.
  rewrite Z.mul_assoc. apply Z.mul_le_mono_nonneg_r; assumption.
Qed.

Lemma cancel_square (e x a u : Z) :
  0 < u ->
  e * Z.abs (x * (u * u) - a * u * u) <= a * u * u ->
  e * Z.abs (x - a) <= a.
Proof.
  intros Hu H. assert (Huu : 0 < u * u) by (apply Z.mul_pos_pos; exact Hu).
  replace (x * (u * u) - a * u * u) with ((x - a) * (u * u)) in H by ring.
  rewrite abs_scale in H by lia.
  replace (a * u * u) with (a * (u * u)) in H by ring.
  rewrite Z.mul_assoc in H.
  apply (Z.mul_le_mono_pos_r _ _ (u * u) Huu). exact H.
Qed.

(** The product of a finite positive float near m (an integer of at most
    2^50) with 1000.0 ... stated on magnitudes: [a] is the exact product. *)
Lemma mul_near_integer (k1 c m : Z) :
  0 < c <= 1000 -> 1 <= m -> 8 * m <= 2 ^ 53 ->
  0 <= k1 ->
  2 ^ 53 * Z.abs (k1 * c - m * one) <= m * one ->
  exists k2, mul (Fin false k1) (Fin false (c * one)) = Fin false k2
             /\ 0 <= k2
             /\ 2 ^ 53 * Z.abs (k2 - k1 * c) <= k1 * c.
Proof.
  intros Hc Hm Hme Hk1 Herr. pose proof unit_pos as Hu.
  assert (H53 : 2 ^ 53 = 9007199254740992) by reflexivity.
  assert (Hone : 2 ^ 53 <= one) by (apply Z.leb_le; reflexivity).
  pose proof (near_multiple one (2 ^ 53) m (k1 * c) Hu ltac:(lia) ltac:(lia)
                Hme Herr) as Hn.
  assert (Hmu : one <= m * one).
  { rewrite <- (Z.mul_1_l one) at 1. apply Z.mul_le_mono_nonneg_r; lia. }
  assert (Hmu2 : 8 * (m * one) <= 2 ^ 53 * one).
  { rewrite Z.mul_assoc. apply Z.mul_le_mono_nonneg_r; lia. }
  assert (Ha_lo : 7 * one <= 8 * (k1 * c)) by lia.
  assert (Ha_hi : 8 * (k1 * c) <= (2 ^ 53 + 1) * one) by lia.
  assert (Huu : 0 < one * one) by (apply Z.mul_pos_pos; exact Hu).
  unfold mul. cbn [xorb].
  destruct (round_ratio_normal false (k1 * (c * one)) (one * one))
    as (k2 & E2 & Hk2 & Herr2).
  - replace (k1 * (c * one)) with (k1 * c * one) by ring.
    apply Z.mul_pos_pos; lia.
  - exact Huu.
  - replace (k1 * (c * one) * one) with (k1 * c * (one * one)) by ring.
    apply Z.mul_le_mono_nonneg_r; lia.
  - rewrite threshold_unit.
    assert (HA : 2 ^ 53 <= 2 ^ 1024) by (apply Z.leb_le; reflexivity).
    set (A := 2 ^ 1024) in *.
    replace (2 * (k1 * (c * one) * one)) with (2 * (k1 * c) * (one * one)) by ring.
    replace (A * one * (one * one)) with (A * one * (one * one)) by ring.
    apply Z.mul_le_mono_nonneg_r; [lia|].
    assert (H1 : 8 * (2 * (k1 * c)) <= 2 * (2 ^ 53 + 1) * one) by lia.
    assert (H2 : 2 ^ 53 * one <= A * one)
      by (apply Z.mul_le_mono_nonneg_r; lia).
    lia.
  - exists k2. split; [exact E2|]. split.
    + exact (representable_nonneg k2 (proj1 Hk2)).
    + apply (cancel_square (2 ^ 53) k2 (k1 * c) one Hu).
      replace (k1 * c * one * one) with (k1 * (c * one) * one) by ring.
      exact Herr2.
Qed.

(** [int(round(cores * 1000))] for the float nearest to N / 10^d. *)
Lemma millicores_of_ratio (N d : Z) :
  0 <= N -> 0 <= d <= 3 -> N * 10 ^ (3 - d) <= 2 ^ 50 ->
  round (mul (round_ratio false N (10 ^ d)) (of_Z 1000))
  = Ok (N * 10 ^ (3 - d)).
Proof.
  intros HN Hd HM. pose proof unit_pos as Hu. rewrite of_Z_1000.
  destruct (Z.eq_dec N 0) as [->|Hnz].
  - rewrite round_ratio_zero. unfold mul. cbn [xorb].
    rewrite Z.mul_0_l, round_ratio_zero. unfold round, apply_sign.
    assert (E0 : div_rne 0 one = 0) by exact (div_rne_exact 0 one Hu).
    rewrite E0. reflexivity.
  - assert (HS : 1 <= 10 ^ (3 - d)).
    { assert (0 < 10 ^ (3 - d)) by (apply Z.pow_pos_nonneg; lia). lia. }
    assert (H50 : 2 ^ 50 = 1125899906842624) by reflexivity.
    assert (H53 : 2 ^ 53 = 9007199254740992) by reflexivity.
    assert (H60 : 2 ^ 60 = 1152921504606846976) by reflexivity.
    assert (HTS : 10 ^ d * 10 ^ (3 - d) = 1000).
    { rewrite <- Z.pow_add_r by lia. replace (d + (3 - d)) with 3 by lia.
      reflexivity. }
    set (S := 10 ^ (3 - d)) in *.
    assert (HNb : N <= 2 ^ 50).
    { apply Z.le_trans with (N * S); [|exact HM].
      rewrite <- (Z.mul_1_r N) at 1. apply Z.mul_le_mono_nonneg_l; lia. }
    destruct (decimal_rounding N d ltac:(lia) ltac:(lia))
      as (k1 & E1 & Hk1 & Herr1).
    rewrite E1.
    pose proof (representable_nonneg k1 (proj1 Hk1)) as Hk10.
    pose proof (scaled_error k1 (10 ^ d) N S one (2 ^ 53) ltac:(lia) Herr1)
      as Hs.
    rewrite HTS in Hs.
    assert (HM1 : 1 <= N * S).
    { apply Z.le_trans with (1 * 1); [lia|]. apply Z.mul_le_mono_nonneg; lia. }
    destruct (mul_near_integer k1 1000 (N * S) ltac:(lia) HM1 ltac:(lia)
                Hk10 Hs) as (k2 & E2 & Hk20 & Herr2).
    rewrite E2. unfold round, apply_sign.
    pose proof (div_rne_spec k2 one Hk20 Hu) as [Hr0 Hr].
    f_equal.
    apply (two_roundings one (2 ^ 53) (N * S) (k1 * 1000) k2);
      try assumption; lia.
Qed.

Lemma format_fixed_2 (k : Z) :
  format_fixed 2 (Fin false k)
  = digits_of (div_rne (k * 100) one / 100) ++ "."
    ++ zero_pad 2 (digits_of (div_rne (k * 100) one mod 100)).
Proof. reflexivity. Qed.

(** [f"{x:.2f}"] for the float nearest to N / 10^d: the hundredths are
    exact. *)
Lemma hundredths_of_ratio (N d : Z) :
  0 <= N -> 0 <= d <= 2 -> N * 10 ^ (2 - d) <= 2 ^ 50 ->
  exists k, round_ratio false N (10 ^ d) = Fin false k
            /\ div_rne (k * 100) one = N * 10 ^ (2 - d).
Proof.
  intros HN Hd HM. pose proof unit_pos as Hu.
  destruct (Z.eq_dec N 0) as [->|Hnz].
  - exists 0. rewrite round_ratio_zero. split; [reflexivity|].
    exact (div_rne_exact 0 one Hu).
  - assert (HS : 1 <= 10 ^ (2 - d)).
    { assert (0 < 10 ^ (2 - d)) by (apply Z.pow_pos_nonneg; lia). lia. }
    assert (H50 : 2 ^ 50 = 1125899906842624) by reflexivity.
    assert (H53 : 2 ^ 53 = 9007199254740992) by reflexivity.
    assert (H60 : 2 ^ 60 = 1152921504606846976) by reflexivity.
    assert (HTS : 10 ^ d * 10 ^ (2 - d) = 100).
    { rewrite <- Z.pow_add_r by lia. replace (d + (2 - d)) with 2 by lia.
      reflexivity. }
    set (S := 10 ^ (2 - d)) in *.
    assert (HNb : N <= 2 ^ 50).
    { apply Z.le_trans with (N * S); [|exact HM].
      rewrite <- (Z.mul_1_r N) at 1. apply Z.mul_le_mono_nonneg_l; lia. }
    destruct (decimal_rounding N d ltac:(lia) ltac:(lia))
      as (k1 & E1 & Hk1 & Herr1).
    exists k1. split; [exact E1|].
    pose proof (representable_nonneg k1 (proj1 Hk1)) as Hk10.
    pose proof (scaled_error k1 (10 ^ d) N S one (2 ^ 53) ltac:(lia) Herr1)
      as Hs.
    rewrite HTS in Hs.
    pose proof (div_rne_spec (k1 * 100) one ltac:(lia) Hu) as [Hr0 Hr].
    apply (one_rounding one (2 ^ 53) (N * S) (k1 * 100));
      try assumption; lia.
Qed.

Lemma floor_inexact (u e k T E Q rho : Z) :
  0 < u -> 0 < e -> 0 < T -> 0 <= E < e ->
  e * Z.abs (k * T - E * u) <= E * u ->
  E = Q * T + rho -> 0 < rho < T ->
  Q * u <= k < (Q + 1) * u.
Proof.
  intros Hu He HT HE Herr HQ Hrho.
  assert (Hlt : Z.abs (k * T - E * u) < u).
  { apply (Z.mul_lt_mono_pos_l e); [exact He|].
    apply Z.le_lt_trans with (E * u); [exact Herr|].
    apply Z.mul_lt_mono_pos_r; lia. }
  assert (HEu : E * u = Q * u * T + rho * u) by (rewrite HQ; ring).
  assert (H1 : 0 <= (rho - 1) * u) by (apply Z.mul_nonneg_nonneg; lia).
  assert (H2 : 0 <= (T - rho - 1) * u) by (apply Z.mul_nonneg_nonneg; lia).
  split.
  - apply Z.lt_succ_r. apply (Z.mul_lt_mono_pos_r T); [exact HT|]. lia.
  - apply (Z.mul_lt_mono_pos_r T); [exact HT|]. lia.
Qed.

Lemma pow_1024_split (p : Z) :
  0 <= p <= 4 -> one = 2 ^ (1074 - 10 * p) * 1024 ^ p.
Proof.
  intros Hp. rewrite pow_1024 by lia. apply unit_split. lia.
Qed.

(** The float nearest to N / 10^d, scaled by 1024^p and truncated, is the
    integer part of N * 1024^p / 10^d when N * 1024^p < 2^53. *)
Lemma scaled_floor (N d p : Z) :
  0 <= N -> 0 <= d <= 18 -> 0 <= p <= 4 -> N * 1024 ^ p < 2 ^ 53 ->
  exists k, round_ratio false N (10 ^ d) = Fin false k
            /\ k * 1024 ^ p < overflow_threshold
            /\ k * 1024 ^ p / one = N * 1024 ^ p / 10 ^ d.
Proof.
  intros HN Hd Hp HE. pose proof unit_pos as Hu.
  pose proof (pow10_bounds d Hd) as HT.
  assert (HB : 1 <= 1024 ^ p).
  { assert (0 < 1024 ^ p) by (apply Z.pow_pos_nonneg; lia). lia. }
  assert (H53 : 2 ^ 53 = 9007199254740992) by reflexivity.
  assert (H60 : 2 ^ 60 = 1152921504606846976) by reflexivity.
  assert (HA : 2 ^ 53 + 1 <= 2 ^ 1024) by (apply Z.leb_le; reflexivity).
  rewrite threshold_unit.
  set (T := 10 ^ d) in *. set (B := 1024 ^ p) in *. set (A := 2 ^ 1024) in *.
  assert (HNb : N <= N * B).
  { rewrite <- (Z.mul_1_r N) at 1. apply Z.mul_le_mono_nonneg_l; lia. }
  destruct (Z.eq_dec N 0) as [->|Hnz].
  { exists 0. rewrite round_ratio_zero. split; [reflexivity|].
    split; [|reflexivity].
    change (0 * B) with 0. apply Z.mul_pos_pos; lia. }
  pose proof (Z.div_mod (N * B) T ltac:(lia)) as Hdm.
  pose proof (Z.mod_pos_bound (N * B) T ltac:(lia)) as Hmod.
  assert (HQ0 : 0 <= N * B / T) by (apply Z.div_pos; lia).
  assert (HQE : N * B / T <= N * B).
  { apply Z.div_le_upper_bound; [lia|].
    rewrite <- (Z.mul_1_l (N * B)) at 1.
    apply Z.mul_le_mono_nonneg_r; lia. }
  set (Q := N * B / T) in *. set (rho := (N * B) mod T) in *.
  assert (HQu : (Q + 1) * one <= A * one)
    by (apply Z.mul_le_mono_nonneg_r; lia).
  destruct (Z.eq_dec rho 0) as [Hr|Hr].
  - (* the quotient is exact: so is the float *)
    pose proof (pow_1024_split p Hp) as Hsplit. fold B in Hsplit.
    assert (HP : 0 < 2 ^ (1074 - 10 * p)) by (apply Z.pow_pos_nonneg; lia).
    set (P := 2 ^ (1074 - 10 * p)) in *.
    exists (Q * P). split; [|split].
    + apply round_ratio_exact; [lia|lia| |].
      * split.
        -- exists Q, (1074 - 10 * p). fold P. repeat split; lia.
        -- rewrite threshold_unit. fold A.
           apply Z.le_lt_trans with (Q * one).
           ++ rewrite Hsplit. rewrite Z.mul_assoc.
              rewrite <- (Z.mul_1_r (Q * P)) at 1.
              apply Z.mul_le_mono_nonneg_l; [|lia].
              apply Z.mul_nonneg_nonneg; lia.
           ++ assert (Q * one < (Q + 1) * one)
                by (apply Z.mul_lt_mono_pos_r; lia). lia.
      * rewrite Hsplit.
        replace (N * (P * B)) with (N * B * P) by ring.
        rewrite Hdm, Hr. ring.
    + replace (Q * P * B) with (Q * one) by (rewrite Hsplit; ring).
      assert (Q * one < (Q + 1) * one)
        by (apply Z.mul_lt_mono_pos_r; lia). lia.
    + replace (Q * P * B) with (Q * one) by (rewrite Hsplit; ring).
      apply Z.div_mul. lia.
  - destruct (decimal_rounding N d ltac:(lia) Hd) as (k1 & E1 & Hk1 & Herr1).
    fold T in E1, Herr1.
    pose proof (scaled_error k1 T N B one (2 ^ 53) ltac:(lia) Herr1) as Hs.
    replace (k1 * (T * B)) with (k1 * B * T) in Hs by ring.
    pose proof (floor_inexact one (2 ^ 53) (k1 * B) T (N * B) Q rho Hu
                  ltac:(lia) ltac:(lia) ltac:(lia) Hs
                  ltac:(rewrite Hdm at 1; ring) ltac:(lia)) as [Hlo Hhi].
    exists k1. split; [exact E1|]. split; [lia|].
    symmetry. apply Z.div_unique with (k1 * B - Q * one); lia.
Qed.

Lemma cancel_unit (e x a u : Z) :
  0 < u ->
  e * Z.abs (x * u - a * u) <= a * u ->
  e * Z.abs (x - a) <= a.
Proof.
  intros Hu H.
  replace (x * u - a * u) with ((x - a) * u) in H by ring.
  rewrite abs_scale in H by lia.
  rewrite Z.mul_assoc in H.
  apply (Z.mul_le_mono_pos_r _ _ u Hu). exact H.
Qed.

(** [millicores / 1000] for an integer number of millicores, written with
    two decimals: the hundredths are within half a hundredth of N / 1000. *)
Lemma cores_of_millicores (N : Z) :
  0 <= N < 2 ^ 53 ->
  exists k, div (Fin false (N * one)) (of_Z 1000) = Ok (Fin false k)
            /\ 0 <= div_rne (k * 100) one
            /\ Z.abs (10 * div_rne (k * 100) one - N) <= 5.
Proof.
  intros HN. pose proof unit_pos as Hu.
  assert (H53 : 2 ^ 53 = 9007199254740992) by reflexivity.
  unfold div. rewrite of_Z_1000.
  replace (is_zero (Fin false (1000 * one))) with false
    by (symmetry; apply Z.eqb_neq; lia).
  cbn [xorb].
  destruct (Z.eq_dec N 0) as [->|Hnz].
  - exists 0. change (0 * one) with 0. rewrite round_ratio_zero.
    split; [reflexivity|].
    assert (E0 : div_rne (0 * 100) one = 0) by exact (div_rne_exact 0 one Hu).
    rewrite E0. split; [lia|]. change (Z.abs (10 * 0 - 0)) with 0. lia.
  - assert (Hone : 2 ^ 52 * 1000 <= one) by (apply Z.leb_le; reflexivity).
    assert (HA : 2 * 2 ^ 53 <= 2 ^ 1024) by (apply Z.leb_le; reflexivity).
    assert (Huu : 0 < one * one) by (apply Z.mul_pos_pos; exact Hu).
    destruct (round_ratio_normal false (N * one) (1000 * one))
      as (k & E & Hk & Herr).
    + apply Z.mul_pos_pos; lia.
    + lia.
    + replace (2 ^ 52 * (1000 * one)) with (2 ^ 52 * 1000 * one) by ring.
      apply Z.mul_le_mono_nonneg_r; [lia|].
      apply Z.le_trans with (1 * one); [lia|].
      apply Z.mul_le_mono_nonneg_r; lia.
    + rewrite threshold_unit. set (A := 2 ^ 1024) in *.
      replace (2 * (N * one * one)) with (2 * N * (one * one)) by ring.
      replace (A * one * (1000 * one)) with (A * 1000 * (one * one)) by ring.
      apply Z.mul_le_mono_nonneg_r; lia.
    + exists k. split; [rewrite E; reflexivity|].
      pose proof (representable_nonneg k (proj1 Hk)) as Hk0.
      pose proof (div_rne_spec (k * 100) one ltac:(lia) Hu) as [Hr0 Hr].
      split; [exact Hr0|].
      set (r := div_rne (k * 100) one) in *.
      replace (k * (1000 * one) - N * one * one)
        with (k * 1000 * one - N * one * one) in Herr by ring.
      apply cancel_unit in Herr; [|exact Hu].
      assert (Hlt : Z.abs (k * 1000 - N * one) < one).
      { apply (Z.mul_lt_mono_pos_l (2 ^ 53)); [lia|].
        apply Z.le_lt_trans with (N * one); [exact Herr|].
        apply Z.mul_lt_mono_pos_r; lia. }
      assert (Hd : Z.abs (10 * r - N) * one < 6 * one).
      { rewrite <- abs_scale by lia.
        replace ((10 * r - N) * one)
          with (10 * (r * one - k * 100) + (k * 1000 - N * one)) by ring.
        lia. }
      apply Z.mul_lt_mono_pos_r in Hd; [lia | exact Hu].
Qed.

Lemma digits_val_app_nonneg (ip fp : string) :
  all_chars is_digit ip = true -> all_chars is_digit fp = true ->
  0 <= digits_val 0 (ip ++ fp).
Proof.
  intros Hi Hf. apply digits_val_nonneg; [|lia].
  rewrite all_chars_app, Hi, Hf. reflexivity.
Qed.

Lemma of_string_decimal (ip fp : string) :
  ip <> "" -> all_chars is_digit ip = true -> all_chars is_digit fp = true ->
  of_string (ip ++ "." ++ fp)
  = Ok (round_ratio false (digits_val 0 (ip ++ fp))
          (10 ^ Z.of_nat (String.length fp))).
Proof.
  intros Hne Hi Hf. rewrite (of_string_fixed ip fp Hne Hi Hf).
  rewrite of_decimal_fraction by lia. reflexivity.
Qed.

Lemma is_num_char_m : is_num_char "m" = false.
Proof. reflexivity. Qed.

Lemma drop_last_app_char (a : string) (c : ascii) :
  drop_last (a ++ String c "") = a.
Proof.
  induction a as [|b a IH]; [reflexivity|].
  change (String b a ++ String c "") with (String b (a ++ String c "")).
  destruct (a ++ String c "") as [|x y] eqn:E.
  - destruct a; discriminate.
  - cbn [drop_last]. rewrite <- IH. reflexivity.
Qed.

End Rounding.

(* ===================================================================== *)
(** * The converters on decimal numbers *)
(* ===================================================================== *)

Section Decimals.

(** X6. Decimal core counts give exact millicores.  For a number of cores
    written with digits, a point and at most three decimals,
    [format_cpu_m] writes the integer number of millicores it denotes
    (the digits without the point, scaled to thousandths) followed by "m",
    as long as that integer is at most 2^50; without decimals the point
    may be omitted. *)
Theorem cpu_m_of_decimal_cores (ip fp : string) :
  ip <> "" -> all_chars is_digit ip = true -> all_chars is_digit fp = true ->
  (String.length fp <= 3)%nat ->
  digits_val 0 (ip ++ fp) * 10 ^ (3 - Z.of_nat (String.length fp)) <= 2 ^ 50 ->
  format_cpu_m (ip ++ "." ++ fp)
  = Ok (of_int (digits_val 0 (ip ++ fp)
                * 10 ^ (3 - Z.of_nat (String.length fp))) ++ "m")
  /\ (fp = "" ->
      format_cpu_m ip
      = Ok (of_int (digits_val 0 (ip ++ fp)
                    * 10 ^ (3 - Z.of_nat (String.length fp))) ++ "m")).
Proof.
  intros Hne Hi Hf Hlen HM.
  pose proof (digits_val_app_nonneg ip fp Hi Hf) as HN.
  pose proof (millicores_of_ratio (digits_val 0 (ip ++ fp))
                (Z.of_nat (String.length fp)) HN ltac:(lia) HM) as Hr.
  split.
  - rewrite (format_cpu_m_number _ _
               (endswith_char_all is_num_char "m" _
                  (fixed_num_chars ip fp Hi Hf) is_num_char_m)
               (of_string_decimal ip fp Hne Hi Hf)).
    rewrite Hr. reflexivity.
  - intros ->. rewrite append_nil_r in *.
    change (10 ^ Z.of_nat (String.length "")) with 1 in Hr.
    rewrite (format_cpu_m_number ip _
               (endswith_char_all is_num_char "m" ip
                  (all_chars_impl _ _ _ is_digit_num_char Hi) is_num_char_m)
               (of_string_integer ip Hne Hi)).
    rewrite Hr. reflexivity.
Qed.

Lemma cpu_m_of_decimal_cores_witness :
  format_cpu_m ("0" ++ "." ++ "25")
  = Ok (of_int (digits_val 0 ("0" ++ "25")
                * 10 ^ (3 - Z.of_nat (String.length "25"))) ++ "m")
  /\ ("25" = "" ->
      format_cpu_m "0"
      = Ok (of_int (digits_val 0 ("0" ++ "25")
                    * 10 ^ (3 - Z.of_nat (String.length "25"))) ++ "m")).
Proof.
  apply (cpu_m_of_decimal_cores "0" "25").
  - discriminate.
  - reflexivity.
  - reflexivity.
  - apply Nat.leb_le. reflexivity.
  - apply Z.leb_le. reflexivity.
Defined.

(** X7. Decimal core counts are written with two exact decimals.  For a
    number of cores written with digits, a point and at most two decimals,
    [format_cpu_cores] writes the same number with exactly two decimals
    (and without leading zeros) followed by "cores", as long as its
    hundredths are at most 2^50; without decimals the point may be
    omitted. *)
Theorem cpu_cores_of_decimal (ip fp : string) (h : Z) :
  ip <> "" -> all_chars is_digit ip = true -> all_chars is_digit fp = true ->
  (String.length fp <= 2)%nat ->
  h = digits_val 0 (ip ++ fp) * 10 ^ (2 - Z.of_nat (String.length fp)) ->
  h <= 2 ^ 50 ->
  format_cpu_cores (ip ++ "." ++ fp)
  = Ok (digits_of (h / 100) ++ "." ++ zero_pad 2 (digits_of (h mod 100))
        ++ "cores")
  /\ (fp = "" ->
      format_cpu_cores ip
      = Ok (digits_of (h / 100) ++ "." ++ zero_pad 2 (digits_of (h mod 100))
            ++ "cores")).
Proof.
  intros Hne Hi Hf Hlen -> HM.
  pose proof (digits_val_app_nonneg ip fp Hi Hf) as HN.
  destruct (hundredths_of_ratio (digits_val 0 (ip ++ fp))
              (Z.of_nat (String.length fp)) HN ltac:(lia) HM)
    as (k & Ek & Hr).
  assert (Hfmt : format_fixed 2 (Fin false k) ++ "cores"
                 = digits_of (digits_val 0 (ip ++ fp)
                              * 10 ^ (2 - Z.of_nat (String.length fp)) / 100)
                   ++ "."
                   ++ zero_pad 2
                        (digits_of
                           ((digits_val 0 (ip ++ fp)
                             * 10 ^ (2 - Z.of_nat (String.length fp))) mod 100))
                   ++ "cores").
  { rewrite format_fixed_2, Hr. rewrite !append_assoc. reflexivity. }
  split.
  - rewrite (format_cpu_cores_number _ _
               (endswith_char_all is_num_char "m" _
                  (fixed_num_chars ip fp Hi Hf) is_num_char_m)
               (of_string_decimal ip fp Hne Hi Hf)).
    rewrite Ek, Hfmt. reflexivity.
  - intros ->. rewrite append_nil_r in *.
    change (10 ^ Z.of_nat (String.length "")) with 1 in Ek.
    rewrite (format_cpu_cores_number ip _
               (endswith_char_all is_num_char "m" ip
                  (all_chars_impl _ _ _ is_digit_num_char Hi) is_num_char_m)
               (of_string_integer ip Hne Hi)).
    rewrite Ek, Hfmt. reflexivity.
Qed.

Lemma cpu_cores_of_decimal_witness :
  format_cpu_cores ("1" ++ "." ++ "5")
  = Ok (digits_of (150 / 100) ++ "." ++ zero_pad 2 (digits_of (150 mod 100))
        ++ "cores")
  /\ ("5" = "" ->
      format_cpu_cores "1"
      = Ok (digits_of (150 / 100) ++ "." ++ zero_pad 2 (digits_of (150 mod 100))
            ++ "cores")).
Proof.
  apply (cpu_cores_of_decimal "1" "5" 150).
  - discriminate.
  - reflexivity.
  - reflexivity.
  - apply Nat.leb_le. reflexivity.
  - reflexivity.
  - apply Z.leb_le. reflexivity.
Defined.

(** X8. Millicores become cores with two decimals, to the nearest
    hundredth.  For an integer 0 <= N < 2^53, [format_cpu_cores] on N
    followed by "m" writes r / 100 with two decimals and "cores", where the
    integer r is within half a hundredth of a core of N millicores:
    |10 r - N| <= 5.  When N is a multiple of ten, r is N / 10 exactly. *)
Theorem cpu_cores_of_millicores (N : Z) :
  0 <= N < 2 ^ 53 ->
  exists r, 0 <= r /\ Z.abs (10 * r - N) <= 5
    /\ format_cpu_cores (of_int N ++ "m")
       = Ok (digits_of (r / 100) ++ "." ++ zero_pad 2 (digits_of (r mod 100))
             ++ "cores").
Proof.
  intros HN.
  assert (H53 : 2 ^ 53 = 9007199254740992) by reflexivity.
  destruct (cores_of_millicores N HN) as (k & Ek & Hr0 & Hr).
  exists (div_rne (k * 100) one). split; [exact Hr0|]. split; [exact Hr|].
  rewrite of_int_nonneg by lia.
  pose proof (of_string_digits_of N ltac:(lia)) as Ef.
  assert (Em : endswith_char "m" (digits_of N ++ "m") = true).
  { rewrite endswith_char_app. reflexivity. }
  pose proof (drop_last_app_char (digits_of N) "m") as Ed.
  destruct (digits_of N ++ "m") as [|c v] eqn:Ev.
  { destruct (digits_of N); discriminate. }
  unfold format_cpu_cores. rewrite Em, Ed, Ef. cbn [bind].
  rewrite Ek. cbn [bind]. rewrite format_fixed_2, !append_assoc. reflexivity.
Qed.

Lemma cpu_cores_of_millicores_witness :
  exists r, 0 <= r /\ Z.abs (10 * r - 250) <= 5
    /\ format_cpu_cores (of_int 250 ++ "m")
       = Ok (digits_of (r / 100) ++ "." ++ zero_pad 2 (digits_of (r mod 100))
             ++ "cores").
Proof.
  apply (cpu_cores_of_millicores 250). split; [discriminate | reflexivity].
Defined.

(** X4. Decimal quantities are converted to the integer part of their
    number of bytes, when the [numfmt] command yields no value for them.
    For a quantity written with digits, a point and at most 18 decimals,
    alone or followed by one of the twelve suffixes Ki, K, KiB, ..., TiB
    with multiplier 1024^p, the byte count is then the integer part of the
    exact product of the decimal number and the multiplier, as long as
    the digits without the point, times the multiplier, stay below 2^53. *)
Theorem bytes_of_decimal
  (run : string -> option string) (ip fp u : string) (p : Z) :
  Host.numfmt_bytes run ((ip ++ "." ++ fp) ++ u) = None ->
  ip <> "" -> all_chars is_digit ip = true -> all_chars is_digit fp = true ->
  (String.length fp <= 18)%nat ->
  In (u, p) binary_suffixes \/ (u = "" /\ p = 0) ->
  digits_val 0 (ip ++ fp) * 1024 ^ p < 2 ^ 53 ->
  Host.convert_memory_to_bytes run ((ip ++ "." ++ fp) ++ u)
  = Ok (digits_val 0 (ip ++ fp) * 1024 ^ p
        / 10 ^ Z.of_nat (String.length fp)).
Proof.
  intros Hrun Hne Hi Hf Hlen Hu HE. rewrite (host_manual run _ Hrun).
  pose proof (digits_val_app_nonneg ip fp Hi Hf) as HN.
  assert (Hp : 0 <= p <= 4).
  { destruct Hu as [Hu|[_ ->]]; [|lia].
    pose proof (binary_suffix_power u p Hu). lia. }
  destruct (scaled_floor (digits_val 0 (ip ++ fp))
              (Z.of_nat (String.length fp)) p HN ltac:(lia) Hp HE)
    as (k & Ek & Hk & Hq).
  pose proof (of_string_decimal ip fp Hne Hi Hf) as Ef. rewrite Ek in Ef.
  pose proof (fixed_num_chars ip fp Hi Hf) as Hc.
  destruct Hu as [Hu|[-> ->]].
  - rewrite (bytes_binary_suffix _ k u p Hc Ef Hu Hk), Hq. reflexivity.
  - rewrite append_nil_r, (bytes_plain _ k Hc Ef).
    change (1024 ^ 0) with 1 in Hq. rewrite !Z.mul_1_r in Hq.
    rewrite Hq, Z.mul_1_r. reflexivity.
Qed.

Lemma bytes_of_decimal_witness :
  Host.convert_memory_to_bytes (fun _ => None) (("1" ++ "." ++ "5") ++ "Gi")
  = Ok (digits_val 0 ("1" ++ "5") * 1024 ^ 3 / 10 ^ Z.of_nat (String.length "5")).
Proof.
  apply (bytes_of_decimal (fun _ => None) "1" "5" "Gi" 3).
  - reflexivity.
  - discriminate.
  - reflexivity.
  - reflexivity.
  - apply Nat.leb_le. reflexivity.
  - left. cbn. tauto.
  - reflexivity.
Defined.

End Decimals.

(* ===================================================================== *)
(** * Writing a quantity and reading it back *)
(* ===================================================================== *)

Section RoundTrip.

(** C5, as the code has it.  On a host where the [numfmt] command yields
    no value: for a byte count N below 2^52, the text that
    [convert_memory_to_gib] writes for N reads back within 5368710 bytes of
    N (half of 0.01 GiB, rounded up to a whole byte), and the text that
    [convert_memory_to_mib] writes reads back within 524288 bytes (half a
    MiB).  For N millicores, [format_cpu_cores] writes a number r of
    hundredths of a core with |10 r - N| <= 5, half a hundredth; a number
    of cores with at most three decimals that denotes N <= 2^50 millicores
    is written by [format_cpu_m] as exactly N followed by "m"; and
    [format_cpu_m] returns N followed by "m" as it is. *)
Theorem display_round_trip (run : string -> option string) (N : Z) :
  (forall t, Host.numfmt_bytes run t = None) ->
  0 <= N < 2 ^ 52 ->
  (exists s M, Host.convert_memory_to_gib run (of_int N) = Ok s
               /\ Host.convert_memory_to_bytes run s = Ok M
               /\ Z.abs (M - N) <= 5368710)
  /\ (exists s M, Host.convert_memory_to_mib run (of_int N) = Ok s
                  /\ Host.convert_memory_to_bytes run s = Ok M
                  /\ Z.abs (M - N) <= 524288)
  /\ (exists r, 0 <= r /\ Z.abs (10 * r - N) <= 5
        /\ format_cpu_cores (of_int N ++ "m")
           = Ok (digits_of (r / 100) ++ "."
                 ++ zero_pad 2 (digits_of (r mod 100)) ++ "cores"))
  /\ (N <= 2 ^ 50 ->
      forall ip fp,
        ip <> "" -> all_chars is_digit ip = true ->
        all_chars is_digit fp = true -> (String.length fp <= 3)%nat ->
        digits_val 0 (ip ++ fp) * 10 ^ (3 - Z.of_nat (String.length fp)) = N ->
        format_cpu_m (ip ++ "." ++ fp) = Ok (of_int N ++ "m"))
  /\ format_cpu_m (of_int N ++ "m") = Ok (of_int N ++ "m").
Proof.
  intros Hrun HN.
  assert (H52 : 2 ^ 52 = 4503599627370496) by reflexivity.
  assert (H53 : 2 ^ 53 = 9007199254740992) by reflexivity.
  split; [|split; [|split; [|split]]].
  - destruct (gib_round_trip N HN) as (s & M & Hs & HM & Hb).
    exists s, M. rewrite (host_manual_gib run _ (Hrun _)).
    rewrite (host_manual run _ (Hrun _)). auto.
  - destruct (mib_round_trip N HN) as (s & M & Hs & HM & Hb).
    exists s, M. rewrite (host_manual_mib run _ (Hrun _)).
    rewrite (host_manual run _ (Hrun _)). auto.
  - destruct (cores_of_millicores N ltac:(lia)) as (k & Ek & Hr0 & Hr).
    exists (div_rne (k * 100) one). split; [exact Hr0|]. split; [exact Hr|].
    rewrite of_int_nonneg by lia.
    pose proof (of_string_digits_of N ltac:(lia)) as Ef.
    assert (Em : endswith_char "m" (digits_of N ++ "m") = true).
    { rewrite endswith_char_app. reflexivity. }
    pose proof (drop_last_app_char (digits_of N) "m") as Ed.
    destruct (digits_of N ++ "m") as [|c v] eqn:Ev.
    { destruct (digits_of N); discriminate. }
    unfold format_cpu_cores. rewrite Em, Ed, Ef. cbn [bind].
    rewrite Ek. cbn [bind]. rewrite format_fixed_2, !append_assoc. reflexivity.
  - intros H50 ip fp Hne Hi Hf Hlen <-.
    pose proof (digits_val_app_nonneg ip fp Hi Hf) as HN0.
    rewrite (format_cpu_m_number _ _
               (endswith_char_all is_num_char "m" _
                  (fixed_num_chars ip fp Hi Hf) is_num_char_m)
               (of_string_decimal ip fp Hne Hi Hf)).
    rewrite (millicores_of_ratio (digits_val 0 (ip ++ fp))
               (Z.of_nat (String.length fp)) HN0 ltac:(lia) H50).
    reflexivity.
  - apply format_cpu_m_of_m.
Qed.

Lemma display_round_trip_witness :
  (exists s M,
     Host.convert_memory_to_gib (fun _ => None) (of_int 134217728) = Ok s
     /\ Host.convert_memory_to_bytes (fun _ => None) s = Ok M
     /\ Z.abs (M - 134217728) <= 5368710)
  /\ (exists s M,
        Host.convert_memory_to_mib (fun _ => None) (of_int 134217728) = Ok s
        /\ Host.convert_memory_to_bytes (fun _ => None) s = Ok M
        /\ Z.abs (M - 134217728) <= 524288)
  /\ (exists r, 0 <= r /\ Z.abs (10 * r - 134217728) <= 5
        /\ format_cpu_cores (of_int 134217728 ++ "m")
           = Ok (digits_of (r / 100) ++ "."
                 ++ zero_pad 2 (digits_of (r mod 100)) ++ "cores"))
  /\ (134217728 <= 2 ^ 50 ->
      forall ip fp,
        ip <> "" -> all_chars is_digit ip = true ->
        all_chars is_digit fp = true -> (String.length fp <= 3)%nat ->
        digits_val 0 (ip ++ fp) * 10 ^ (3 - Z.of_nat (String.length fp))
        = 134217728 ->
        format_cpu_m (ip ++ "." ++ fp) = Ok (of_int 134217728 ++ "m"))
  /\ format_cpu_m (of_int 134217728 ++ "m") = Ok (of_int 134217728 ++ "m").
Proof.
  apply (display_round_trip (fun _ => None) 134217728).
  - intros t. reflexivity.
  - split; [discriminate|reflexivity].
Defined.

(** C5 as stated fails: 2^27 bytes are written "0.12Gi", which reads back
    as 128849018 bytes, 5368710 bytes away, more than half of 0.01 GiB
    (5368709.12 bytes). *)
Lemma gib_round_trip_exceeds_half_step :
  ~ (exists s M,
       Host.convert_memory_to_gib (fun _ => None) (of_int 134217728) = Ok s
       /\ Host.convert_memory_to_bytes (fun _ => None) s = Ok M
       /\ 200 * Z.abs (M - 134217728) <= 2 ^ 30).
Proof.
  assert (E1 : Host.convert_memory_to_gib (fun _ => None) (of_int 134217728)
               = Ok "0.12Gi")
    by (vm_compute; reflexivity).
  assert (E2 : Host.convert_memory_to_bytes (fun _ => None) "0.12Gi"
               = Ok 128849018)
    by (vm_compute; reflexivity).
  intros (s & M & Hs & HM & Hb).
  rewrite E1 in Hs. injection Hs as <-.
  rewrite E2 in HM. injection HM as <-.
  apply Hb. reflexivity.
Qed.

End RoundTrip.

(* ===================================================================== *)
(** * Rows built from a document *)
(* ===================================================================== *)

Section Documents.

Import Json.

Lemma and_then_done {A B : Type} (r : outcome A) (k : A -> outcome B) (b : B) :
  and_then r k = Done b -> exists a, r = Done a /\ k a = Done b.
Proof. destruct r as [a|e]; cbn; [eauto | discriminate]. Qed.

Lemma sequence_length {A : Type} (l : list (outcome A)) :
  forall r, sequence l = Done r -> List.length r = List.length l.
Proof.
  induction l as [|x l IH]; intros r H; cbn in H.
  - injection H as <-. reflexivity.
  - apply and_then_done in H as (a & _ & H).
    apply and_then_done in H as (rs & Hrs & H).
    injection H as <-. cbn. f_equal. auto.
Qed.

Lemma sequence_head {A : Type} (a : A) (l : list (outcome A)) (r : list A) :
  sequence (Done a :: l) = Done r -> exists rs, r = a :: rs /\ sequence l = Done rs.
Proof.
  cbn. intros H. apply and_then_done in H as (rs & Hrs & H).
  injection H as <-. eauto.
Qed.

Lemma formatted_done (f : json -> outcome string) (d : json) (key : string)
  (v : json) :
  formatted f d key = Done v -> exists s, v = JStr s.
Proof.
  unfold formatted. intros H.
  apply and_then_done in H as (x & _ & H).
  apply and_then_done in H as (s & _ & H).
  injection H as <-. eauto.
Qed.

Lemma workload_row_done (ns t n : string) (c : json) (row : list json) :
  workload_row ns t n c = Done row ->
  exists name a b c' d,
    get c "name" empty_str = Done name
    /\ row = [JStr ns; JStr t; JStr n; name; JStr a; JStr b; JStr c'; JStr d].
Proof.
  unfold workload_row. intros H.
  apply and_then_done in H as (name & Hname & H).
  apply and_then_done in H as (res & _ & H).
  apply and_then_done in H as (req & _ & H).
  apply and_then_done in H as (lim & _ & H).
  apply and_then_done in H as (v1 & H1 & H).
  apply and_then_done in H as (v2 & H2 & H).
  apply and_then_done in H as (v3 & H3 & H).
  apply and_then_done in H as (v4 & H4 & H).
  apply formatted_done in H1 as (a & ->), H2 as (b & ->),
      H3 as (c' & ->), H4 as (d & ->).
  injection H as <-. exists name, a, b, c', d. auto.
Qed.

Lemma workload_rows_done (ns t n : string) (cs : list json) :
  forall rows, workload_rows ns t n cs = Done rows ->
  Forall2 (fun c row => workload_row ns t n c = Done row) cs rows.
Proof.
  induction cs as [|c cs IH]; intros rows H; cbn in H.
  - injection H as <-. constructor.
  - apply and_then_done in H as (row & Hrow & H).
    apply and_then_done in H as (rs & Hrs & H).
    injection H as <-. constructor; auto.
Qed.

Lemma workload_rows_app_fail (ns t n : string) (l1 : list json) :
  forall rows1 c l2 e,
    workload_rows ns t n l1 = Done rows1 ->
    workload_row ns t n c = Fail e ->
    workload_rows ns t n (l1 ++ c :: l2) = Fail e.
Proof.
  induction l1 as [|x l1 IH]; intros rows1 c l2 e H1 Hc; cbn in *.
  - rewrite Hc. reflexivity.
  - apply and_then_done in H1 as (row & Hrow & H1).
    apply and_then_done in H1 as (rs & Hrs & H1).
    rewrite Hrow. cbn. rewrite (IH _ _ l2 _ Hrs Hc). reflexivity.
Qed.

Lemma get_workload_resources_path
  (ns t n : string) (d d1 d2 d3 : list (string * json)) (containers : json) :
  lookup "spec" d = Some (JDict d1) ->
  lookup "template" d1 = Some (JDict d2) ->
  lookup "spec" d2 = Some (JDict d3) ->
  lookup "containers" d3 = Some containers ->
  get_workload_resources ns t n (Some (JDict d))
  = (items <~ iterate containers ;; workload_rows ns t n items).
Proof.
  intros H0 H1 H2 H3. unfold get_workload_resources, get. cbn [and_then].
  rewrite H0. cbn [and_then]. rewrite H1. cbn [and_then]. rewrite H2.
  cbn [and_then]. rewrite H3. reflexivity.
Qed.

(** X16. Every row of [get_workload_resources] has the eight fields of the
    header of workload.csv and starts with the namespace, the workload type
    and the workload name that were passed. *)
Theorem workload_rows_match_header
  (ns t n : string) (data : json) (rows : list (list json)) :
  get_workload_resources ns t n (Some data) = Done rows ->
  Forall (fun row =>
            List.length row = List.length Main.workload_csv_header
            /\ firstn 3 row = [JStr ns; JStr t; JStr n]) rows.
Proof.
  unfold get_workload_resources. intros H.
  apply and_then_done in H as (spec & _ & H).
  apply and_then_done in H as (tpl & _ & H).
  apply and_then_done in H as (ps & _ & H).
  apply and_then_done in H as (cs & _ & H).
  apply and_then_done in H as (items & _ & H).
  apply workload_rows_done in H.
  induction H as [|c row cs' rows' Hrow _ IH]; constructor; auto.
  apply workload_row_done in Hrow as (name & a & b & c' & d & _ & ->).
  split; reflexivity.
Qed.

Lemma workload_rows_match_header_witness :
  get_workload_resources "ns" "deployment" "web"
    (Some (JDict [("spec", JDict [("template", JDict [("spec", JDict
       [("containers", JList [JDict [("name", JStr "app")]])])])])]))
  = Done [[JStr "ns"; JStr "deployment"; JStr "web"; JStr "app";
           JStr ""; JStr ""; JStr ""; JStr ""]]
  /\ Forall (fun row =>
               List.length row = List.length Main.workload_csv_header
               /\ firstn 3 row = [JStr "ns"; JStr "deployment"; JStr "web"])
       [[JStr "ns"; JStr "deployment"; JStr "web"; JStr "app";
         JStr ""; JStr ""; JStr ""; JStr ""]].
Proof.
  split; [reflexivity|].
  apply (workload_rows_match_header "ns" "deployment" "web"
           (JDict [("spec", JDict [("template", JDict [("spec", JDict
              [("containers", JList [JDict [("name", JStr "app")]])])])])])).
  reflexivity.
Defined.

(** X17. When the document has a list at spec.template.spec.containers, the
    rows are one per container, in the order of the list, and the fourth
    field of a row is the name of its container (the empty string when the
    container has none); a container on which a formatter or a [get] fails
    makes the whole call fail with that error, whatever follows it. *)
Theorem workload_row_per_container
  (ns t n : string) (d d1 d2 d3 : list (string * json)) (cs : list json) :
  lookup "spec" d = Some (JDict d1) ->
  lookup "template" d1 = Some (JDict d2) ->
  lookup "spec" d2 = Some (JDict d3) ->
  lookup "containers" d3 = Some (JList cs) ->
  (forall rows, get_workload_resources ns t n (Some (JDict d)) = Done rows ->
     Forall2 (fun c row => get c "name" empty_str = Done (nth 3 row JNull))
       cs rows)
  /\ (forall l1 c l2 rows1 e, cs = (l1 ++ c :: l2)%list ->
        workload_rows ns t n l1 = Done rows1 ->
        workload_row ns t n c = Fail e ->
        get_workload_resources ns t n (Some (JDict d)) = Fail e).
Proof.
  intros H0 H1 H2 H3.
  rewrite (get_workload_resources_path ns t n d d1 d2 d3 _ H0 H1 H2 H3).
  cbn [iterate and_then]. split.
  - intros rows H. apply workload_rows_done in H.
    clear H0 H1 H2 H3.
    induction H as [|c row cs' rows' Hrow _ IH]; [constructor|].
    constructor; [|exact IH].
    apply workload_row_done in Hrow as (name & a & b & c' & d' & Hn & ->).
    exact Hn.
  - intros l1 c l2 rows1 e -> Hl1 Hc.
    exact (workload_rows_app_fail ns t n l1 rows1 c l2 e Hl1 Hc).
Qed.

Lemma workload_row_per_container_witness :
  let c1 := JDict [("name", JStr "app")] in
  let c2 := JDict [("resources", JDict [("limits", JDict [("cpu", JInt 2)])])] in
  let d3 := [("containers", JList [c1; c2; c1])] in
  let d2 := [("spec", JDict d3)] in
  let d1 := [("template", JDict d2)] in
  let d := [("spec", JDict d1)] in
  (forall rows,
     get_workload_resources "ns" "deployment" "web" (Some (JDict d)) = Done rows ->
     Forall2 (fun c row => get c "name" empty_str = Done (nth 3 row JNull))
       [c1; c2; c1] rows)
  /\ get_workload_resources "ns" "deployment" "web" (Some (JDict d))
     = Fail AttributeError.
Proof.
  intros c1 c2 d3 d2 d1 d.
  pose proof (workload_row_per_container "ns" "deployment" "web" d d1 d2 d3
                [c1; c2; c1] eq_refl eq_refl eq_refl eq_refl) as [Ha Hb].
  split; [exact Ha|].
  exact (Hb [c1] c2 [c1] _ AttributeError eq_refl eq_refl eq_refl).
Defined.

(** X18. A key that is missing on the way to the containers gives no rows,
    while a key that is present with a value that is not an object (a
    [null], say) raises [AttributeError]; a containers value that is
    [null], a number or a boolean raises [TypeError]. *)
Theorem workload_missing_key_versus_null (ns t n : string) :
  (forall d, lookup "spec" d = None ->
     get_workload_resources ns t n (Some (JDict d)) = Done [])
  /\ (forall d d1, lookup "spec" d = Some (JDict d1) ->
        lookup "template" d1 = None ->
        get_workload_resources ns t n (Some (JDict d)) = Done [])
  /\ (forall d d1 d2, lookup "spec" d = Some (JDict d1) ->
        lookup "template" d1 = Some (JDict d2) ->
        lookup "spec" d2 = None ->
        get_workload_resources ns t n (Some (JDict d)) = Done [])
  /\ (forall d d1 d2 d3, lookup "spec" d = Some (JDict d1) ->
        lookup "template" d1 = Some (JDict d2) ->
        lookup "spec" d2 = Some (JDict d3) ->
        lookup "containers" d3 = None ->
        get_workload_resources ns t n (Some (JDict d)) = Done [])
  /\ (forall d v, lookup "spec" d = Some v ->
        (forall d1, v <> JDict d1) ->
        get_workload_resources ns t n (Some (JDict d)) = Fail AttributeError)
  /\ (forall d d1 v, lookup "spec" d = Some (JDict d1) ->
        lookup "template" d1 = Some v ->
        (forall d2, v <> JDict d2) ->
        get_workload_resources ns t n (Some (JDict d)) = Fail AttributeError)
  /\ (forall d d1 d2 v, lookup "spec" d = Some (JDict d1) ->
        lookup "template" d1 = Some (JDict d2) ->
        lookup "spec" d2 = Some v ->
        (forall d3, v <> JDict d3) ->
        get_workload_resources ns t n (Some (JDict d)) = Fail AttributeError)
  /\ (forall d d1 d2 d3 v, lookup "spec" d = Some (JDict d1) ->
        lookup "template" d1 = Some (JDict d2) ->
        lookup "spec" d2 = Some (JDict d3) ->
        lookup "containers" d3 = Some v ->
        In v [JNull; JBool true; JBool false] \/ (exists z, v = JInt z)
          \/ (exists x, v = JFloat x) ->
        get_workload_resources ns t n (Some (JDict d)) = Fail TypeError).
Proof.
  unfold get_workload_resources, get.
  repeat split; intros.
  - cbn [and_then]. rewrite H. reflexivity.
  - cbn [and_then]. rewrite H. cbn [and_then]. rewrite H0. reflexivity.
  - cbn [and_then]. rewrite H. cbn [and_then]. rewrite H0. cbn [and_then].
    rewrite H1. reflexivity.
  - cbn [and_then]. rewrite H. cbn [and_then]. rewrite H0. cbn [and_then].
    rewrite H1. cbn [and_then]. rewrite H2. reflexivity.
  - cbn [and_then]. rewrite H.
    destruct v; try reflexivity. exfalso. eapply H0; reflexivity.
  - cbn [and_then]. rewrite H. cbn [and_then]. rewrite H0.
    destruct v; try reflexivity. exfalso. eapply H1; reflexivity.
  - cbn [and_then]. rewrite H. cbn [and_then]. rewrite H0. cbn [and_then].
    rewrite H1.
    destruct v; try reflexivity. exfalso. eapply H2; reflexivity.
  - cbn [and_then]. rewrite H. cbn [and_then]. rewrite H0. cbn [and_then].
    rewrite H1. cbn [and_then]. rewrite H2.
    destruct H3 as [H3|[[z ->]|[x ->]]]; try reflexivity.
    cbn in H3. destruct H3 as [<-|[<-|[<-|[]]]]; reflexivity.
Qed.

Lemma workload_missing_key_versus_null_witness :
  get_workload_resources "ns" "deployment" "web"
    (Some (JDict [("kind", JStr "Deployment")])) = Done []
  /\ get_workload_resources "ns" "deployment" "web"
       (Some (JDict [("spec", JNull)])) = Fail AttributeError
  /\ get_workload_resources "ns" "deployment" "web"
       (Some (JDict [("spec", JDict [("template", JDict [("spec", JDict
          [("containers", JNull)])])])])) = Fail TypeError.
Proof.
  destruct (workload_missing_key_versus_null "ns" "deployment" "web")
    as (A & _ & _ & _ & B & _ & _ & C).
  split; [apply A; reflexivity|]. split.
  - apply (B _ JNull); [reflexivity | discriminate].
  - eapply C; [reflexivity | reflexivity | reflexivity | reflexivity |].
    left. left. reflexivity.
Defined.

(** X19. [get_resource_quota_details] on a fetched document that it can walk
    returns a row, never [None]; the row has the 22 fields of the header of
    the quota table and starts with the namespace and the quota name. *)
Theorem quota_row_matches_header
  (ns q : string) (data : json) (r : option (list json)) :
  get_resource_quota_details ns q (Some data) = Done r ->
  exists row, r = Some row
    /\ List.length row = List.length Main.quota_csv_header
    /\ firstn 2 row = [JStr ns; JStr q].
Proof.
  unfold get_resource_quota_details. intros H.
  apply and_then_done in H as (spec & _ & H).
  apply and_then_done in H as (hard & _ & H).
  apply and_then_done in H as (status & _ & H).
  apply and_then_done in H as (used & _ & H).
  apply and_then_done in H as (row & Hrow & H).
  injection H as <-. exists row. split; [reflexivity|]. split.
  - apply sequence_length in Hrow. exact Hrow.
  - apply sequence_head in Hrow as (r1 & -> & Hrow).
    apply sequence_head in Hrow as (r2 & -> & _). reflexivity.
Qed.

Lemma quota_row_matches_header_witness :
  exists row, Some (JStr "ns" :: JStr "q" :: repeat (JStr "") 20) = Some row
    /\ List.length row = List.length Main.quota_csv_header
    /\ firstn 2 row = [JStr "ns"; JStr "q"].
Proof.
  apply (quota_row_matches_header "ns" "q" (JDict [])). reflexivity.
Defined.

(** X20. A quota document without [spec] and without [status] gives the row
    of the two names followed by twenty empty strings; so does one whose
    [spec] has no [hard] and whose [status] has no [used]. *)
Theorem quota_row_defaults (ns q : string) (d : list (string * json)) :
  (lookup "spec" d = None
   \/ exists d1, lookup "spec" d = Some (JDict d1) /\ lookup "hard" d1 = None) ->
  (lookup "status" d = None
   \/ exists d2, lookup "status" d = Some (JDict d2) /\ lookup "used" d2 = None) ->
  get_resource_quota_details ns q (Some (JDict d))
  = Done (Some (JStr ns :: JStr q :: repeat (JStr "") 20)).
Proof.
  intros Hs Ht. unfold get_resource_quota_details, get at 1 3.
  cbn [and_then].
  assert (E1 : get match lookup "spec" d with Some x => x | None => empty_dict end
                 "hard" empty_dict = Done empty_dict).
  { destruct Hs as [->|(d1 & -> & H)]; [reflexivity|]. cbn. rewrite H. reflexivity. }
  assert (E2 : get match lookup "status" d with Some x => x | None => empty_dict end
                 "used" empty_dict = Done empty_dict).
  { destruct Ht as [->|(d1 & -> & H)]; [reflexivity|]. cbn. rewrite H. reflexivity. }
  rewrite E1. cbn [and_then]. rewrite E2. reflexivity.
Qed.

Lemma quota_row_defaults_witness :
  get_resource_quota_details "ns" "q"
    (Some (JDict [("kind", JStr "ResourceQuota"); ("spec", JDict [])]))
  = Done (Some (JStr "ns" :: JStr "q" :: repeat (JStr "") 20)).
Proof.
  apply (quota_row_defaults "ns" "q"
           [("kind", JStr "ResourceQuota"); ("spec", JDict [])]).
  - right. exists []. split; reflexivity.
  - left. reflexivity.
Defined.

Lemma build_limits_map_app (l1 : list json) :
  forall l2 m, build_limits_map (l1 ++ l2) = Done m ->
  exists m1 m2, build_limits_map l1 = Done m1
                /\ build_limits_map l2 = Done m2 /\ m = (m1 ++ m2)%list.
Proof.
  induction l1 as [|x l1 IH]; intros l2 m H; cbn in *.
  - exists [], m. auto.
  - apply and_then_done in H as (key & Hk & H). rewrite Hk. cbn.
    destruct (hashable key); [|discriminate].
    apply and_then_done in H as (m' & Hm' & H). injection H as <-.
    apply IH in Hm' as (m1 & m2 & -> & -> & ->). cbn.
    exists ((key, x) :: m1), m2. auto.
Qed.

Lemma limits_map_find_app (key : string) (m1 m2 : list (json * json)) :
  limits_map_find key (m1 ++ m2)
  = match limits_map_find key m2 with
    | Some later => Some later
    | None => limits_map_find key m1
    end.
Proof.
  induction m1 as [|[k item] m1 IH]; cbn.
  - destruct (limits_map_find key m2); reflexivity.
  - rewrite IH. destruct (limits_map_find key m2); reflexivity.
Qed.

Lemma limits_map_find_none (key : string) (l : list json) :
  forall m, build_limits_map l = Done m ->
  Forall (fun it => get it "type" JNull <> Done (JStr key)) l ->
  limits_map_find key m = None.
Proof.
  induction l as [|x l IH]; intros m H HF; cbn in H.
  - injection H as <-. reflexivity.
  - apply and_then_done in H as (k & Hk & H).
    destruct (hashable k); [|discriminate].
    apply and_then_done in H as (m' & Hm' & H). injection H as <-.
    inversion HF as [|? ? Hx HF']; subst. cbn.
    rewrite (IH _ Hm' HF').
    destruct k; try reflexivity.
    destruct (String.eqb s key) eqn:E; [|reflexivity].
    apply String.eqb_eq in E. subst s. contradiction.
Qed.

(** X21. When several items of a limit range have the same type, the last of
    them is the one whose values are reported: the earlier ones are
    replaced as a whole, not merged. *)
Theorem limit_range_last_item_of_type_wins
  (l1 l2 : list json) (item : json) (key : string)
  (m : list (json * json)) :
  build_limits_map (l1 ++ item :: l2) = Done m ->
  get item "type" JNull = Done (JStr key) ->
  Forall (fun it => get it "type" JNull <> Done (JStr key)) l2 ->
  limits_map_get key m = item.
Proof.
  intros H Hk HF.
  apply build_limits_map_app in H as (m1 & m2 & _ & H2 & ->).
  cbn in H2. rewrite Hk in H2. cbn in H2.
  apply and_then_done in H2 as (m' & Hm' & H2). injection H2 as <-.
  unfold limits_map_get. rewrite limits_map_find_app. cbn.
  rewrite (limits_map_find_none key l2 m' Hm' HF).
  rewrite String.eqb_refl. reflexivity.
Qed.

Lemma limit_range_last_item_of_type_wins_witness :
  let first := JDict [("type", JStr "Container");
                      ("max", JDict [("cpu", JStr "2")])] in
  let last := JDict [("type", JStr "Container");
                     ("min", JDict [("cpu", JStr "100m")])] in
  let pod := JDict [("type", JStr "Pod")] in
  limits_map_get "Container"
    [(JStr "Container", first); (JStr "Container", last); (JStr "Pod", pod)]
  = last.
Proof.
  intros first last pod.
  apply (limit_range_last_item_of_type_wins [first] [pod] last "Container").
  - reflexivity.
  - reflexivity.
  - repeat constructor. discriminate.
Defined.

(** X22. [get_limit_range_details] on a fetched document that it can walk
    returns a row with the 20 fields of the header of the limit-range
    table, starting with the namespace and the limit-range name; when the
    document has no [spec], or its [spec] has no [limits], the other
    eighteen fields are empty. *)
Theorem limit_range_row_matches_header (ns n : string) :
  (forall data r, get_limit_range_details ns n (Some data) = Done r ->
     exists row, r = Some row
       /\ List.length row = List.length Main.limitrange_csv_header
       /\ firstn 2 row = [JStr ns; JStr n])
  /\ (forall d,
        lookup "spec" d = None
        \/ (exists d1, lookup "spec" d = Some (JDict d1)
                       /\ lookup "limits" d1 = None) ->
        get_limit_range_details ns n (Some (JDict d))
        = Done (Some (JStr ns :: JStr n :: repeat (JStr "") 18))).
Proof.
  split.
  - intros data r H. unfold get_limit_range_details in H.
    apply and_then_done in H as (spec & _ & H).
    apply and_then_done in H as (limits & _ & H).
    apply and_then_done in H as (items & _ & H).
    apply and_then_done in H as (lm & _ & H).
    cbv zeta in H.
    apply and_then_done in H as (row & Hrow & H).
    injection H as <-. exists row. split; [reflexivity|]. split.
    + apply sequence_length in Hrow. exact Hrow.
    + apply sequence_head in Hrow as (r1 & -> & Hrow).
      apply sequence_head in Hrow as (r2 & -> & _). reflexivity.
  - intros d Hs. unfold get_limit_range_details, get at 1. cbn [and_then].
    assert (E : get match lookup "spec" d with Some x => x | None => empty_dict end
                  "limits" (JList []) = Done (JList [])).
    { destruct Hs as [->|(d1 & -> & H)]; [reflexivity|].
      cbn. rewrite H. reflexivity. }
    rewrite E. reflexivity.
Qed.

Lemma limit_range_row_matches_header_witness :
  (exists row,
     Some (JStr "ns" :: JStr "lr" :: repeat (JStr "") 18) = Some row
     /\ List.length row = List.length Main.limitrange_csv_header
     /\ firstn 2 row = [JStr "ns"; JStr "lr"])
  /\ get_limit_range_details "ns" "lr"
       (Some (JDict [("spec", JDict [("limits", JList [])])]))
     = Done (Some (JStr "ns" :: JStr "lr" :: repeat (JStr "") 18)).
Proof.
  destruct (limit_range_row_matches_header "ns" "lr") as [A B].
  split.
  - apply (A (JDict [])). reflexivity.
  - reflexivity.
Defined.

End Documents.

(* ===================================================================== *)
(** * The text of [oc describe node]: sections, count and rows *)
(* ===================================================================== *)

Section NodeText.

Import Node.

Lemma bind_ok {A B : Type} (r : result A) (k : A -> result B) (b : B) :
  bind r k = Ok b -> exists a, r = Ok a /\ k a = Ok b.
Proof. destruct r as [a|e]; cbn; [eauto | discriminate]. Qed.

Lemma contains_cons (p : string) (c : ascii) (r : string) :
  contains p (String c r) = startswith p (String c r) || contains p r.
Proof. reflexivity. Qed.

Lemma strip_prefix_app (p : string) :
  forall s r x, strip_prefix p s = Some r ->
                strip_prefix p (s ++ x) = Some (r ++ x).
Proof.
  induction p as [|a p IH]; intros s r x H; cbn in *.
  - injection H as <-. reflexivity.
  - destruct s as [|b s]; [discriminate|]. cbn.
    destruct (Ascii.eqb a b); [auto | discriminate].
Qed.

Lemma startswith_app (p s x : string) :
  startswith p s = true -> startswith p (s ++ x) = true.
Proof.
  unfold startswith. destruct (strip_prefix p s) as [r|] eqn:E; [|discriminate].
  rewrite (strip_prefix_app p s r x E). reflexivity.
Qed.

Lemma splitlines_nil (s : string) : splitlines s = [] -> s = "".
Proof.
  destruct s as [|c r]; [reflexivity|]. cbn.
  destruct (is_linebreak c); [discriminate|].
  destruct (splitlines r); discriminate.
Qed.

Lemma splitlines_head (s : string) :
  forall l ls, splitlines s = l :: ls -> exists rest, s = l ++ rest.
Proof.
  induction s as [|c r IH]; intros l ls H; cbn in H; [discriminate|].
  destruct (is_linebreak c).
  - injection H as <- _. exists (String c r). reflexivity.
  - destruct (splitlines r) as [|l0 ls0] eqn:E.
    + injection H as <- _. apply splitlines_nil in E. subst r.
      exists "". reflexivity.
    + injection H as <- _. destruct (IH l0 ls0 eq_refl) as [rest ->].
      exists rest. reflexivity.
Qed.

Lemma splitlines_after_break (c : ascii) (r : string) (l : string) :
  In l (if Ascii.eqb c "013"
        then match r with
             | String "010" r' => splitlines r'
             | _ => splitlines r
             end
        else splitlines r) ->
  In l (splitlines r).
Proof.
  destruct (Ascii.eqb c "013"); [|auto].
  destruct r as [|a r']; [auto|].
  destruct (Ascii.eqb a "010") eqn:E.
  - apply Ascii.eqb_eq in E. subst a. intros H. cbn. right. exact H.
  - assert (Hm : match a with
                 | "010"%char => splitlines r'
                 | _ => splitlines (String a r')
                 end = splitlines (String a r')).
    { destruct a as [[] [] [] [] [] [] [] []]; try reflexivity; discriminate. }
    match goal with |- In l ?X -> _ => change X with
        (match a with
         | "010"%char => splitlines r'
         | _ => splitlines (String a r')
         end) end.
    rewrite Hm. auto.
Qed.

(** A header that occurs in a line occurs in the text. *)
Lemma contains_line (p : string) (s : string) :
  forall l, In l (splitlines s) -> contains p l = true -> contains p s = true.
Proof.
  induction s as [|c r IH]; intros l Hin Hl; [destruct Hin|].
  rewrite contains_cons. cbn [splitlines] in Hin.
  destruct (is_linebreak c).
  - destruct Hin as [<-|Hin].
    + cbn in Hl. rewrite orb_false_r in Hl. unfold startswith in *.
      destruct p; [reflexivity | discriminate].
    + apply splitlines_after_break in Hin.
      rewrite (IH l Hin Hl). apply orb_true_r.
  - destruct (splitlines r) as [|l0 ls0] eqn:E.
    + destruct Hin as [<-|[]]. apply splitlines_nil in E. subst r.
      rewrite contains_cons in Hl. exact Hl.
    + destruct Hin as [<-|Hin].
      * rewrite contains_cons in Hl. apply orb_true_iff in Hl as [Hl|Hl].
        -- destruct (splitlines_head r l0 ls0 E) as [rest ->].
           change (String c (l0 ++ rest)) with (String c l0 ++ rest).
           rewrite (startswith_app _ _ rest Hl). reflexivity.
        -- rewrite (IH l0 (or_introl eq_refl) Hl). apply orb_true_r.
      * rewrite (IH l (or_intror Hin) Hl). apply orb_true_r.
Qed.

Lemma lines_without (p : string) (text : string) :
  contains p text = false ->
  Forall (fun l => contains p l = false) (splitlines text).
Proof.
  intros H. apply Forall_forall. intros l Hin.
  destruct (contains p l) eqn:E; [|reflexivity].
  rewrite (contains_line p text l Hin E) in H. discriminate.
Qed.

Lemma re_search_some {A : Type} (m : string -> option A) (s : string) (x : A) :
  re_search m s = Some x -> exists s', m s' = Some x.
Proof.
  induction s as [|c r IH]; cbn.
  - destruct (m "") eqn:E; [|discriminate]. intros H. injection H as <-. eauto.
  - destruct (m (String c r)) eqn:E.
    + intros H. injection H as <-. eauto.
    + exact IH.
Qed.

Lemma re_search_cons {A : Type} (m : string -> option A) (c : ascii) (r : string) :
  m (String c r) = None -> re_search m (String c r) = re_search m r.
Proof. intros H. cbn. rewrite H. reflexivity. Qed.

Lemma match_pods_total_prefix (s : string) :
  startswith hdr_pods s = false -> match_pods_total s = None.
Proof.
  unfold match_pods_total, startswith.
  destruct (strip_prefix hdr_pods s); [discriminate | reflexivity].
Qed.

Lemma contains_false_cons (p : string) (c : ascii) (r : string) :
  contains p (String c r) = false ->
  startswith p (String c r) = false /\ contains p r = false.
Proof. rewrite contains_cons. apply orb_false_iff. Qed.

Lemma re_search_no_header (text : string) :
  contains hdr_pods text = false -> re_search match_pods_total text = None.
Proof.
  induction text as [|c r IH]; intros H.
  - reflexivity.
  - apply contains_false_cons in H as [H1 H2].
    rewrite re_search_cons by (apply match_pods_total_prefix; exact H1).
    auto.
Qed.

Lemma match_in_total_digits (s t g : string) :
  match_in_total s = Some (t, g) ->
  g <> "" /\ all_chars is_digit g = true.
Proof.
  unfold match_in_total.
  destruct (strip_prefix "(" s) as [r1|]; [|discriminate].
  destruct (span is_digit r1) as [ds r2] eqn:E.
  apply span_spec in E as (_ & Hd & _).
  destruct ds as [|d ds']; [discriminate|].
  destruct (span isspace r2) as [w1 r3].
  destruct (strip_prefix "in" r3) as [r4|]; [|discriminate].
  destruct (span isspace r4) as [w2 r5].
  destruct (strip_prefix "total)" r5); [|discriminate].
  intros H. injection H as _ <-. split; [discriminate | exact Hd].
Qed.

Lemma find_num_pods_digits (dflt text : string) :
  dflt <> "" -> all_chars is_digit dflt = true ->
  find_num_pods dflt text <> ""
  /\ all_chars is_digit (find_num_pods dflt text) = true.
Proof.
  intros H1 H2. unfold find_num_pods.
  destruct (re_search match_pods_total text) as [line|]; [|auto].
  destruct (re_search match_in_total line) as [[t g]|] eqn:E; [|auto].
  apply re_search_some in E as [s' E].
  exact (match_in_total_digits s' t g E).
Qed.

(** X9. The pod count that the scan reports is never empty and consists of
    decimal digits only, whatever the text. *)
Theorem pod_count_is_digits (text : string) (sc : describe_scan) :
  scan_describe text = Ok sc ->
  num_pods sc <> "" /\ all_chars is_digit (num_pods sc) = true.
Proof.
  unfold scan_describe. destruct text as [|c r].
  - intros H. injection H as <-. cbn. split; [discriminate | reflexivity].
  - intros H. apply bind_ok in H as (pods & _ & H). injection H as <-.
    cbn [num_pods]. apply find_num_pods_digits; [discriminate | reflexivity].
Qed.

Lemma pod_count_is_digits_witness :
  "12" <> "" /\ all_chars is_digit "12" = true.
Proof.
  apply (pod_count_is_digits "Non-terminated Pods: (12 in total)"
           {| raw := allocated_init; num_pods := "12";
              pod_details_data := [] |}).
  reflexivity.
Defined.

Lemma strip_prefix_self (p x : string) : strip_prefix p (p ++ x) = Some x.
Proof.
  induction p as [|a p IH]; cbn; [reflexivity|].
  rewrite Ascii.eqb_refl. exact IH.
Qed.

Lemma space_not_digit (c : ascii) : isspace c = true -> is_digit c = false.
Proof.
  unfold isspace, is_digit. generalize (code c). intros n H.
  destruct (48 <=? n) eqn:E1; [|reflexivity].
  destruct (n <=? 57) eqn:E2; [|reflexivity]. exfalso.
  apply Z.leb_le in E1, E2.
  repeat (apply orb_true_iff in H as [H|H]);
    try (apply andb_true_iff in H as [Ha Hb]; apply Z.leb_le in Ha, Hb; lia);
    apply Z.eqb_eq in H; lia.
Qed.

Lemma space_not_paren (c : ascii) :
  isspace c = true -> negb (Ascii.eqb c "(") = true.
Proof.
  intros H. destruct (Ascii.eqb c "(") eqn:E; [|reflexivity].
  apply Ascii.eqb_eq in E. subst c. discriminate.
Qed.

Lemma stops_app (q : ascii -> bool) (a b : string) :
  stops q a -> stops q b -> stops q (a ++ b).
Proof. destruct a; cbn; auto. Qed.

Lemma match_in_total_canonical (ds w1 w2 post : string) :
  ds <> "" -> all_chars is_digit ds = true ->
  all_chars isspace w1 = true -> all_chars isspace w2 = true ->
  match_in_total ("(" ++ ds ++ w1 ++ "in" ++ w2 ++ "total)" ++ post)
  = Some ("(" ++ ds ++ w1 ++ "in" ++ w2 ++ "total)", ds).
Proof.
  intros Hne Hd H1 H2. unfold match_in_total.
  rewrite strip_prefix_self.
  rewrite (span_app is_digit ds).
  2: exact Hd.
  2: { apply stops_app; [|reflexivity].
       apply (all_chars_stops isspace is_digit); [apply space_not_digit | exact H1]. }
  destruct ds as [|d ds']; [contradiction|].
  rewrite (span_app isspace w1); [|exact H1|reflexivity].
  rewrite strip_prefix_self.
  rewrite (span_app isspace w2); [|exact H2|reflexivity].
  rewrite strip_prefix_self.
  reflexivity.
Qed.

Lemma re_search_skip {A : Type} (m : string -> option A) (q : ascii -> bool)
  (a s : string) :
  (forall c r, q c = true -> m (String c r) = None) ->
  all_chars q a = true ->
  re_search m (a ++ s) = re_search m s.
Proof.
  intros Hm. induction a as [|c a IH]; intros Ha; [reflexivity|].
  cbn in Ha. apply andb_true_iff in Ha as [Hc Ha].
  change (String c a ++ s) with (String c (a ++ s)).
  rewrite re_search_cons by (apply Hm; exact Hc). auto.
Qed.

Lemma match_in_total_paren (c : ascii) (r : string) :
  negb (Ascii.eqb c "(") = true -> match_in_total (String c r) = None.
Proof.
  intros H. unfold match_in_total. cbn [strip_prefix].
  rewrite Ascii.eqb_sym. apply negb_true_iff in H. rewrite H. reflexivity.
Qed.

Lemma strip_prefix_straddle (p : string) :
  forall a s r, strip_prefix p (a ++ s) = Some r ->
  startswith p a = true \/ exists q, p = a ++ q.
Proof.
  induction p as [|x p IH]; intros a s r H.
  - left. reflexivity.
  - destruct a as [|b a].
    + right. exists (String x p). reflexivity.
    + cbn in H. unfold startswith. cbn.
      destruct (Ascii.eqb x b) eqn:E; [|discriminate].
      apply Ascii.eqb_eq in E. subst b.
      destruct (IH a s r H) as [Hs|[q ->]].
      * left. exact Hs.
      * right. exists q. reflexivity.
Qed.

Lemma endswith_char_not_all (c : ascii) (a : string) :
  endswith_char c a = true ->
  all_chars (fun x => negb (Ascii.eqb x c)) a = false.
Proof.
  induction a as [|b a IH]; [discriminate|].
  cbn [all_chars]. destruct a as [|b' a'].
  - cbn. intros ->. reflexivity.
  - intros H. change (endswith_char c (String b (String b' a')))
      with (endswith_char c (String b' a')) in H.
    rewrite (IH H). apply andb_false_r.
Qed.

Lemma endswith_char_tail (c b : ascii) (a : string) :
  endswith_char c (String b a) = true -> a = "" \/ endswith_char c a = true.
Proof. destruct a; [left; reflexivity | right; assumption]. Qed.

Lemma re_search_before_header (pre s : string) :
  pre = "" \/ endswith_char "010" pre = true ->
  contains hdr_pods pre = false ->
  re_search match_pods_total (pre ++ s) = re_search match_pods_total s.
Proof.
  induction pre as [|c pre IH]; intros He Hc; [reflexivity|].
  destruct He as [He|He]; [discriminate|].
  apply contains_false_cons in Hc as [Hs Hc].
  change (String c pre ++ s) with (String c (pre ++ s)).
  rewrite re_search_cons.
  - apply IH; [|exact Hc]. apply endswith_char_tail in He. exact He.
  - unfold match_pods_total.
    destruct (strip_prefix hdr_pods (String c (pre ++ s))) as [r|] eqn:E;
      [|reflexivity].
    exfalso.
    apply (strip_prefix_straddle hdr_pods (String c pre) s r) in E
      as [E|[q E]].
    + rewrite E in Hs. discriminate.
    + assert (Hh : all_chars (fun x => negb (Ascii.eqb x "010")) hdr_pods = true)
        by reflexivity.
      rewrite E, all_chars_app, (endswith_char_not_all _ _ He) in Hh.
      discriminate.
Qed.

(** X10. The pod count is the number of the first "Non-terminated Pods:"
    header: when the text has no header before a line that starts with
    "Non-terminated Pods:", optional whitespace, "(", digits, optional
    whitespace, "in", optional whitespace and "total)", the count is those
    digits, whatever comes after. *)
Theorem pod_count_of_first_header
  (dflt pre w ds w1 w2 post : string) :
  pre = "" \/ endswith_char "010" pre = true ->
  contains hdr_pods pre = false ->
  all_chars isspace w = true ->
  ds <> "" -> all_chars is_digit ds = true ->
  all_chars isspace w1 = true -> all_chars isspace w2 = true ->
  find_num_pods dflt
    (pre ++ hdr_pods ++ w ++ "(" ++ ds ++ w1 ++ "in" ++ w2 ++ "total)" ++ post)
  = ds.
Proof.
  intros He Hc Hw Hne Hd H1 H2. unfold find_num_pods.
  rewrite (re_search_before_header pre _ He Hc).
  assert (Em : match_pods_total
                 (hdr_pods ++ w ++ "(" ++ ds ++ w1 ++ "in" ++ w2 ++ "total)" ++ post)
               = Some (hdr_pods ++ w ++ "(" ++ ds ++ w1 ++ "in" ++ w2 ++ "total)")).
  { unfold match_pods_total. rewrite strip_prefix_self.
    rewrite (span_app isspace w); [|exact Hw|reflexivity].
    rewrite (match_in_total_canonical ds w1 w2 post Hne Hd H1 H2).
    reflexivity. }
  assert (Es : re_search match_pods_total
                 (hdr_pods ++ w ++ "(" ++ ds ++ w1 ++ "in" ++ w2 ++ "total)" ++ post)
               = Some (hdr_pods ++ w ++ "(" ++ ds ++ w1 ++ "in" ++ w2 ++ "total)")).
  { destruct (hdr_pods ++ w ++ "(" ++ ds ++ w1 ++ "in" ++ w2 ++ "total)" ++ post);
      cbn [re_search]; rewrite Em; reflexivity. }
  rewrite Es.
  rewrite <- (append_assoc hdr_pods w).
  rewrite (re_search_skip match_in_total (fun c => negb (Ascii.eqb c "("))).
  - pose proof (match_in_total_canonical ds w1 w2 "" Hne Hd H1 H2) as E.
    rewrite !append_nil_r in E.
    change ("(" ++ ds ++ w1 ++ "in" ++ w2 ++ "total)" ++ "")
      with ("(" ++ (ds ++ w1 ++ "in" ++ w2 ++ "total)" ++ "")) in E.
    assert (E' : match_in_total ("(" ++ ds ++ w1 ++ "in" ++ w2 ++ "total)")
                 = Some ("(" ++ ds ++ w1 ++ "in" ++ w2 ++ "total)", ds)).
    { replace (ds ++ w1 ++ "in" ++ w2 ++ "total)")
        with (ds ++ w1 ++ "in" ++ w2 ++ "total)" ++ "") at 1; [exact E|].
      reflexivity. }
    destruct ("(" ++ ds ++ w1 ++ "in" ++ w2 ++ "total)") eqn:Ep;
      cbn [re_search]; rewrite E'; reflexivity.
  - exact match_in_total_paren.
  - rewrite all_chars_app. apply andb_true_iff. split; [reflexivity|].
    exact (all_chars_impl isspace _ w space_not_paren Hw).
Qed.

Lemma pod_count_of_first_header_witness :
  find_num_pods "0"
    ("Name: n1" ++ String "010" ""
     ++ hdr_pods ++ "  " ++ "(" ++ "7" ++ " " ++ "in" ++ " " ++ "total)"
     ++ String "010" "Non-terminated Pods: (9 in total)")
  = "7".
Proof.
  apply (pod_count_of_first_header "0" ("Name: n1" ++ String "010" "")
           "  " "7" " " " "
           (String "010" "Non-terminated Pods: (9 in total)")).
  - right. reflexivity.
  - reflexivity.
  - reflexivity.
  - discriminate.
  - reflexivity.
  - reflexivity.
  - reflexivity.
Defined.

Lemma pods_block_closing (l1 : list string) :
  forall (b : bool) (k : Z) (h : string) (l2 : list string),
    contains hdr_pods h = false -> contains hdr_allocated h = true ->
    Forall (fun l => contains hdr_pods l = false) l2 ->
    non_terminated_pods_block b k (l1 ++ h :: l2)
    = non_terminated_pods_block b k l1.
Proof.
  induction l1 as [|x l1 IH]; intros b k h l2 Hp Ha HF.
  - cbn [app non_terminated_pods_block]. rewrite Hp, Ha.
    apply pods_block_absent. exact HF.
  - cbn [app non_terminated_pods_block].
    destruct (contains hdr_pods x); [apply IH; assumption|].
    destruct (if contains hdr_allocated x then false else b);
      [|apply IH; assumption].
    destruct (k <? 2); [apply IH; assumption|].
    f_equal. apply IH; assumption.
Qed.

Lemma allocated_block_closing (l1 : list string) :
  forall (b : bool) (h : string) (l2 : list string),
    contains hdr_allocated h = false -> contains hdr_events h = true ->
    Forall (fun l => contains hdr_allocated l = false) l2 ->
    allocated_resources_block b (l1 ++ h :: l2)
    = allocated_resources_block b l1.
Proof.
  induction l1 as [|x l1 IH]; intros b h l2 Ha He HF.
  - cbn [app allocated_resources_block]. rewrite Ha, He.
    cbn [andb]. apply allocated_block_absent. exact HF.
  - cbn [app allocated_resources_block].
    destruct (contains hdr_allocated x); [apply IH; assumption|].
    destruct ((if contains hdr_events x then false else b)
              && negb (contains notice_limits x)
              && negb (contains notice_columns x));
      [f_equal|]; apply IH; assumption.
Qed.

(** X11. A section ends at the next section's header.  The lines after an
    "Allocated resources:" line give no pod row unless another
    "Non-terminated Pods:" line follows, and the lines after an "Events:"
    line do not reach the allocated-resources block unless another
    "Allocated resources:" line follows; the closing line itself is not
    collected either. *)
Theorem section_ends_at_next_header
  (b : bool) (k : Z) (l1 l2 : list string) (h : string) :
  (contains hdr_pods h = false -> contains hdr_allocated h = true ->
   Forall (fun l => contains hdr_pods l = false) l2 ->
   non_terminated_pods_block b k (l1 ++ h :: l2)
   = non_terminated_pods_block b k l1)
  /\ (contains hdr_allocated h = false -> contains hdr_events h = true ->
      Forall (fun l => contains hdr_allocated l = false) l2 ->
      allocated_resources_block b (l1 ++ h :: l2)
      = allocated_resources_block b l1).
Proof.
  split; intros H1 H2 HF.
  - apply pods_block_closing; assumption.
  - apply allocated_block_closing; assumption.
Qed.

Lemma section_ends_at_next_header_witness :
  non_terminated_pods_block false 0
    (["Non-terminated Pods: (1 in total)"; "Namespace Name"; "---- ----";
      "  default web-1 "]
     ++ "Allocated resources:" :: ["  cpu 100m (2%) 200m (5%)"])
  = non_terminated_pods_block false 0
      ["Non-terminated Pods: (1 in total)"; "Namespace Name"; "---- ----";
       "  default web-1 "]
  /\ allocated_resources_block false
       (["Allocated resources:"; "  cpu 100m (2%) 200m (5%)"]
        ++ "Events:  <none>" :: ["  memory 1Gi (6%) 2Gi (14%)"])
     = allocated_resources_block false
         ["Allocated resources:"; "  cpu 100m (2%) 200m (5%)"].
Proof.
  split.
  - apply (section_ends_at_next_header false 0
             ["Non-terminated Pods: (1 in total)"; "Namespace Name";
              "---- ----"; "  default web-1 "]
             ["  cpu 100m (2%) 200m (5%)"] "Allocated resources:").
    + reflexivity.
    + reflexivity.
    + repeat constructor.
  - apply (section_ends_at_next_header false 0
             ["Allocated resources:"; "  cpu 100m (2%) 200m (5%)"]
             ["  memory 1Gi (6%) 2Gi (14%)"] "Events:  <none>").
    + reflexivity.
    + reflexivity.
    + repeat constructor.
Defined.

(** X12. What the two loops over the lines collect.  Every entry of the
    allocated-resources block is a stripped line of the text that contains
    neither "Allocated resources:" nor "Events:" nor one of the two notice
    texts; every entry of the pods block is a stripped line that contains
    neither "Non-terminated Pods:" nor "Allocated resources:". *)
Theorem block_entries_are_section_lines (lines : list string) (b : bool) (k : Z) :
  Forall (fun x => exists l, In l lines /\ x = strip l
                     /\ contains hdr_allocated l = false
                     /\ contains hdr_events l = false
                     /\ contains notice_limits l = false
                     /\ contains notice_columns l = false)
    (allocated_resources_block b lines)
  /\ Forall (fun x => exists l, In l lines /\ x = strip l
                        /\ contains hdr_pods l = false
                        /\ contains hdr_allocated l = false)
       (non_terminated_pods_block b k lines).
Proof.
  split.
  - revert b. induction lines as [|x lines IH]; intros b; [constructor|].
    assert (Hl : forall b',
      Forall (fun y => exists l, In l (x :: lines) /\ y = strip l
                         /\ contains hdr_allocated l = false
                         /\ contains hdr_events l = false
                         /\ contains notice_limits l = false
                         /\ contains notice_columns l = false)
        (allocated_resources_block b' lines)).
    { intros b'. eapply Forall_impl; [|apply (IH b')].
      cbn beta. intros y (l & Hin & Hy). exists l. split; [right; exact Hin|exact Hy]. }
    cbn [allocated_resources_block].
    destruct (contains hdr_allocated x) eqn:Ea; [apply Hl|].
    destruct (contains hdr_events x) eqn:Ee.
    + cbn [andb]. apply Hl.
    + destruct b; cbn [andb]; [|apply Hl].
      destruct (contains notice_limits x) eqn:E1; cbn [negb andb]; [apply Hl|].
      destruct (contains notice_columns x) eqn:E2; cbn [negb]; [apply Hl|].
      constructor; [|apply Hl].
      exists x. repeat split; auto. left. reflexivity.
  - revert b k. induction lines as [|x lines IH]; intros b k; [constructor|].
    assert (Hl : forall b' k',
      Forall (fun y => exists l, In l (x :: lines) /\ y = strip l
                         /\ contains hdr_pods l = false
                         /\ contains hdr_allocated l = false)
        (non_terminated_pods_block b' k' lines)).
    { intros b' k'. eapply Forall_impl; [|apply (IH b' k')].
      cbn beta. intros y (l & Hin & Hy). exists l. split; [right; exact Hin|exact Hy]. }
    cbn [non_terminated_pods_block].
    destruct (contains hdr_pods x) eqn:Ep; [apply Hl|].
    destruct (contains hdr_allocated x) eqn:Ea; [apply Hl|].
    destruct b; [|apply Hl].
    destruct (k <? 2); [apply Hl|].
    constructor; [|apply Hl].
    exists x. repeat split; auto. left. reflexivity.
Qed.

(** A whitespace token: not empty, no whitespace inside. *)
Lemma split_ws_aux_tokens (s : string) :
  forall cur,
    match cur with
    | Some w => w <> "" /\ all_chars (fun c => negb (isspace c)) w = true
    | None => True
    end ->
    Forall (fun w => w <> "" /\ all_chars (fun c => negb (isspace c)) w = true)
      (split_ws_aux cur s).
Proof.
  induction s as [|c r IH]; intros cur Hc; cbn [split_ws_aux].
  - destruct cur; [constructor; [exact Hc|constructor] | constructor].
  - destruct (isspace c) eqn:E.
    + destruct cur; [constructor; [exact Hc|]|]; apply IH; exact I.
    + apply IH. destruct cur as [w|].
      * destruct Hc as [Hne Hw]. split.
        -- destruct w; discriminate.
        -- rewrite all_chars_app, Hw. cbn. rewrite E. reflexivity.
      * split; [discriminate|]. cbn. rewrite E. reflexivity.
Qed.

Lemma split_tokens (s : string) :
  Forall (fun w => w <> "" /\ all_chars (fun c => negb (isspace c)) w = true)
    (split s).
Proof. apply split_ws_aux_tokens. exact I. Qed.

Lemma pod_row_fields (parts row : list string) :
  pod_row parts = Ok row ->
  exists a b c d, row = [nth 0 parts ""; nth 1 parts ""; a; b; c; d].
Proof.
  unfold pod_row. intros H.
  apply bind_ok in H as (a & _ & H). apply bind_ok in H as (b & _ & H).
  apply bind_ok in H as (c & _ & H). apply bind_ok in H as (d & _ & H).
  injection H as <-. exists a, b, c, d. reflexivity.
Qed.

Lemma pod_details_fields (block : list string) :
  forall rows, pod_details block = Ok rows ->
  Forall (fun row => exists parts a b c d,
            In parts (map split block) /\ (9 <= List.length parts)%nat
            /\ row = [nth 0 parts ""; nth 1 parts ""; a; b; c; d]) rows.
Proof.
  induction block as [|x block IH]; intros rows H; cbn [pod_details] in H.
  - injection H as <-. constructor.
  - assert (Hl : forall rows', pod_details block = Ok rows' ->
      Forall (fun row => exists parts a b c d,
                In parts (map split (x :: block)) /\ (9 <= List.length parts)%nat
                /\ row = [nth 0 parts ""; nth 1 parts ""; a; b; c; d]) rows').
    { intros rows' H'. eapply Forall_impl; [|apply (IH rows' H')].
      cbn beta. intros row (parts & a & b & c & d & Hin & Hr).
      exists parts, a, b, c, d. split; [right; exact Hin | exact Hr]. }
    destruct x as [|ch x']; [apply Hl; exact H|].
    destruct (9 <=? List.length (split (String ch x')))%nat eqn:E;
      [|apply Hl; exact H].
    apply bind_ok in H as (row & Hrow & H).
    apply bind_ok in H as (rs & Hrs & H). injection H as <-.
    constructor; [|apply Hl; exact Hrs].
    apply pod_row_fields in Hrow as (a & b & c & d & ->).
    exists (split (String ch x')), a, b, c, d. split; [left; reflexivity|].
    split; [apply Nat.leb_le; exact E | reflexivity].
Qed.

(** X13. The namespace and the pod name of a pod-detail row are whitespace
    tokens of a line of the block: neither is empty and neither contains a
    whitespace character. *)
Theorem pod_row_names_are_tokens (block : list string) (rows : list (list string)) :
  pod_details block = Ok rows ->
  Forall (fun row =>
            exists ns_name p_name rest, row = ns_name :: p_name :: rest
              /\ ns_name <> "" /\ p_name <> ""
              /\ all_chars (fun c => negb (isspace c)) ns_name = true
              /\ all_chars (fun c => negb (isspace c)) p_name = true) rows.
Proof.
  intros H. apply pod_details_fields in H.
  eapply Forall_impl; [|exact H]. cbn beta.
  intros row (parts & a & b & c & d & Hin & Hlen & ->).
  apply in_map_iff in Hin as (line & <- & _).
  pose proof (split_tokens line) as Ht.
  rewrite Forall_forall in Ht.
  assert (H0 : In (nth 0 (split line) "") (split line))
    by (apply nth_In; lia).
  assert (H1 : In (nth 1 (split line) "") (split line))
    by (apply nth_In; lia).
  apply Ht in H0 as [A0 B0]. apply Ht in H1 as [A1 B1].
  exists (nth 0 (split line) ""), (nth 1 (split line) ""), [a; b; c; d].
  auto.
Qed.

Lemma pod_row_names_are_tokens_witness :
  Forall (fun row =>
            exists ns_name p_name rest, row = ns_name :: p_name :: rest
              /\ ns_name <> "" /\ p_name <> ""
              /\ all_chars (fun c => negb (isspace c)) ns_name = true
              /\ all_chars (fun c => negb (isspace c)) p_name = true)
    [["default"; "web-1"; "100m"; "200m"; ""; ""]].
Proof.
  apply (pod_row_names_are_tokens
           ["default   web-1  100m (2%)  200m (5%)  - (0%)  - (0%)  3d"]).
  reflexivity.
Defined.

Lemma pod_details_lengths (block : list string) (rows : list (list string)) :
  pod_details block = Ok rows ->
  Forall (fun row => List.length row = 6%nat) rows.
Proof.
  intros H. apply pod_details_fields in H.
  eapply Forall_impl; [|exact H]. cbn beta.
  intros row (parts & a & b & c & d & _ & _ & ->). reflexivity.
Qed.

Lemma lift_done {A : Type} (r : result A) (a : A) :
  Json.lift r = Json.Done a -> r = Ok a.
Proof. destruct r; cbn; intros H; [injection H as <-; reflexivity | discriminate]. Qed.

(** X14. What [get_node_details] returns fits the two headers that [main]
    writes above it: the summary has the seven fields of the node summary
    header and every pod row has the six fields of the pod header. *)
Theorem node_rows_match_headers
  (fetched : option Json.json) (text : string)
  (summary : list string) (pods : list (list string)) :
  Json.get_node_details fetched text = Json.Done (Some (summary, pods)) ->
  List.length summary = List.length Main.node_summary_csv_header
  /\ Forall (fun row => List.length row
                        = List.length Main.pod_details_csv_header) pods.
Proof.
  unfold Json.get_node_details. destruct fetched as [data|]; [|discriminate].
  intros H.
  do 8 (apply and_then_done in H as (? & _ & H)).
  apply and_then_done in H as (sc & Hsc & H).
  do 4 (apply and_then_done in H as (? & _ & H)).
  injection H as <- <-. split; [reflexivity|].
  apply lift_done in Hsc. unfold scan_describe in Hsc.
  destruct text as [|ch text'].
  - injection Hsc as <-. constructor.
  - apply bind_ok in Hsc as (rows & Hrows & Hsc). injection Hsc as <-.
    cbn [pod_details_data]. exact (pod_details_lengths _ _ Hrows).
Qed.

Lemma node_rows_match_headers_witness :
  List.length [""; ""; ""; ""; ""; ""; "0"]
  = List.length Main.node_summary_csv_header
  /\ Forall (fun row : list string =>
               List.length row = List.length Main.pod_details_csv_header) [].
Proof.
  apply (node_rows_match_headers (Some (Json.JDict [])) "").
  reflexivity.
Defined.

(** X15. A node whose document has no capacity and whose description has
    neither an "Allocated resources:" nor a "Non-terminated Pods:" header
    gives six empty summary fields, the pod count "0" and no pod row. *)
Theorem node_defaults_without_sections
  (d : list (string * Json.json)) (text : string) :
  Json.lookup "status" d = None
  \/ (exists ds, Json.lookup "status" d = Some (Json.JDict ds)
                 /\ Json.lookup "capacity" ds = None) ->
  contains hdr_allocated text = false ->
  contains hdr_pods text = false ->
  Json.get_node_details (Some (Json.JDict d)) text
  = Json.Done (Some ([""; ""; ""; ""; ""; ""; "0"], [])).
Proof.
  intros Hd Ha Hp. unfold Json.get_node_details.
  change (Json.get (Json.JDict d) "status" Json.empty_dict)
    with (Json.Done match Json.lookup "status" d with
                    | Some x => x
                    | None => Json.empty_dict
                    end).
  cbn [Json.and_then].
  assert (E : Json.get match Json.lookup "status" d with
                       | Some x => x
                       | None => Json.empty_dict
                       end "capacity" Json.empty_dict
              = Json.Done Json.empty_dict).
  { destruct Hd as [->|(ds & -> & H)]; [reflexivity|].
    cbn. rewrite H. reflexivity. }
  rewrite E. cbn [Json.and_then Json.get Json.lookup Json.empty_dict].
  rewrite (scan_defaults_without_headers text
             (lines_without _ _ Ha) (lines_without _ _ Hp)).
  unfold find_num_pods. rewrite (re_search_no_header text Hp).
  reflexivity.
Qed.

Lemma node_defaults_without_sections_witness :
  Json.get_node_details (Some (Json.JDict [("kind", Json.JStr "Node")]))
    "Name: n1"
  = Json.Done (Some ([""; ""; ""; ""; ""; ""; "0"], [])).
Proof.
  apply (node_defaults_without_sections [("kind", Json.JStr "Node")] "Name: n1").
  - left. reflexivity.
  - reflexivity.
  - reflexivity.
Defined.


End NodeText.
